(** * Fishdle: daily selection, attribute comparison, hints and score

    A shallow embedding of the game logic of [js/daily.js] (modules
    [Daily] and [Hints]) and [js/game.js] (module [Game]), and of the
    modules [Autocomplete] and [Sharing], followed by the properties
    established about it.

    Conventions of the embedding.
    - JavaScript numbers that the code only uses as integers are [Z]
      (array indices and lengths are [nat]); 32-bit operators are
      written out with their wrap-around.
    - A [Date] is its time value (milliseconds since 1970-01-01 UTC)
      together with the offset of local time on the host as it changes
      over time; the local getters ([getFullYear], [getMonth],
      [getDate]) read the offset in force at the time value.
    - The table [OCEAN_GROUPS], whose key is taken from the fish data,
      is read through its own properties and through the members it
      inherits from [Object.prototype].
    - Strings are [string]; a character stands for one code unit.
    - [undefined]/[null] results are [None]; a function that can
      dereference [null] returns a [Completion]. *)

From Stdlib Require Import ZArith Lia Ascii String.
From stdpp Require Import base option list strings gmap pretty sorting.

(** ** JavaScript helpers *)

(** The outcome of evaluating a call: a value, or a thrown exception. *)
Inductive JsError : Type :=
  | TypeError (msg : string).

Inductive Completion (A : Type) : Type :=
  | Return (a : A)
  | Throw (e : JsError).
Arguments Return {A} a.
Arguments Throw {A} e.

Global Instance completion_ret : MRet Completion := fun A a => Return a.
Global Instance completion_bind : MBind Completion := fun A B k c =>
  match c with
  | Return a => k a
  | Throw e => Throw e
  end.

Local Open Scope Z_scope.

(** [l.indexOf(x)]: first index holding [x], or -1. *)
Fixpoint indexOfFrom (i : Z) (x : string) (l : list string) : Z :=
  match l with
  | [] => -1
  | y :: l' => if bool_decide (y = x) then i else indexOfFrom (i + 1) x l'
  end.

Definition indexOf (l : list string) (x : string) : Z := indexOfFrom 0 x l.

(** [l.includes(x)]. *)
Definition includes {A} `{EqDecision A} (l : list A) (x : A) : bool :=
  bool_decide (x ∈ l).

(** The names of the members that every object inherits from
    [Object.prototype], in an environment that has not changed it. *)
Definition OBJECT_PROTOTYPE : list string :=
  ["constructor"; "__defineGetter__"; "__defineSetter__"; "hasOwnProperty";
   "__lookupGetter__"; "__lookupSetter__"; "isPrototypeOf";
   "propertyIsEnumerable"; "toString"; "valueOf"; "__proto__";
   "toLocaleString"].

(** What [object[key]] gives for an object literal whose properties
    hold arrays of strings: the array of an own property; for a name of
    [OBJECT_PROTOTYPE] the inherited member (a function, or the
    prototype itself for [__proto__]); [undefined] otherwise. *)
Inductive Property : Type :=
  | array (items : list string)
  | inheritedMember
  | undefined.

Definition getProperty (object : gmap string (list string)) (key : string)
    : Property :=
  match object !! key with
  | Some items => array items
  | None => if includes OBJECT_PROTOTYPE key then inheritedMember else undefined
  end.

(** [value || []]: an inherited member is truthy. *)
Definition orEmptyArray (value : Property) : Property :=
  match value with
  | undefined => array []
  | _ => value
  end.

(** [value.includes(x)]: only an array has the method. *)
Definition callIncludes (value : Property) (x : string) : Completion bool :=
  match value with
  | array items => Return (includes items x)
  | inheritedMember => Throw (TypeError "includes is not a function")
  | undefined => Throw (TypeError "Cannot read properties of undefined")
  end.

(** ** Fish records *)

(** Modelled from the spec: the records of the fish database
    ([data/fish.json]), which the sources load but do not contain. A
    record has an id, a display name, a scientific name, the four string
    attributes habitat, size, family and region, and a reference to its
    silhouette. *)
Record Attributes : Type := mkAttributes {
  habitat : string;
  size : string;
  family : string;
  region : string
}.

Record FishEntity : Type := mkFish {
  id : string;
  name : string;
  scientificName : string;
  attributes : Attributes;
  silhouette : string
}.

(** [Object.keys(fish.attributes)], in the order of the data model. *)
Definition attributeKeys (a : Attributes) : list string :=
  ["habitat"; "size"; "family"; "region"].

(** [fish.attributes[key]]. *)
Definition attributeGet (a : Attributes) (key : string) : option string :=
  if bool_decide (key = "habitat") then Some (habitat a)
  else if bool_decide (key = "size") then Some (size a)
  else if bool_decide (key = "family") then Some (family a)
  else if bool_decide (key = "region") then Some (region a)
  else None.

(** ** Numbers *)

(** [ToInt32] and [ToUint32] of an integral number. *)
Definition ToUint32 (x : Z) : Z := x mod 2^32.
Definition ToInt32 (x : Z) : Z := (x + 2^31) mod 2^32 - 2^31.

(** A JavaScript number that may be [NaN]; the bitwise operators read
    [NaN] as 0. *)
Definition JsNumber : Type := option Z.
Definition NaN : JsNumber := None.
Definition intOf (x : JsNumber) : Z := default 0 x.

(** [Math.imul(a, b)]. *)
Definition imul (a b : Z) : Z := ToInt32 (ToInt32 a * ToInt32 b).

(** [a ^ b], [a | b] and [a >>> n] on integral numbers. *)
Definition bxor (a b : Z) : Z := Z.lxor (ToInt32 a) (ToInt32 b).
Definition bor (a b : Z) : Z := Z.lor (ToInt32 a) (ToInt32 b).
Definition ushr (a n : Z) : Z := Z.shiftr (ToUint32 a) (n mod 32).

(** A finite double that is [mant / 2^scale] for integers [mant] and
    [scale]: the form of every fraction the code computes. *)
Record Dyadic : Type := mkDyadic { mant : Z; scale : Z }.

(** Round a non-negative integer to the nearest double (53 significant
    bits, ties to even). *)
Definition roundToDouble (x : Z) : Z :=
  let e := Z.log2 x - 52 in
  if e <=? 0 then x
  else
    let q := x / 2^e in
    let r := x mod 2^e in
    let half := 2^(e - 1) in
    let q' := if (half <? r) || ((r =? half) && Z.odd q) then q + 1 else q in
    q' * 2^e.

(** [Math.floor(d * n)] for a double [d] and an array length [n]: the
    product is rounded to a double before the floor is taken. *)
Definition floorMul (d : Dyadic) (n : Z) : Z :=
  roundToDouble (mant d * n) / 2^(scale d).

(** The doubles in [0,1): at most 53 significant bits, a value below 1,
    and nothing finer than the smallest subnormal. *)
Definition unitDouble (d : Dyadic) : bool :=
  (0 <=? mant d) && (mant d <? 2^53) && (mant d <? 2^scale d)
  && (0 <=? scale d) && (scale d <=? 1074).

(** The value of one call of [Math.random()]: some double in [0,1),
    chosen by the host. *)
Record RandomDraw : Type := mkDraw {
  MathRandom : Dyadic;
  MathRandom_unit : Is_true (unitDouble MathRandom)
}.

(** ** Strings of digits *)

(** [s.padStart(n, c)]. *)
Definition padStart (n : nat) (c : ascii) (s : string) : string :=
  String.string_of_list_ascii (replicate (n - String.length s) c) +:+ s.

Definition digitOf (c : ascii) : option Z :=
  let n := Z.of_nat (nat_of_ascii c) in
  if (48 <=? n) && (n <=? 57) then Some (n - 48) else None.

(** The longest prefix of decimal digits read as a number, [None] when
    the string does not start with a digit. *)
Fixpoint parseDigits (acc : option Z) (s : string) : option Z :=
  match s with
  | EmptyString => acc
  | String c s' =>
      match digitOf c with
      | Some d => parseDigits (Some (10 * default 0 acc + d)) s'
      | None => acc
      end
  end.

(** [parseInt(s, 10)] on a string without leading white space. *)
Definition parseInt (s : string) : JsNumber :=
  match s with
  | String "-" s' => Z.opp <$> parseDigits None s'
  | String "+" s' => parseDigits None s'
  | _ => parseDigits None s
  end.

(** ** Dates *)

Definition msPerDay : Z := 1000 * 60 * 60 * 24.

Definition DayFromYear (y : Z) : Z :=
  365 * (y - 1970) + (y - 1969) / 4 - (y - 1901) / 100 + (y - 1601) / 400.

Definition InLeapYear (y : Z) : bool :=
  ((y mod 4 =? 0) && negb (y mod 100 =? 0)) || (y mod 400 =? 0).

(** Days before the first of month [m] (0-based) within its year. *)
Definition daysBeforeMonth (leap : bool) (m : Z) : Z :=
  nth (Z.to_nat m) [0; 31; 59; 90; 120; 151; 181; 212; 243; 273; 304; 334] 0
  + (if leap && (2 <=? m) then 1 else 0).

(** [MakeDay(year, month, date)]: the day number of a civil date, months
    counted from 0 and out-of-range months and days carried over. *)
Definition MakeDay (year month date : Z) : Z :=
  let ym := year + month / 12 in
  let mn := month mod 12 in
  DayFromYear ym + daysBeforeMonth (InLeapYear ym) mn + date - 1.

(** [Date.UTC(year, month, date)]. *)
Definition DateUTC (year month date : Z) : Z :=
  let yr := if (0 <=? year) && (year <=? 99) then 1900 + year else year in
  MakeDay yr month date * msPerDay.

(** A [Date] object: its time value, and the host's offset of local
    time from UTC in milliseconds, as a function of the time value (it
    changes with the clock changes of the time zone). *)
Record Date : Type := dateOn { getTime : Z; hostTZA : Z -> Z }.

(** The offset the local getters of a date read: the one in force at
    its time value. *)
Definition localTZA (d : Date) : Z := hostTZA d (getTime d).

(** A date on a host whose offset is always [tza]. *)
Definition mkDate (time tza : Z) : Date := dateOn time (fun _ => tza).

(** Year, 0-based month and day of the month of a day number. *)
Definition civilFromDays (days : Z) : Z * Z * Z :=
  let z := days + 719468 in
  let era := z / 146097 in
  let doe := z - era * 146097 in
  let yoe := (doe - doe / 1460 + doe / 36524 - doe / 146096) / 365 in
  let doy := doe - (365 * yoe + yoe / 4 - yoe / 100) in
  let mp := (5 * doy + 2) / 153 in
  let d := doy - (153 * mp + 2) / 5 + 1 in
  let m := if mp <? 10 then mp + 2 else mp - 10 in
  let y := yoe + era * 400 + (if m <=? 1 then 1 else 0) in
  (y, m, d).

Definition getUTCFullYear (d : Date) : Z := (civilFromDays (getTime d / msPerDay)).1.1.
Definition getUTCMonth (d : Date) : Z := (civilFromDays (getTime d / msPerDay)).1.2.
Definition getUTCDate (d : Date) : Z := (civilFromDays (getTime d / msPerDay)).2.

Definition localDays (d : Date) : Z := (getTime d + localTZA d) / msPerDay.
Definition getFullYear (d : Date) : Z := (civilFromDays (localDays d)).1.1.
Definition getMonth (d : Date) : Z := (civilFromDays (localDays d)).1.2.
Definition getDate (d : Date) : Z := (civilFromDays (localDays d)).2.

(** [d.toISOString().split('T')[0]]: four-digit years are printed as
    they are, the others in the signed six-digit form. *)
Definition isoDate (d : Date) : string :=
  let y := getUTCFullYear d in
  let yyyy :=
    if (0 <=? y) && (y <=? 9999) then padStart 4 "0" (pretty y)
    else (if y <? 0 then "-" else "+") +:+ padStart 6 "0" (pretty (Z.abs y)) in
  yyyy +:+ "-" +:+ padStart 2 "0" (pretty (getUTCMonth d + 1))
       +:+ "-" +:+ padStart 2 "0" (pretty (getUTCDate d)).

(** ** Strings *)

(** [c.toLowerCase()] for a code unit below 256: the letters A-Z and the
    capital letters of Latin-1 move up by 32. *)
Definition toLowerCaseChar (c : ascii) : ascii :=
  let n := nat_of_ascii c in
  if ((65 <=? n) && (n <=? 90))%nat
     || ((192 <=? n) && (n <=? 222) && negb (n =? 215))%nat
  then ascii_of_nat (n + 32) else c.

Fixpoint toLowerCase (s : string) : string :=
  match s with
  | EmptyString => EmptyString
  | String c rest => String (toLowerCaseChar c) (toLowerCase rest)
  end.

(** White space and line terminators below 256. *)
Definition isWhiteSpace (c : ascii) : bool :=
  let n := nat_of_ascii c in
  ((9 <=? n) && (n <=? 13))%nat || (n =? 32)%nat || (n =? 160)%nat.

Fixpoint trimStart (s : string) : string :=
  match s with
  | EmptyString => EmptyString
  | String c rest => if isWhiteSpace c then trimStart rest else s
  end.

Fixpoint trimEnd (s : string) : string :=
  match s with
  | EmptyString => EmptyString
  | String c rest =>
      match trimEnd rest with
      | EmptyString => if isWhiteSpace c then EmptyString else String c EmptyString
      | rest' => String c rest'
      end
  end.

(** [s.trim()]. *)
Definition trim (s : string) : string := trimEnd (trimStart s).

(** [s.startsWith(q)]. *)
Fixpoint startsWith (q s : string) : bool :=
  match q, s with
  | EmptyString, _ => true
  | String a q', String b s' => bool_decide (a = b) && startsWith q' s'
  | String _ _, EmptyString => false
  end.

(** [s.indexOf(q)], with [None] for -1. *)
Fixpoint stringIndexOf (q s : string) : option nat :=
  if startsWith q s then Some 0%nat
  else match s with
       | EmptyString => None
       | String _ rest => S <$> stringIndexOf q rest
       end.

(** [s.includes(q)]. *)
Definition stringIncludes (q s : string) : bool :=
  bool_decide (is_Some (stringIndexOf q s)).

(** [s.substring(0, n)] and [s.substring(n)]. *)
Fixpoint stringTake (n : nat) (s : string) : string :=
  match n, s with
  | S n', String c rest => String c (stringTake n' rest)
  | _, _ => EmptyString
  end.

Fixpoint stringDrop (n : nat) (s : string) : string :=
  match n, s with
  | S n', String _ rest => stringDrop n' rest
  | _, _ => s
  end.

(** [s.substring(a, b)] for [a <= b]. *)
Definition substring (a b : nat) (s : string) : string :=
  stringTake (b - a) (stringDrop a s).

(** [l.find(p)]. *)
Fixpoint find {A} (p : A -> bool) (l : list A) : option A :=
  match l with
  | [] => None
  | x :: rest => if p x then Some x else find p rest
  end.

(** ** Module [Daily] *)

Module Daily.

(** One call of the generator returned by [seededRandom(seed)]: the
    value produced and the new [seed] of the closure. *)
Definition seededRandom (seed : JsNumber) : Dyadic * JsNumber :=
  let seed := (fun s => s + 0x6D2B79F5) <$> seed in
  let t := intOf seed in
  let t := imul (bxor t (ushr t 15)) (bor t 1) in
  let t := bxor t (t + imul (bxor t (ushr t 7)) (bor t 61)) in
  (mkDyadic (ushr (bxor t (ushr t 14)) 0) 32, seed).

Definition dateToSeed (date : Date) : JsNumber :=
  let year := getFullYear date in
  let month := padStart 2 "0" (pretty (getMonth date + 1)) in
  let day := padStart 2 "0" (pretty (getDate date)) in
  parseInt (pretty year +:+ month +:+ day).

(** [getTodayUTC()], with [now] the value of [new Date()]: a date on
    the same host. *)
Definition getTodayUTC (now : Date) : Date :=
  dateOn (DateUTC (getUTCFullYear now) (getUTCMonth now) (getUTCDate now))
         (hostTZA now).

Definition getGameNumber (date : Date) : Z :=
  let launchDate := DateUTC 2024 0 1 in
  let diffTime := getTime date - launchDate in
  let diffDays := diffTime / (1000 * 60 * 60 * 24) in
  diffDays + 1.

Record DailyFish : Type := mkDailyFish {
  fish : option FishEntity;
  gameNumber : Z;
  date : string
}.

Definition getDailyFish (fishDatabase : list FishEntity) (date : option Date)
    (now : Date) : DailyFish :=
  let date := match date with Some d => d | None => getTodayUTC now end in
  let seed := dateToSeed date in
  let rng := seededRandom seed in
  let index := floorMul rng.1 (Z.of_nat (length fishDatabase)) in
  {| fish := fishDatabase !! Z.to_nat index;
     gameNumber := getGameNumber date;
     date := isoDate date |}.

Definition getTodayKey (now : Date) : string := isoDate (getTodayUTC now).

End Daily.

(** ** Module [Hints] *)

Module Hints.

Definition LETTER_HINT_COST : Z := 10.
Definition ATTRIBUTE_HINT_COST : Z := 5.

(** The module variables. [onUpdateCallback] only redraws the page
    and is left out. *)
Record State : Type := mkState {
  targetFish : option FishEntity;
  revealedLetters : list nat;
  revealedAttributes : list string
}.

Definition ATTRIBUTE_LABELS : gmap string string :=
  list_to_map [("habitat", "Habitat"); ("size", "Size");
               ("family", "Family"); ("region", "Region")].

Definition init (fish : option FishEntity) : State := mkState fish [] [].

(** The object handed to [loadState]: a property that is missing (or
    otherwise falsy) is [None]. *)
Record SavedState : Type := mkSavedState {
  savedLetters : option (list nat);
  savedAttributes : option (list string)
}.

Definition loadState (state : SavedState) (st : State) : State :=
  let st :=
    match savedLetters state with
    | Some l => mkState (targetFish st) l (revealedAttributes st)
    | None => st
    end in
  match savedAttributes state with
  | Some l => mkState (targetFish st) (revealedLetters st) l
  | None => st
  end.

Definition getState (st : State) : SavedState :=
  mkSavedState (Some (revealedLetters st)) (Some (revealedAttributes st)).

(** Reading a property of [targetFish], which is [null] before [init]. *)
Definition target (st : State) : Completion FishEntity :=
  match targetFish st with
  | Some fish => Return fish
  | None => Throw (TypeError "Cannot read properties of null")
  end.

(** The loop of [getLetterPositions], from index [i] on. *)
Fixpoint letterPositionsFrom (i : nat) (name : string) : list nat :=
  match name with
  | EmptyString => []
  | String c rest =>
      if bool_decide (c = " "%char) then letterPositionsFrom (S i) rest
      else i :: letterPositionsFrom (S i) rest
  end.

Definition getLetterPositions (st : State) : Completion (list nat) :=
  fish ← target st;
  mret (letterPositionsFrom 0 (name fish)).

Record LetterHint : Type := mkLetterHint {
  position : nat;
  letter : option ascii;
  letterCost : Z
}.

(** [revealLetter()], with [rnd] the outcome of [Math.random()].
    The result is [None] for [null]. *)
Definition revealLetter (rnd : RandomDraw) (st : State)
    : Completion (option LetterHint * State) :=
  allPositions ← getLetterPositions st;
  let unrevealedPositions :=
    filter (fun pos => negb (includes (revealedLetters st) pos)) allPositions in
  if bool_decide (length unrevealedPositions = 0%nat) then mret (None, st)
  else
    let randomIndex :=
      floorMul (MathRandom rnd) (Z.of_nat (length unrevealedPositions)) in
    match unrevealedPositions !! Z.to_nat randomIndex with
    | Some position =>
        fish ← target st;
        let revealed := merge_sort (≤)%nat (revealedLetters st ++ [position]) in
        mret (Some (mkLetterHint position (String.get position (name fish))
                                 LETTER_HINT_COST),
              mkState (targetFish st) revealed (revealedAttributes st))
    | None => mret (None, st) (* the index is in range: not reached *)
    end.

Record AttributeHint : Type := mkAttributeHint {
  attribute : string;
  label : option string;
  value : option string;
  attributeCost : Z
}.

(** [revealAttribute()], with [rnd] the outcome of [Math.random()]. *)
Definition revealAttribute (rnd : RandomDraw) (st : State)
    : Completion (option AttributeHint * State) :=
  fish ← target st;
  let allAttributes := attributeKeys (attributes fish) in
  let unrevealedAttributes :=
    filter (fun attr => negb (includes (revealedAttributes st) attr)) allAttributes in
  if bool_decide (length unrevealedAttributes = 0%nat) then mret (None, st)
  else
    let randomIndex :=
      floorMul (MathRandom rnd) (Z.of_nat (length unrevealedAttributes)) in
    match unrevealedAttributes !! Z.to_nat randomIndex with
    | Some attribute =>
        mret (Some (mkAttributeHint attribute (ATTRIBUTE_LABELS !! attribute)
                                    (attributeGet (attributes fish) attribute)
                                    ATTRIBUTE_HINT_COST),
              mkState (targetFish st) (revealedLetters st)
                      (revealedAttributes st ++ [attribute]))
    | None => mret (None, st) (* the index is in range: not reached *)
    end.

Definition canRevealLetter (st : State) : Completion bool :=
  allPositions ← getLetterPositions st;
  mret (bool_decide (length (revealedLetters st) < length allPositions)%nat).

Definition canRevealAttribute (st : State) : Completion bool :=
  fish ← target st;
  let allAttributes := attributeKeys (attributes fish) in
  mret (bool_decide (length (revealedAttributes st) < length allAttributes)%nat).

Definition getHintPenalty (st : State) : Z :=
  Z.of_nat (length (revealedLetters st)) * LETTER_HINT_COST
  + Z.of_nat (length (revealedAttributes st)) * ATTRIBUTE_HINT_COST.

(** A cell of the name display. *)
Inductive NameCell : Type :=
  | space
  | revealed (shown : ascii)
  | blank.

(** The loop of [getNameDisplay], from index [i] on. *)
Fixpoint nameDisplayFrom (letters : list nat) (i : nat) (name : string)
    : list NameCell :=
  match name with
  | EmptyString => []
  | String c rest =>
      (if bool_decide (c = " "%char) then space
       else if includes letters i then revealed c
       else blank) :: nameDisplayFrom letters (S i) rest
  end.

Definition getNameDisplay (st : State) : Completion (list NameCell) :=
  fish ← target st;
  mret (nameDisplayFrom (revealedLetters st) 0 (name fish)).

Record RevealedAttribute : Type := mkRevealedAttribute {
  shownAttribute : string;
  shownLabel : option string;
  shownValue : option string
}.

(** [getRevealedAttributesList()]: the callback of [map] reads
    [targetFish], so nothing is read when no attribute is revealed. *)
Definition getRevealedAttributesList (st : State)
    : Completion (list RevealedAttribute) :=
  match revealedAttributes st with
  | [] => mret []
  | attrs =>
      fish ← target st;
      mret (map (fun attr =>
                   mkRevealedAttribute attr (ATTRIBUTE_LABELS !! attr)
                                       (attributeGet (attributes fish) attr))
                attrs)
  end.

(** The object of [getHintCounts()], with its properties [letters] and
    [attributes]. *)
Record HintCounts : Type := mkHintCounts {
  hintLetters : nat;
  hintAttributes : nat
}.

Definition getHintCounts (st : State) : HintCounts :=
  mkHintCounts (length (revealedLetters st)) (length (revealedAttributes st)).

End Hints.

(** ** Module [Autocomplete] *)

Module Autocomplete.

(** The module variables, with what they hold of the page: the value and
    the disabled flag of the input element, and the items of the list
    element, each with the fish it was made for. [guessedFish] is the
    set, kept as the list it was built from. *)
Record State : Type := mkState {
  fishDatabase : list FishEntity;
  inputValue : string;
  inputDisabled : bool;
  items : list FishEntity;
  currentFocus : Z;
  guessedFish : list string
}.

(** The module after [init(input, list, database, onSelect)] on a page
    whose input is empty. *)
Definition init (database : list FishEntity) : State :=
  mkState database "" false [] (-1) [].

Definition setGuessedFish (guessed : list string) (st : State) : State :=
  mkState (fishDatabase st) (inputValue st) (inputDisabled st) (items st)
          (currentFocus st) guessed.

Definition closeList (st : State) : State :=
  mkState (fishDatabase st) (inputValue st) (inputDisabled st) [] (-1)
          (guessedFish st).

Definition clear (st : State) : State :=
  closeList (mkState (fishDatabase st) "" (inputDisabled st) (items st)
                     (currentFocus st) (guessedFish st)).

Definition disable (st : State) : State :=
  closeList (mkState (fishDatabase st) (inputValue st) true (items st)
                     (currentFocus st) (guessedFish st)).

(** The fish [handleInput] lists for the query [value]. *)
Definition matchesOf (value : string) (st : State) : list FishEntity :=
  take 8
    (filter (fun fish =>
               let nameMatch := stringIncludes value (toLowerCase (name fish)) in
               let scientificMatch :=
                 stringIncludes value (toLowerCase (scientificName fish)) in
               (nameMatch || scientificMatch)
               && negb (includes (guessedFish st) (id fish)))
            (fishDatabase st)).

(** [handleInput(e)] for an event of the input element. *)
Definition handleInput (st : State) : State :=
  let value := trim (toLowerCase (inputValue st)) in
  let st := closeList st in
  if bool_decide (value = "") then st
  else
    let matches := matchesOf value st in
    if bool_decide (length matches = 0%nat) then st
    else mkState (fishDatabase st) (inputValue st) (inputDisabled st) matches (-1)
                 (guessedFish st).

(** The text [highlightMatch] returns, as the three parts it puts around
    the [strong] tags; [None] when the text is returned as it is. *)
Definition highlightParts (text query : string) : option (string * string * string) :=
  match stringIndexOf (toLowerCase query) (toLowerCase text) with
  | None => None
  | Some index =>
      let before := substring 0 index text in
      let matched := substring index (index + String.length query) text in
      let after := stringDrop (index + String.length query) text in
      Some (before, matched, after)
  end.

Definition highlightMatch (text query : string) : string :=
  match highlightParts text query with
  | None => text
  | Some (before, matched, after) =>
      before +:+ "<strong>" +:+ matched +:+ "</strong>" +:+ after
  end.

Inductive Key : Type := ArrowDown | ArrowUp | Enter | Escape | OtherKey.

(** [selectItem(fish)], up to the call of [onSelectCallback]. *)
Definition selectItem (fish : FishEntity) (st : State) : State :=
  closeList (mkState (fishDatabase st) (name fish) (inputDisabled st) (items st)
                     (currentFocus st) (guessedFish st)).

(** [handleKeydown(e)]: the new state and, when an item is selected, the
    fish handed to [onSelectCallback]. *)
Definition handleKeydown (key : Key) (st : State) : State * option FishEntity :=
  let count := Z.of_nat (length (items st)) in
  if bool_decide (length (items st) = 0%nat) then (st, None)
  else
    let withFocus focus :=
      mkState (fishDatabase st) (inputValue st) (inputDisabled st) (items st)
              focus (guessedFish st) in
    let selectById (item : FishEntity) :=
      match find (fun f => bool_decide (id f = id item)) (fishDatabase st) with
      | Some fish => (selectItem fish st, Some fish)
      | None => (st, None)
      end in
    match key with
    | ArrowDown =>
        let focus := currentFocus st + 1 in
        (withFocus (if count <=? focus then 0 else focus), None)
    | ArrowUp =>
        let focus := currentFocus st - 1 in
        (withFocus (if focus <? 0 then count - 1 else focus), None)
    | Enter =>
        match (if -1 <? currentFocus st
               then items st !! Z.to_nat (currentFocus st) else None) with
        | Some item => selectById item
        | None =>
            if bool_decide (length (items st) = 1%nat) then
              match items st !! 0%nat with
              | Some item => selectById item
              | None => (st, None)
              end
            else (st, None)
        end
    | Escape => (closeList st, None)
    | OtherKey => (st, None)
    end.

End Autocomplete.

(** ** Module [Game] *)

Module Game.

Definition BASE_SCORE : Z := 100.
Definition GUESS_PENALTY : Z := 5.
Definition MIN_SCORE : Z := 10.

Definition SIZE_ORDER : list string :=
  ["tiny"; "small"; "medium"; "large"; "giant"].

(** The own properties of the table. *)
Definition OCEAN_GROUPS : gmap string (list string) :=
  list_to_map
    [("Atlantic", ["Atlantic"; "Arctic"]);
     ("Pacific", ["Pacific"; "Indian"]);
     ("Arctic", ["Atlantic"; "Arctic"]);
     ("Indian", ["Pacific"; "Indian"]);
     ("Freshwater Americas", ["Freshwater Americas"]);
     ("Freshwater Europe/Asia", ["Freshwater Europe/Asia"])].

Inductive Match : Type := exact | close | wrong.

(** The [direction] property: not set, [null], ['up'] or ['down']. *)
Inductive Direction : Type := unset | null | up | down.

Record AttributeComparison : Type := mkAttributeComparison {
  value : string;
  match_ : Match;
  direction : Direction
}.

Record Comparison : Type := mkComparison {
  cmpHabitat : AttributeComparison;
  cmpSize : AttributeComparison;
  cmpFamily : AttributeComparison;
  cmpRegion : AttributeComparison
}.

Definition compareAttributes (guessed target : FishEntity)
    : Completion Comparison :=
  let habitat' :=
    {| value := habitat (attributes guessed);
       match_ := if bool_decide (habitat (attributes guessed) = habitat (attributes target))
                 then exact else wrong;
       direction := unset |} in
  let guessedSizeIndex := indexOf SIZE_ORDER (size (attributes guessed)) in
  let targetSizeIndex := indexOf SIZE_ORDER (size (attributes target)) in
  let sizeDiff := guessedSizeIndex - targetSizeIndex in
  let size' :=
    {| value := size (attributes guessed);
       match_ := if sizeDiff =? 0 then exact
                 else if Z.abs sizeDiff =? 1 then close else wrong;
       direction := if 0 <? sizeDiff then down
                    else if sizeDiff <? 0 then up else null |} in
  let family' :=
    {| value := family (attributes guessed);
       match_ := if bool_decide (family (attributes guessed) = family (attributes target))
                 then exact else wrong;
       direction := unset |} in
  let guessedOceanGroup :=
    orEmptyArray (getProperty OCEAN_GROUPS (region (attributes guessed))) in
  isCloseRegion ← callIncludes guessedOceanGroup (region (attributes target));
  let region' :=
    {| value := region (attributes guessed);
       match_ := if bool_decide (region (attributes guessed) = region (attributes target))
                 then exact
                 else if (isCloseRegion : bool) then close else wrong;
       direction := unset |} in
  mret (mkComparison habitat' size' family' region').

Record Guess : Type := mkGuess {
  fish : FishEntity;
  comparison : Comparison;
  correct : bool
}.

(** [calculateScore()], reading the module variable [guesses] and the
    state of [Hints]. *)
Definition calculateScore (guesses : list Guess) (hints : Hints.State) : Z :=
  let guessPenalty := Z.of_nat (length guesses) * GUESS_PENALTY in
  let hintPenalty := Hints.getHintPenalty hints in
  let score := BASE_SCORE - guessPenalty - hintPenalty in
  Z.max MIN_SCORE score.

(** *** The session *)

Record Stats : Type := mkStats {
  gamesPlayed : Z;
  wins : Z;
  currentStreak : Z;
  maxStreak : Z
}.

(** What [saveGameState] writes for a guess and for the session. The
    stored text is modelled by the value it encodes. *)
Record SavedGuess : Type := mkSavedGuess {
  fishId : string;
  savedComparison : Comparison;
  savedCorrect : bool
}.

Record SavedGame : Type := mkSavedGame {
  savedGuesses : list SavedGuess;
  savedHints : Hints.SavedState;
  savedGameOver : bool;
  savedWon : bool
}.

(** The browser's [localStorage]: the sessions under their keys
    [fishdle-<day>] and the item [fishdle-stats]. *)
Record Storage : Type := mkStorage {
  sessions : gmap string SavedGame;
  statsItem : option Stats
}.

(** The module variables, the variables of [Hints] and [Autocomplete],
    and the storage. The elements of the page other than the guess input
    are left out. *)
Record State : Type := mkState {
  fishDatabase : list FishEntity;
  targetFish : option FishEntity;
  gameNumber : Z;
  guesses : list Guess;
  gameOver : bool;
  won : bool;
  selectedFish : option FishEntity;
  stats : Stats;
  hints : Hints.State;
  autocomplete : Autocomplete.State;
  localStorage : Storage
}.

Definition withGuesses (v : list Guess) (st : State) : State :=
  mkState (fishDatabase st) (targetFish st) (gameNumber st) v (gameOver st)
          (won st) (selectedFish st) (stats st) (hints st) (autocomplete st)
          (localStorage st).
Definition withOutcome (over win : bool) (st : State) : State :=
  mkState (fishDatabase st) (targetFish st) (gameNumber st) (guesses st) over
          win (selectedFish st) (stats st) (hints st) (autocomplete st)
          (localStorage st).
Definition withSelectedFish (v : option FishEntity) (st : State) : State :=
  mkState (fishDatabase st) (targetFish st) (gameNumber st) (guesses st)
          (gameOver st) (won st) v (stats st) (hints st) (autocomplete st)
          (localStorage st).
Definition withStats (v : Stats) (st : State) : State :=
  mkState (fishDatabase st) (targetFish st) (gameNumber st) (guesses st)
          (gameOver st) (won st) (selectedFish st) v (hints st) (autocomplete st)
          (localStorage st).
Definition withHints (v : Hints.State) (st : State) : State :=
  mkState (fishDatabase st) (targetFish st) (gameNumber st) (guesses st)
          (gameOver st) (won st) (selectedFish st) (stats st) v (autocomplete st)
          (localStorage st).
Definition withAutocomplete (v : Autocomplete.State) (st : State) : State :=
  mkState (fishDatabase st) (targetFish st) (gameNumber st) (guesses st)
          (gameOver st) (won st) (selectedFish st) (stats st) (hints st) v
          (localStorage st).
Definition withLocalStorage (v : Storage) (st : State) : State :=
  mkState (fishDatabase st) (targetFish st) (gameNumber st) (guesses st)
          (gameOver st) (won st) (selectedFish st) (stats st) (hints st)
          (autocomplete st) v.

Definition defaultStats : Stats := mkStats 0 0 0 0.

(** [saveStats()]. *)
Definition saveStats (st : State) : State :=
  withLocalStorage (mkStorage (sessions (localStorage st)) (Some (stats st))) st.

(** [loadStats()]: the stored counters replace the defaults. *)
Definition loadStats (st : State) : State :=
  match statsItem (localStorage st) with
  | Some saved => withStats saved st
  | None => st
  end.

Definition sessionKey (todayKey : string) : string := "fishdle-" +:+ todayKey.

(** [saveGameState()], with [now] the value of [new Date()]. *)
Definition saveGameState (now : Date) (st : State) : State :=
  let todayKey := Daily.getTodayKey now in
  let state :=
    mkSavedGame
      (map (fun g => mkSavedGuess (id (fish g)) (comparison g) (correct g))
           (guesses st))
      (Hints.getState (hints st))
      (gameOver st) (won st) in
  withLocalStorage
    (mkStorage (<[sessionKey todayKey := state]> (sessions (localStorage st)))
               (statsItem (localStorage st)))
    st.

(** [loadGameState(todayKey)]. *)
Definition loadGameState (todayKey : string) (st : State) : option SavedGame :=
  sessions (localStorage st) !! sessionKey todayKey.

(** [handleWin()]. The result modal it shows reads the state and writes
    to the page only. *)
Definition handleWin (st : State) : State :=
  let st := withOutcome true true st in
  let s := stats st in
  let s := mkStats (gamesPlayed s + 1) (wins s + 1) (currentStreak s + 1)
                   (Z.max (maxStreak s) (currentStreak s + 1)) in
  let st := saveStats (withStats s st) in
  withAutocomplete (Autocomplete.disable (autocomplete st)) st.

(** Reading a property of [targetFish], [undefined] for an empty
    database. *)
Definition target (st : State) : Completion FishEntity :=
  match targetFish st with
  | Some fish => Return fish
  | None => Throw (TypeError "Cannot read properties of undefined")
  end.

(** [submitGuess()], with [now] the value of [new Date()]. The guess
    history and the score it redraws read the state and write to the
    page only. *)
Definition submitGuess (now : Date) (st : State) : Completion State :=
  if gameOver st then mret st
  else
    let inputValue := trim (Autocomplete.inputValue (autocomplete st)) in
    if bool_decide (inputValue = "") then mret st
    else
      let guessedFish :=
        match selectedFish st with
        | Some fish => Some fish
        | None =>
            find (fun f => bool_decide (toLowerCase (name f) = toLowerCase inputValue))
                 (fishDatabase st)
        end in
      match guessedFish with
      | None => mret st
      | Some guessedFish =>
          if existsb (fun g => bool_decide (id (fish g) = id guessedFish)) (guesses st)
          then
            mret (withSelectedFish None
                    (withAutocomplete (Autocomplete.clear (autocomplete st)) st))
          else
            targetFish ← target st;
            comparison ← compareAttributes guessedFish targetFish;
            let guess :=
              mkGuess guessedFish comparison
                      (bool_decide (id guessedFish = id targetFish)) in
            let st := withGuesses (guesses st ++ [guess]) st in
            let st :=
              withAutocomplete
                (Autocomplete.setGuessedFish (map (fun g => id (fish g)) (guesses st))
                                             (autocomplete st)) st in
            let st := withAutocomplete (Autocomplete.clear (autocomplete st)) st in
            let st := withSelectedFish None st in
            let st := if correct guess then handleWin st else st in
            mret (saveGameState now st)
      end.

(** [handleFishSelect(fish)]. *)
Definition handleFishSelect (now : Date) (fish : FishEntity) (st : State)
    : Completion State :=
  submitGuess now (withSelectedFish (Some fish) st).

(** [updateNameBlanks()] and [updateHintsDisplay()], as far as they can
    fail: they read the state of [Hints] and write to the page. *)
Definition updateNameBlanks (st : State) : Completion unit :=
  _ ← Hints.getNameDisplay (hints st);
  mret tt.

Definition updateHintsDisplay (st : State) : Completion unit :=
  _ ← (if gameOver st then mret true
       else can ← Hints.canRevealLetter (hints st); mret (negb can));
  _ ← (if gameOver st then mret true
       else can ← Hints.canRevealAttribute (hints st); mret (negb can));
  _ ← Hints.getRevealedAttributesList (hints st);
  mret tt.

(** [useLetterHint()] and [useAttributeHint()], with [rnd] the outcome
    of [Math.random()]. *)
Definition useLetterHint (rnd : RandomDraw) (now : Date) (st : State)
    : Completion State :=
  if gameOver st then mret st
  else
    can ← Hints.canRevealLetter (hints st);
    if negb can then mret st
    else
      result ← Hints.revealLetter rnd (hints st);
      let st := withHints result.2 st in
      match result.1 with
      | Some _ =>
          _ ← updateNameBlanks st;
          mret (saveGameState now st)
      | None => mret st
      end.

Definition useAttributeHint (rnd : RandomDraw) (now : Date) (st : State)
    : Completion State :=
  if gameOver st then mret st
  else
    can ← Hints.canRevealAttribute (hints st);
    if negb can then mret st
    else
      result ← Hints.revealAttribute rnd (hints st);
      let st := withHints result.2 st in
      match result.1 with
      | Some _ =>
          _ ← updateHintsDisplay st;
          mret (saveGameState now st)
      | None => mret st
      end.

(** [renderSilhouette()], as far as it can fail: without a target fish
    the fallback drawn in the [catch] block reads [fish.name]. *)
Definition renderSilhouette (st : State) : Completion unit :=
  _ ← target st;
  mret tt.

(** The guesses rebuilt by [restoreGameState]: the fish of a guess is
    looked up by id, and reading the id of a fish that was not found
    raises a [TypeError]. *)
Fixpoint restoreGuesses (database : list FishEntity) (saved : list SavedGuess)
    : Completion (list Guess) :=
  match saved with
  | [] => mret []
  | g :: rest =>
      match find (fun f => bool_decide (id f = fishId g)) database with
      | Some fish =>
          guesses ← restoreGuesses database rest;
          mret (mkGuess fish (savedComparison g) (savedCorrect g) :: guesses)
      | None => Throw (TypeError "Cannot read properties of undefined")
      end
  end.

(** [restoreGameState(savedState)]. The result modal of a finished
    game is shown by a timer, after the function has returned. *)
Definition restoreGameState (savedState : SavedGame) (st : State)
    : Completion State :=
  guesses ← restoreGuesses (fishDatabase st) (savedGuesses savedState);
  let st := withGuesses guesses st in
  let st :=
    withAutocomplete
      (Autocomplete.setGuessedFish (map (fun g => id (fish g)) guesses)
                                   (autocomplete st)) st in
  let st := withHints (Hints.loadState (savedHints savedState) (hints st)) st in
  let st := withOutcome (savedGameOver savedState) (savedWon savedState) st in
  _ ← renderSilhouette st;
  _ ← updateNameBlanks st;
  mret st.

(** The module before [init()]. *)
Definition initial (storage : Storage) : State :=
  mkState [] None 0 [] false false None defaultStats (Hints.mkState None [] [])
          (Autocomplete.init []) storage.

(** [init()], with [database] the outcome of [loadFishDatabase()] (the
    fetched list, or the empty list when the fetch failed), [now] the
    value of [new Date()] and [storage] the content of [localStorage]. *)
Definition init (database : list FishEntity) (now : Date) (storage : Storage)
    : Completion State :=
  let st := initial storage in
  let st :=
    mkState database (targetFish st) (gameNumber st) (guesses st) (gameOver st)
            (won st) (selectedFish st) (stats st) (hints st) (autocomplete st)
            (localStorage st) in
  let st := loadStats st in
  let todayKey := Daily.getTodayKey now in
  let savedGame := loadGameState todayKey st in
  let dailyData := Daily.getDailyFish database None now in
  let st :=
    mkState (fishDatabase st) (Daily.fish dailyData) (Daily.gameNumber dailyData)
            (guesses st) (gameOver st) (won st) (selectedFish st) (stats st)
            (Hints.init (Daily.fish dailyData)) (Autocomplete.init database)
            (localStorage st) in
  st ← match savedGame with
       | Some saved => restoreGameState saved st
       | None =>
           _ ← renderSilhouette st;
           _ ← updateNameBlanks st;
           mret st
       end;
  _ ← updateHintsDisplay st;
  mret (if gameOver st
        then withAutocomplete (Autocomplete.disable (autocomplete st)) st
        else st).

End Game.

(** ** Module [Sharing] *)

Definition newline : string := String (ascii_of_nat 10) EmptyString.
Definition doubleQuote : string := String (ascii_of_nat 34) EmptyString.

Module Sharing.

(** The table [EMOJI]. Its entries lie outside the code units a
    [string] holds, so the functions take the table as an argument. *)
Record Emoji : Type := mkEmoji {
  correct : string;
  close : string;
  wrong : string;
  win : string;
  fish : string;
  letter : string;
  chart : string
}.

Record GameResult : Type := mkGameResult {
  gameNumber : Z;
  score : Z;
  guessHistory : list Game.Guess;
  hintCounts : Hints.HintCounts;
  won : bool
}.

Section WithEmoji.
Variable EMOJI : Emoji.

Definition emojiOf (comparison : Game.AttributeComparison) : string :=
  match Game.match_ comparison with
  | Game.exact => correct EMOJI
  | Game.close => close EMOJI
  | _ => wrong EMOJI
  end.

Definition generateGuessRow (guess : Game.Guess) : string :=
  let comparison := Game.comparison guess in
  String.concat ""
    (map emojiOf [Game.cmpHabitat comparison; Game.cmpSize comparison;
                  Game.cmpFamily comparison; Game.cmpRegion comparison]).

(** The loop over [guessHistory] of [generateShareText], from [index]
    on, appending to [text]. *)
Fixpoint textRowsFrom (count : nat) (won : bool) (index : nat)
    (history : list Game.Guess) (text : string) : string :=
  match history with
  | [] => text
  | guess :: rest =>
      let isLast := bool_decide (index = (count - 1)%nat) in
      let row := generateGuessRow guess in
      let text :=
        if isLast && won then text +:+ row +:+ " " +:+ win EMOJI +:+ newline
        else text +:+ row +:+ newline in
      textRowsFrom count won (S index) rest text
  end.

Definition generateShareText (gameResult : GameResult) : string :=
  let text := fish EMOJI +:+ " Fishdle #" +:+ pretty (gameNumber gameResult)
              +:+ " " +:+ fish EMOJI +:+ newline in
  let text := text +:+ "Score: " +:+ pretty (score gameResult) +:+ "/100"
              +:+ newline +:+ newline in
  let history := guessHistory gameResult in
  let text := textRowsFrom (length history) (won gameResult) 0 history text in
  let letters := Hints.hintLetters (hintCounts gameResult) in
  let attributes := Hints.hintAttributes (hintCounts gameResult) in
  let text :=
    if bool_decide (0 < letters)%nat || bool_decide (0 < attributes)%nat then
      let text := text +:+ newline in
      let text :=
        if bool_decide (0 < letters)%nat
        then text +:+ letter EMOJI +:+ " x" +:+ pretty letters +:+ " " else text in
      let text :=
        if bool_decide (0 < attributes)%nat
        then text +:+ chart EMOJI +:+ " x" +:+ pretty attributes else text in
      text +:+ newline
    else text in
  text +:+ newline +:+ "https://connorbach.github.io/fishdle".

(** The loop over [guessHistory] of [generateShareDisplay]. *)
Fixpoint displayRowsFrom (count : nat) (won : bool) (index : nat)
    (history : list Game.Guess) (html : string) : string :=
  match history with
  | [] => html
  | guess :: rest =>
      let isLast := bool_decide (index = (count - 1)%nat) in
      let row := generateGuessRow guess in
      let html :=
        if isLast && won then html +:+ "<div>" +:+ row +:+ " " +:+ win EMOJI +:+ "</div>"
        else html +:+ "<div>" +:+ row +:+ "</div>" in
      displayRowsFrom count won (S index) rest html
  end.

Definition generateShareDisplay (gameResult : GameResult) : string :=
  let html := "<div class=" +:+ doubleQuote +:+ "share-grid" +:+ doubleQuote +:+ ">" in
  let history := guessHistory gameResult in
  let html := displayRowsFrom (length history) (won gameResult) 0 history html in
  html +:+ "</div>".

End WithEmoji.

End Sharing.

(** The [gameResult] object that [showResultModal] and [handleShare]
    build. *)
Definition gameResultOf (st : Game.State) : Sharing.GameResult :=
  Sharing.mkGameResult (Game.gameNumber st)
    (Game.calculateScore (Game.guesses st) (Game.hints st))
    (Game.guesses st) (Hints.getHintCounts (Game.hints st)) (Game.won st).

(** ** Vocabulary of the statements *)

(** Two regions of different oceans that the table lists as neighbours. *)
Definition mutuallyClose (r1 r2 : string) : Prop :=
  (r1 = "Atlantic" /\ r2 = "Arctic") \/ (r1 = "Arctic" /\ r2 = "Atlantic") \/
  (r1 = "Pacific" /\ r2 = "Indian") \/ (r1 = "Indian" /\ r2 = "Pacific").

(** The date [getDailyFish] works with: its argument, or today's date
    when the argument is omitted. *)
Definition effectiveDate (date : option Date) (now : Date) : Date :=
  match date with Some d => d | None => Daily.getTodayUTC now end.

(** [p] indexes a character of [name] other than a space. *)
Definition isLetterPosition (name : string) (p : nat) : Prop :=
  (p < String.length name)%nat /\ String.get p name <> Some " "%char.

(** The invariant of a ledger initialised for [fish]. *)
Definition ledgerInvariant (fish : FishEntity) (st : Hints.State) : Prop :=
  Hints.targetFish st = Some fish /\
  NoDup (Hints.revealedLetters st) /\
  StronglySorted lt (Hints.revealedLetters st) /\
  Forall (isLetterPosition (name fish)) (Hints.revealedLetters st) /\
  NoDup (Hints.revealedAttributes st).

(** A run of calls of one reveal operation, one random draw per call,
    collecting the results. *)
Fixpoint callSequence {R : Type}
    (op : RandomDraw -> Hints.State -> Completion (option R * Hints.State))
    (rnds : list RandomDraw) (st : Hints.State)
    : Completion (list (option R) * Hints.State) :=
  match rnds with
  | [] => mret ([], st)
  | rnd :: rest =>
      r ← op rnd st;
      rs ← callSequence op rest r.2;
      mret (r.1 :: rs.1, rs.2)
  end.

(** ** Sample records *)

Definition fishOf (nm hab sz fam reg : string) : FishEntity :=
  mkFish nm nm "" (mkAttributes hab sz fam reg) "".

Definition clownfish : FishEntity :=
  fishOf "Clownfish" "Reef" "small" "Pomacentridae" "Pacific".
Definition goldfish : FishEntity :=
  fishOf "Goldfish" "Freshwater" "small" "Cyprinidae" "Freshwater Americas".
Definition tuna : FishEntity :=
  fishOf "Bluefin Tuna" "Open Ocean" "large" "Scombridae" "Atlantic".
Definition cod : FishEntity :=
  fishOf "Atlantic Cod" "Open Ocean" "large" "Gadidae" "Atlantic".
Definition arcticChar : FishEntity :=
  fishOf "Arctic Char" "Coastal" "medium" "Salmonidae" "Arctic".

(** A record whose size is not on the scale and whose region is not a
    key of the adjacency table. *)
Definition kraken : FishEntity :=
  fishOf "Kraken" "Deep Sea" "colossal" "Architeuthidae" "Mediterranean".

(** A record whose region names a member that every object inherits
    from [Object.prototype]. *)
Definition lanternfish : FishEntity :=
  fishOf "Lanternfish" "Deep Sea" "small" "Myctophidae" "constructor".

Definition oneWrongGuess : list Game.Guess :=
  match Game.compareAttributes goldfish clownfish with
  | Return comparison => [Game.mkGuess goldfish comparison false]
  | Throw _ => []
  end.

Definition newYear2024 : Date := mkDate (DateUTC 2024 0 1) 0.

(** The draw 0.625. *)
Definition fiveEighths : RandomDraw := mkDraw (mkDyadic 5 3) I.

(** A ledger for the clownfish in which every attribute is revealed. *)
Definition allAttributesRevealed : Hints.State :=
  Hints.mkState (Some clownfish) [2%nat; 5%nat]
                ["size"; "region"; "habitat"; "family"].

(** The ledger invariant, together with: every revealed attribute is an
    attribute name of the fish. *)
Definition fullInvariant (fish : FishEntity) (st : Hints.State) : Prop :=
  ledgerInvariant fish st /\
  Hints.revealedAttributes st ⊆ attributeKeys (attributes fish).

(** The cells of a name display that show a letter. *)
Definition showsLetter (cell : Hints.NameCell) : bool :=
  match cell with
  | Hints.revealed _ => true
  | _ => false
  end.

(** The ids of the fish guessed so far. *)
Definition guessedIds (st : Game.State) : list string :=
  map (fun g => id (Game.fish g)) (Game.guesses st).

(** The invariant of a session whose target is [target]: the module
    [Hints] was initialised for the same target; no fish is guessed
    twice, and [Autocomplete] knows the guessed ids; every guess carries
    its comparison with the target and is marked correct exactly when it
    has the target's id; the session is over exactly when it is won,
    which is exactly when the last guess is correct; no earlier guess is
    correct. *)
Definition sessionInvariant (target : FishEntity) (st : Game.State) : Prop :=
  Game.targetFish st = Some target /\
  Hints.targetFish (Game.hints st) = Some target /\
  NoDup (guessedIds st) /\
  Autocomplete.guessedFish (Game.autocomplete st) = guessedIds st /\
  Forall (fun g =>
            Game.compareAttributes (Game.fish g) target = Return (Game.comparison g) /\
            Game.correct g = bool_decide (id (Game.fish g) = id target))
         (Game.guesses st) /\
  Game.gameOver st = Game.won st /\
  (Game.won st = true <->
   exists g, last (Game.guesses st) = Some g /\ Game.correct g = true) /\
  (forall (i : nat) g, Game.guesses st !! i = Some g ->
     (S i < length (Game.guesses st))%nat -> Game.correct g = false).

(** What the user does on the page, each with the handler it reaches:
    typing into the guess input ([Autocomplete.handleInput]), a key
    pressed in it ([Autocomplete.handleKeydown], and [handleFishSelect]
    when an item is selected), a click on an item of the list
    ([Autocomplete.selectItem] and [handleFishSelect]), the submit button
    ([submitGuess]) and the two hint buttons. The [keypress] listener of
    the input, which calls [submitGuess] on Enter, is the action
    [Submit]; giving the input the focus again is, for a text that is
    not blank, [TypeText] with the text it holds. *)
Inductive Action : Type :=
  | TypeText (text : string)
  | PressKey (key : Autocomplete.Key)
  | ClickItem (index : nat)
  | Submit
  | LetterHint (rnd : RandomDraw)
  | AttributeHint (rnd : RandomDraw).

Definition typeText (text : string) (ac : Autocomplete.State) : Autocomplete.State :=
  Autocomplete.handleInput
    (Autocomplete.mkState (Autocomplete.fishDatabase ac) text
       (Autocomplete.inputDisabled ac) (Autocomplete.items ac)
       (Autocomplete.currentFocus ac) (Autocomplete.guessedFish ac)).

(** One action, at the time [now]. *)
Definition step (now : Date) (action : Action) (st : Game.State)
    : Completion Game.State :=
  match action with
  | TypeText text =>
      mret (Game.withAutocomplete (typeText text (Game.autocomplete st)) st)
  | PressKey key =>
      let result := Autocomplete.handleKeydown key (Game.autocomplete st) in
      let st := Game.withAutocomplete result.1 st in
      match result.2 with
      | Some fish => Game.handleFishSelect now fish st
      | None => mret st
      end
  | ClickItem index =>
      match Autocomplete.items (Game.autocomplete st) !! index with
      | Some fish =>
          Game.handleFishSelect now fish
            (Game.withAutocomplete
               (Autocomplete.selectItem fish (Game.autocomplete st)) st)
      | None => mret st
      end
  | Submit => Game.submitGuess now st
  | LetterHint rnd => Game.useLetterHint rnd now st
  | AttributeHint rnd => Game.useAttributeHint rnd now st
  end.

(** A sequence of actions, each with its time. *)
Fixpoint run (actions : list (Date * Action)) (st : Game.State)
    : Completion Game.State :=
  match actions with
  | [] => mret st
  | (now, action) :: rest =>
      st ← step now action st;
      run rest st
  end.

(** What [saveGameState] stores for a session. *)
Definition savedOf (st : Game.State) : Game.SavedGame :=
  Game.mkSavedGame
    (map (fun g => Game.mkSavedGuess (id (Game.fish g)) (Game.comparison g)
                                     (Game.correct g))
         (Game.guesses st))
    (Hints.getState (Game.hints st))
    (Game.gameOver st) (Game.won st).

(** The session after a new guess of [f], with the comparison [c], is
    recorded, before the win is handled and the session is saved. *)
Definition acceptedGuess (target f : FishEntity) (c : Game.Comparison)
    (st : Game.State) : Game.State :=
  let guess := Game.mkGuess f c (bool_decide (id f = id target)) in
  Game.withSelectedFish None
    (Game.withAutocomplete
       (Autocomplete.clear
          (Autocomplete.setGuessedFish
             (map (fun g => id (Game.fish g)) (Game.guesses st ++ [guess]))
             (Game.autocomplete st)))
       (Game.withGuesses (Game.guesses st ++ [guess]) st)).

(** Two sessions that differ at most in the selected fish and in what
    [Autocomplete] shows. *)
Definition sameSession (st1 st2 : Game.State) : Prop :=
  Game.fishDatabase st1 = Game.fishDatabase st2 /\
  Game.targetFish st1 = Game.targetFish st2 /\
  Game.gameNumber st1 = Game.gameNumber st2 /\
  Game.guesses st1 = Game.guesses st2 /\
  Game.gameOver st1 = Game.gameOver st2 /\
  Game.won st1 = Game.won st2 /\
  Game.stats st1 = Game.stats st2 /\
  Game.hints st1 = Game.hints st2 /\
  Autocomplete.guessedFish (Game.autocomplete st1)
    = Autocomplete.guessedFish (Game.autocomplete st2) /\
  Autocomplete.fishDatabase (Game.autocomplete st1)
    = Autocomplete.fishDatabase (Game.autocomplete st2) /\
  Game.localStorage st1 = Game.localStorage st2.

(** The counters after a win. *)
Definition winStats (s : Game.Stats) : Game.Stats :=
  Game.mkStats (Game.gamesPlayed s + 1) (Game.wins s + 1)
               (Game.currentStreak s + 1)
               (Z.max (Game.maxStreak s) (Game.currentStreak s + 1)).

(** How a later state of a session relates to an earlier one: guesses
    and hints are only added, a session that was won stays won, and the
    counters are those of the earlier state, updated once if the session
    was won in between. *)
Definition progresses (st st' : Game.State) : Prop :=
  Game.fishDatabase st' = Game.fishDatabase st /\
  Game.guesses st `prefix_of` Game.guesses st' /\
  Hints.revealedLetters (Game.hints st) ⊆ Hints.revealedLetters (Game.hints st') /\
  Hints.revealedAttributes (Game.hints st) ⊆ Hints.revealedAttributes (Game.hints st') /\
  (length (Hints.revealedLetters (Game.hints st))
   <= length (Hints.revealedLetters (Game.hints st')))%nat /\
  (length (Hints.revealedAttributes (Game.hints st))
   <= length (Hints.revealedAttributes (Game.hints st')))%nat /\
  (Game.won st = true -> Game.won st' = true) /\
  Game.stats st' =
    (if Game.won st' && negb (Game.won st) then winStats (Game.stats st)
     else Game.stats st).

(** A database of three fish and the session [init] starts from it on
    2024-01-01, whose target is the clownfish. *)
Definition sampleDatabase : list FishEntity := [goldfish; clownfish; tuna].

Definition sampleSession : Game.State :=
  Game.mkState sampleDatabase (Some clownfish) 1 [] false false None
    Game.defaultStats (Hints.init (Some clownfish))
    (Autocomplete.init sampleDatabase) (Game.mkStorage ∅ None).

(** Typing a wrong guess, then a letter hint, then the right name in
    another letter case and with spaces around it. *)
Definition sampleActions : list (Date * Action) :=
  [(newYear2024, TypeText "goldfish"); (newYear2024, Submit);
   (newYear2024, LetterHint fiveEighths);
   (newYear2024, TypeText " ClownFISH "); (newYear2024, Submit)].

(** The storage holds the session under the key of the day [todayKey];
    a day without an entry is a session in which nothing was done. *)
Definition persisted (todayKey : string) (st : Game.State) : Prop :=
  match Game.loadGameState todayKey st with
  | Some saved => saved = savedOf st
  | None =>
      Game.guesses st = [] /\
      Hints.revealedLetters (Game.hints st) = [] /\
      Hints.revealedAttributes (Game.hints st) = [] /\
      Game.gameOver st = false /\ Game.won st = false
  end.

(** The counters are the stored ones, or the defaults when none is
    stored. *)
Definition statsPersisted (st : Game.State) : Prop :=
  Game.stats st = default Game.defaultStats (Game.statsItem (Game.localStorage st)).

(** The session [init] sets up before it looks at the stored session of
    the day. *)
Definition freshSession (database : list FishEntity) (now : Date)
    (storage : Game.Storage) : Game.State :=
  let dailyData := Daily.getDailyFish database None now in
  Game.mkState database (Daily.fish dailyData) (Daily.gameNumber dailyData)
    [] false false None
    (default Game.defaultStats (Game.statsItem storage))
    (Hints.init (Daily.fish dailyData)) (Autocomplete.init database) storage.

(** Every fish the session handles is a fish of the database, which is
    also the database of [Autocomplete]. *)
Definition fromDatabase (st : Game.State) : Prop :=
  Autocomplete.fishDatabase (Game.autocomplete st) = Game.fishDatabase st /\
  Forall (fun f => f ∈ Game.fishDatabase st) (Autocomplete.items (Game.autocomplete st)) /\
  (forall f, Game.selectedFish st = Some f -> f ∈ Game.fishDatabase st) /\
  Forall (fun g => Game.fish g ∈ Game.fishDatabase st) (Game.guesses st).

(** Two times of the same UTC day, on the same host. *)
Definition sameDay (a b : Date) : Prop :=
  getTime a / msPerDay = getTime b / msPerDay /\ hostTZA a = hostTZA b.

(** Noon UTC of 2024-03-31 on a host whose local time is one hour behind
    UTC until 01:00 UTC of that day, when the clocks are put forward,
    and UTC from then on. *)
Definition clockChangeNoon : Date :=
  dateOn (DateUTC 2024 2 31 + 12 * 3600000)
         (fun t => if t <? DateUTC 2024 2 31 + 3600000 then -3600000 else 0).

(** The region of every fish is a name that no object inherits from
    [Object.prototype]. *)
Definition plainRegions (database : list FishEntity) : Prop :=
  Forall (fun f => region (attributes f) ∉ OBJECT_PROTOTYPE) database.

(** The arrow of the size entry seen from the other fish. *)
Definition opposite (d : Game.Direction) : Game.Direction :=
  match d with
  | Game.up => Game.down
  | Game.down => Game.up
  | other => other
  end.

(** The four match values of a guess, in the order of a row. *)
Definition guessMatches (g : Game.Guess) : list Game.Match :=
  map Game.match_
    [Game.cmpHabitat (Game.comparison g); Game.cmpSize (Game.comparison g);
     Game.cmpFamily (Game.comparison g); Game.cmpRegion (Game.comparison g)].

(** * Properties *)

(** ** Attribute comparison *)

Section Comparison.
Import Game.

Implicit Types (guessed target : FishEntity) (i j : nat).

(** [indexOf] finds the position of every entry of the size scale. *)
Lemma SIZE_ORDER_indexOf i s :
  SIZE_ORDER !! i = Some s -> indexOf SIZE_ORDER s = Z.of_nat i.
Proof.
  intros H.
  do 5 (destruct i as [|i]; [injection H as <-; reflexivity|]).
  discriminate.
Qed.

Lemma SIZE_ORDER_cases s :
  s ∈ SIZE_ORDER ->
  s = "tiny" \/ s = "small" \/ s = "medium" \/ s = "large" \/ s = "giant".
Proof.
  unfold SIZE_ORDER. rewrite !elem_of_cons, elem_of_nil. tauto.
Qed.

(** A value that is not on the scale has index -1. *)
Lemma indexOfFrom_absent k s l : s ∉ l -> indexOfFrom k s l = -1.
Proof.
  revert k. induction l as [|y l IH]; intros k Hs; [reflexivity|].
  simpl. apply not_elem_of_cons in Hs as [Hne Hl].
  rewrite bool_decide_eq_false_2 by congruence. now apply IH.
Qed.

Lemma indexOf_absent s l : s ∉ l -> indexOf l s = -1.
Proof. apply indexOfFrom_absent. Qed.

(** What the table gives for a region, after [|| []]. *)
Lemma OCEAN_GROUPS_plain r :
  r ∉ OBJECT_PROTOTYPE ->
  orEmptyArray (getProperty OCEAN_GROUPS r) = array (default [] (OCEAN_GROUPS !! r)).
Proof.
  intros Hplain. unfold getProperty, includes.
  destruct (OCEAN_GROUPS !! r); [reflexivity|].
  now rewrite bool_decide_eq_false_2.
Qed.

Lemma OCEAN_GROUPS_inherited r :
  r ∈ OBJECT_PROTOTYPE ->
  orEmptyArray (getProperty OCEAN_GROUPS r) = inheritedMember.
Proof.
  intros Hin. unfold getProperty, includes.
  assert (Hnone : OCEAN_GROUPS !! r = None).
  { unfold OBJECT_PROTOTYPE in Hin. rewrite !elem_of_cons, elem_of_nil in Hin.
    repeat (destruct Hin as [->|Hin]; [reflexivity|]). destruct Hin. }
  rewrite Hnone. now rewrite bool_decide_eq_true_2.
Qed.

(** The call returns unless the guessed region names a member inherited
    from [Object.prototype]; then it raises a [TypeError]. *)
Lemma compareAttributes_returns guessed target :
  region (attributes guessed) ∉ OBJECT_PROTOTYPE ->
  exists c, compareAttributes guessed target = Return c.
Proof.
  intros Hplain. unfold compareAttributes. cbv zeta.
  rewrite (OCEAN_GROUPS_plain _ Hplain). eexists. reflexivity.
Qed.

Lemma compareAttributes_throws guessed target :
  region (attributes guessed) ∈ OBJECT_PROTOTYPE ->
  exists msg, compareAttributes guessed target = Throw (TypeError msg).
Proof.
  intros Hin. unfold compareAttributes. cbv zeta.
  rewrite (OCEAN_GROUPS_inherited _ Hin). eexists. reflexivity.
Qed.

Lemma compareAttributes_returned guessed target c :
  compareAttributes guessed target = Return c ->
  region (attributes guessed) ∉ OBJECT_PROTOTYPE.
Proof.
  intros Hc Hin. destruct (compareAttributes_throws guessed target Hin) as [msg E].
  congruence.
Qed.

(** The size entry only depends on the two indices. *)
Lemma cmpSize_indices guessed target c a b :
  compareAttributes guessed target = Return c ->
  indexOf SIZE_ORDER (size (attributes guessed)) = a ->
  indexOf SIZE_ORDER (size (attributes target)) = b ->
  cmpSize c =
    {| value := size (attributes guessed);
       match_ := if a - b =? 0 then exact
                 else if Z.abs (a - b) =? 1 then close else wrong;
       direction := if 0 <? a - b then down
                    else if a - b <? 0 then up else null |}.
Proof.
  intros Hc <- <-. unfold compareAttributes in Hc. cbv zeta in Hc.
  destruct (callIncludes _ _); [|discriminate].
  injection Hc as <-. reflexivity.
Qed.

(** The rows of the adjacency table. *)
Lemma OCEAN_GROUPS_rows r grp :
  OCEAN_GROUPS !! r = Some grp ->
  (r = "Atlantic" /\ grp = ["Atlantic"; "Arctic"]) \/
  (r = "Pacific" /\ grp = ["Pacific"; "Indian"]) \/
  (r = "Arctic" /\ grp = ["Atlantic"; "Arctic"]) \/
  (r = "Indian" /\ grp = ["Pacific"; "Indian"]) \/
  (r = "Freshwater Americas" /\ grp = ["Freshwater Americas"]) \/
  (r = "Freshwater Europe/Asia" /\ grp = ["Freshwater Europe/Asia"]).
Proof.
  intros H. apply elem_of_list_to_map_2 in H.
  repeat (apply elem_of_cons in H as [H|H]; [injection H as Hr Hg; tauto|]).
  now apply elem_of_nil in H.
Qed.

(** Every group only lists regions of the table. *)
Lemma OCEAN_GROUPS_closed r grp r' :
  OCEAN_GROUPS !! r = Some grp -> r' ∈ grp -> is_Some (OCEAN_GROUPS !! r').
Proof.
  intros H Hin.
  destruct (OCEAN_GROUPS_rows _ _ H) as [[-> ->]|[[-> ->]|[[-> ->]|[[-> ->]|[[-> ->]|[-> ->]]]]]];
    repeat (apply elem_of_cons in Hin as [->|Hin]; [eexists; reflexivity|]);
    now apply elem_of_nil in Hin.
Qed.

(** The region entry of a returned comparison: the group is the array
    of the guessed region, or the empty array when the table has none. *)
Lemma cmpRegion_unfold guessed target c :
  compareAttributes guessed target = Return c ->
  match_ (cmpRegion c) =
    if bool_decide (region (attributes guessed) = region (attributes target))
    then exact
    else if includes (default [] (OCEAN_GROUPS !! region (attributes guessed)))
                     (region (attributes target))
         then close else wrong.
Proof.
  intros Hc. pose proof (compareAttributes_returned _ _ _ Hc) as Hplain.
  unfold compareAttributes in Hc. cbv zeta in Hc.
  rewrite (OCEAN_GROUPS_plain _ Hplain) in Hc.
  injection Hc as <-. reflexivity.
Qed.

(** The entries of habitat and family. *)
Lemma cmpOthers guessed target c :
  compareAttributes guessed target = Return c ->
  cmpHabitat c =
    {| value := habitat (attributes guessed);
       match_ := if bool_decide (habitat (attributes guessed)
                                 = habitat (attributes target))
                 then exact else wrong;
       direction := unset |} /\
  cmpFamily c =
    {| value := family (attributes guessed);
       match_ := if bool_decide (family (attributes guessed)
                                 = family (attributes target))
                 then exact else wrong;
       direction := unset |} /\
  value (cmpRegion c) = region (attributes guessed) /\
  direction (cmpRegion c) = unset.
Proof.
  intros Hc. unfold compareAttributes in Hc. cbv zeta in Hc.
  destruct (callIncludes _ _); [|discriminate].
  injection Hc as <-. repeat split; reflexivity.
Qed.

End Comparison.

(** C1. For a guessed and a target fish whose sizes stand at positions
    [i] and [j] of the scale tiny, small, medium, large, giant, the size
    entry of the comparison that [compareAttributes] returns is decided
    by [d = i - j]: the match is exact when [d = 0], close when
    [|d| = 1] and wrong otherwise; the direction is down when [d > 0],
    up when [d < 0] and null when [d = 0]. The call returns a comparison
    unless the guessed region names a member inherited from
    [Object.prototype]. *)
Theorem compareAttributes_size_scale (guessed target : FishEntity) (i j : nat) :
  Game.SIZE_ORDER !! i = Some (size (attributes guessed)) ->
  Game.SIZE_ORDER !! j = Some (size (attributes target)) ->
  let d := Z.of_nat i - Z.of_nat j in
  (region (attributes guessed) ∉ OBJECT_PROTOTYPE ->
   exists c, Game.compareAttributes guessed target = Return c) /\
  forall c, Game.compareAttributes guessed target = Return c ->
    let entry := Game.cmpSize c in
    Game.value entry = size (attributes guessed) /\
    (d = 0 -> Game.match_ entry = Game.exact /\ Game.direction entry = Game.null) /\
    (Z.abs d = 1 -> Game.match_ entry = Game.close) /\
    (1 < Z.abs d -> Game.match_ entry = Game.wrong) /\
    (0 < d -> Game.direction entry = Game.down) /\
    (d < 0 -> Game.direction entry = Game.up).
Proof.
  intros Hi Hj d. split; [apply compareAttributes_returns|].
  intros c Hc entry. subst entry.
  rewrite (cmpSize_indices guessed target c _ _ Hc
             (SIZE_ORDER_indexOf _ _ Hi) (SIZE_ORDER_indexOf _ _ Hj)).
  fold d. simpl.
  split; [reflexivity|].
  split; [intros Hd; rewrite Hd; split; reflexivity|].
  split; [|split; [|split]]; intros Hd.
  - destruct (Z.eqb_spec d 0) as [E|_]; [rewrite E in Hd; discriminate|].
    now rewrite Hd.
  - destruct (Z.eqb_spec d 0) as [E|_]; [rewrite E in Hd; discriminate|].
    destruct (Z.eqb_spec (Z.abs d) 1); [lia|reflexivity].
  - destruct (Z.ltb_spec 0 d); [reflexivity|lia].
  - destruct (Z.ltb_spec 0 d); [lia|].
    destruct (Z.ltb_spec d 0); [reflexivity|lia].
Qed.

Lemma compareAttributes_size_scale_witness :
  Game.SIZE_ORDER !! 3%nat = Some (size (attributes tuna)) /\
  Game.SIZE_ORDER !! 1%nat = Some (size (attributes clownfish)) /\
  exists c, Game.compareAttributes tuna clownfish = Return c /\
            Game.match_ (Game.cmpSize c) = Game.wrong /\
            Game.direction (Game.cmpSize c) = Game.down.
Proof.
  split; [reflexivity|]. split; [reflexivity|].
  destruct (compareAttributes_size_scale tuna clownfish 3 1 eq_refl eq_refl)
    as [Hreturns Hentry].
  destruct Hreturns as [c Hc].
  { unfold OBJECT_PROTOTYPE. rewrite !elem_of_cons, elem_of_nil.
    intuition discriminate. }
  exists c. split; [exact Hc|].
  destruct (Hentry c Hc) as (_ & _ & _ & Hwrong & Hdown & _).
  split; [apply Hwrong | apply Hdown]; reflexivity.
Defined.

(** C2. For a guessed and a target fish whose regions are keys of the
    adjacency table, [compareAttributes] returns a comparison whose
    region entry is exact when the two strings are equal, close when
    they differ and the group of the guessed region lists the target
    region, and wrong otherwise. The close pairs are exactly
    Atlantic/Arctic and Pacific/Indian, in either order, so each
    Freshwater region is close to no other region; Atlantic against
    Arctic is close and Freshwater Americas against Pacific is wrong. *)
Theorem compareAttributes_region_table (guessed target : FishEntity)
    (grp : list string) :
  Game.OCEAN_GROUPS !! region (attributes guessed) = Some grp ->
  is_Some (Game.OCEAN_GROUPS !! region (attributes target)) ->
  let rg := region (attributes guessed) in
  let rt := region (attributes target) in
  exists c,
    Game.compareAttributes guessed target = Return c /\
    let m := Game.match_ (Game.cmpRegion c) in
    (rg = rt -> m = Game.exact) /\
    (rg <> rt -> rt ∈ grp -> m = Game.close) /\
    (rg <> rt -> rt ∉ grp -> m = Game.wrong) /\
    (m = Game.close <-> mutuallyClose rg rt) /\
    (rg = "Atlantic" -> rt = "Arctic" -> m = Game.close) /\
    (rg = "Freshwater Americas" -> rt = "Pacific" -> m = Game.wrong).
Proof.
  intros Hg [grp' Ht] rg rt.
  assert (Hreturns : exists c, Game.compareAttributes guessed target = Return c).
  { unfold Game.compareAttributes, getProperty. cbv zeta. rewrite Hg.
    eexists. reflexivity. }
  destruct Hreturns as [c Hc]. exists c. split; [exact Hc|].
  intros m. subst m.
  rewrite (cmpRegion_unfold guessed target c Hc).
  fold rg rt. fold rg in Hg. fold rt in Ht.
  rewrite Hg. simpl. clear Hc c. clearbody rg rt. unfold includes, mutuallyClose.
  destruct (OCEAN_GROUPS_rows _ _ Hg)
    as [[-> ->]|[[-> ->]|[[-> ->]|[[-> ->]|[[-> ->]|[-> ->]]]]]];
  destruct (OCEAN_GROUPS_rows _ _ Ht)
    as [[-> _]|[[-> _]|[[-> _]|[[-> _]|[[-> _]|[-> _]]]]]];
  clear Hg Ht;
  (split; [intros E; first [discriminate E | reflexivity]|]);
  (split; [intros Hne Hin; first [now destruct Hne | reflexivity
             | exfalso; revert Hin; rewrite !elem_of_cons, elem_of_nil;
               intuition discriminate]|]);
  (split; [intros Hne Hin; first [now destruct Hne | reflexivity
             | exfalso; apply Hin; rewrite !elem_of_cons; tauto]|]);
  (split; [split; [intros E; first [discriminate E | tauto]
                  | intros E; first [reflexivity
                                    | exfalso; intuition discriminate]]|]);
  (split; intros E1 E2; first [discriminate E1 | discriminate E2 | reflexivity]).
Qed.

Lemma compareAttributes_region_table_witness :
  Game.OCEAN_GROUPS !! region (attributes cod) = Some ["Atlantic"; "Arctic"] /\
  is_Some (Game.OCEAN_GROUPS !! region (attributes arcticChar)) /\
  exists c, Game.compareAttributes cod arcticChar = Return c /\
            Game.match_ (Game.cmpRegion c) = Game.close.
Proof.
  split; [reflexivity|]. split; [eexists; reflexivity|].
  destruct (compareAttributes_region_table cod arcticChar ["Atlantic"; "Arctic"]
              eq_refl (ex_intro _ _ eq_refl))
    as (c & Hc & _ & _ & _ & _ & Hclose & _).
  exists c. split; [exact Hc|]. apply Hclose; reflexivity.
Defined.

(** C4, refuted as stated: for a guessed fish whose size is off the
    scale and whose region is missing from the table, [compareAttributes]
    raises nothing and returns a full comparison. *)
Lemma compareAttributes_invalid_returns :
  (size (attributes kraken) ∉ Game.SIZE_ORDER) /\
  Game.OCEAN_GROUPS !! region (attributes kraken) = None /\
  Game.compareAttributes kraken clownfish =
    Return
      (Game.mkComparison
         (Game.mkAttributeComparison "Deep Sea" Game.wrong Game.unset)
         (Game.mkAttributeComparison "colossal" Game.wrong Game.up)
         (Game.mkAttributeComparison "Architeuthidae" Game.wrong Game.unset)
         (Game.mkAttributeComparison "Mediterranean" Game.wrong Game.unset)).
Proof.
  split; [|split; reflexivity].
  unfold Game.SIZE_ORDER. rewrite !elem_of_cons, elem_of_nil.
  intuition discriminate.
Qed.

(** C4, amended. [compareAttributes] checks no attribute value and has
    no error of its own. It fails in one case only: when the guessed
    region names a member inherited from [Object.prototype], the table
    gives that member instead of an array, and calling its [includes]
    raises a [TypeError], whatever the other values are. For every other
    input it returns a comparison, in which a size that is not on the
    scale takes index -1 in the difference rule: two such sizes compare
    as exact with direction null, and against a target at position [j]
    the entry is close when [j = 0], wrong otherwise, with direction up
    (down, and position [i], when it is the target that is off the
    scale); and when the guessed or the target region is not a key of
    the table, the region entry is exact for equal strings and wrong
    otherwise. *)
Theorem compareAttributes_outside_domain (guessed target : FishEntity) :
  let sg := size (attributes guessed) in
  let st := size (attributes target) in
  (region (attributes guessed) ∈ OBJECT_PROTOTYPE ->
   exists msg, Game.compareAttributes guessed target = Throw (TypeError msg)) /\
  (region (attributes guessed) ∉ OBJECT_PROTOTYPE ->
   exists c, Game.compareAttributes guessed target = Return c) /\
  forall c, Game.compareAttributes guessed target = Return c ->
    let entry := Game.cmpSize c in
    let m := Game.match_ (Game.cmpRegion c) in
    (sg ∉ Game.SIZE_ORDER -> st ∉ Game.SIZE_ORDER ->
       Game.match_ entry = Game.exact /\ Game.direction entry = Game.null) /\
    (forall j : nat, sg ∉ Game.SIZE_ORDER -> Game.SIZE_ORDER !! j = Some st ->
       Game.match_ entry = (if bool_decide (j = 0%nat) then Game.close else Game.wrong) /\
       Game.direction entry = Game.up) /\
    (forall i : nat, Game.SIZE_ORDER !! i = Some sg -> st ∉ Game.SIZE_ORDER ->
       Game.match_ entry = (if bool_decide (i = 0%nat) then Game.close else Game.wrong) /\
       Game.direction entry = Game.down) /\
    (Game.OCEAN_GROUPS !! region (attributes guessed) = None \/
     Game.OCEAN_GROUPS !! region (attributes target) = None ->
       m = if bool_decide (region (attributes guessed) = region (attributes target))
           then Game.exact else Game.wrong).
Proof.
  intros sg st.
  split; [apply compareAttributes_throws|].
  split; [apply compareAttributes_returns|].
  intros c Hc entry m. subst entry m.
  split; [|split; [|split]].
  - intros Hg Ht.
    rewrite (cmpSize_indices guessed target c _ _ Hc
               (indexOf_absent _ _ Hg) (indexOf_absent _ _ Ht)).
    split; reflexivity.
  - intros j Hg Ht.
    rewrite (cmpSize_indices guessed target c _ _ Hc
               (indexOf_absent _ _ Hg) (SIZE_ORDER_indexOf _ _ Ht)).
    assert (j < 5)%nat by (apply lookup_lt_Some in Ht; exact Ht).
    do 5 (destruct j as [|j]; [split; reflexivity|]). lia.
  - intros i Hg Ht.
    rewrite (cmpSize_indices guessed target c _ _ Hc
               (SIZE_ORDER_indexOf _ _ Hg) (indexOf_absent _ _ Ht)).
    assert (i < 5)%nat by (apply lookup_lt_Some in Hg; exact Hg).
    do 5 (destruct i as [|i]; [split; reflexivity|]). lia.
  - intros Hnone. rewrite (cmpRegion_unfold guessed target c Hc).
    case_bool_decide as Heq; [reflexivity|].
    destruct (Game.OCEAN_GROUPS !! region (attributes guessed)) as [grp|] eqn:Hg;
      [|reflexivity].
    destruct Hnone as [Hnone|Hnone]; [discriminate|].
    unfold includes. simpl. case_bool_decide as Hin; [|reflexivity].
    destruct (OCEAN_GROUPS_closed _ _ _ Hg Hin) as [x Hx]. congruence.
Qed.

Lemma compareAttributes_outside_domain_witness :
  (size (attributes kraken) ∉ Game.SIZE_ORDER) /\
  Game.SIZE_ORDER !! 1%nat = Some (size (attributes clownfish)) /\
  (exists c, Game.compareAttributes kraken clownfish = Return c /\
             Game.match_ (Game.cmpSize c) = Game.wrong /\
             Game.direction (Game.cmpSize c) = Game.up) /\
  (exists msg, Game.compareAttributes lanternfish clownfish = Throw (TypeError msg)).
Proof.
  assert (Hoff : size (attributes kraken) ∉ Game.SIZE_ORDER).
  { unfold Game.SIZE_ORDER. rewrite !elem_of_cons, elem_of_nil.
    intuition discriminate. }
  split; [exact Hoff|]. split; [reflexivity|]. split.
  - destruct (compareAttributes_outside_domain kraken clownfish)
      as (_ & Hreturns & Hentries).
    destruct Hreturns as [c Hc].
    { unfold OBJECT_PROTOTYPE. rewrite !elem_of_cons, elem_of_nil.
      intuition discriminate. }
    exists c. split; [exact Hc|].
    destruct (Hentries c Hc) as (_ & Hup & _ & _).
    exact (Hup 1%nat Hoff eq_refl).
  - destruct (compareAttributes_outside_domain lanternfish clownfish)
      as (Hthrows & _).
    apply Hthrows. unfold OBJECT_PROTOTYPE. rewrite !elem_of_cons. tauto.
Defined.

(** ** Score *)

(** C5. With [guessCount] the number of guesses made and [hintPenalty]
    the current hint penalty, both of which are non-negative,
    [calculateScore] returns [max(10, 100 - 5 * guessCount - hintPenalty)],
    which is never below 10. *)
Theorem calculateScore_formula (guesses : list Game.Guess) (hints : Hints.State)
    (guessCount hintPenalty : Z) :
  Z.of_nat (length guesses) = guessCount ->
  Hints.getHintPenalty hints = hintPenalty ->
  0 <= guessCount /\ 0 <= hintPenalty /\
  Game.calculateScore guesses hints = Z.max 10 (100 - 5 * guessCount - hintPenalty) /\
  10 <= Game.calculateScore guesses hints.
Proof.
  intros <- <-.
  unfold Game.calculateScore, Game.BASE_SCORE, Game.GUESS_PENALTY, Game.MIN_SCORE,
    Hints.getHintPenalty, Hints.LETTER_HINT_COST, Hints.ATTRIBUTE_HINT_COST.
  repeat split; lia.
Qed.

Lemma calculateScore_formula_witness :
  Z.of_nat (length oneWrongGuess) = 1 /\
  Hints.getHintPenalty (Hints.init (Some clownfish)) = 0 /\
  Game.calculateScore oneWrongGuess (Hints.init (Some clownfish)) = 95.
Proof.
  split; [reflexivity|]. split; [reflexivity|].
  destruct (calculateScore_formula oneWrongGuess (Hints.init (Some clownfish))
              1 0 eq_refl eq_refl) as (_ & _ & Hscore & _).
  exact Hscore.
Defined.

(** ** Rounded products *)

Section Rounding.

Lemma roundToDouble_nonneg x : 0 <= x -> 0 <= roundToDouble x.
Proof.
  intros Hx. unfold roundToDouble.
  destruct (Z.leb_spec (Z.log2 x - 52) 0) as [|He]; [exact Hx|].
  cbv zeta.
  assert (0 < 2 ^ (Z.log2 x - 52)) by (apply Z.pow_pos_nonneg; lia).
  assert (0 <= x / 2 ^ (Z.log2 x - 52)) by (apply Z.div_pos; lia).
  destruct (_ || _); nia.
Qed.

(** Rounding moves an integer by at most half a unit in the last place. *)
Lemma roundToDouble_upper x :
  0 < x -> 0 < Z.log2 x - 52 ->
  roundToDouble x <= x + 2 ^ (Z.log2 x - 52 - 1).
Proof.
  intros Hx He. unfold roundToDouble.
  destruct (Z.leb_spec (Z.log2 x - 52) 0) as [|_]; [lia|].
  cbv zeta.
  set (e := Z.log2 x - 52) in *.
  assert (Hpow : 2 ^ e = 2 * 2 ^ (e - 1)).
  { replace e with (Z.succ (e - 1)) at 1 by lia. apply Z.pow_succ_r. lia. }
  assert (Hh : 0 < 2 ^ (e - 1)) by (apply Z.pow_pos_nonneg; lia).
  pose proof (Z.div_mod x (2 ^ e) ltac:(lia)) as Hdm.
  pose proof (Z.mod_pos_bound x (2 ^ e) ltac:(lia)) as Hr.
  destruct (Z.ltb_spec (2 ^ (e - 1)) (x mod 2 ^ e)) as [Hlt|Hge]; simpl.
  - nia.
  - destruct (Z.eqb_spec (x mod 2 ^ e) (2 ^ (e - 1))) as [Heq|Hne]; simpl.
    + destruct (Z.odd _); nia.
    + nia.
Qed.

(** The floor of the rounded product of a double in [0,1) and a length
    is an index below that length. *)
Lemma floorMul_bound (d : Dyadic) (n : Z) :
  0 <= mant d < 2 ^ 53 -> mant d < 2 ^ scale d -> 0 <= scale d -> 0 < n ->
  0 <= floorMul d n < n.
Proof.
  intros [Hm0 Hm1] Hm2 Hs0 Hn. unfold floorMul.
  set (x := mant d * n). set (P := 2 ^ scale d) in *.
  set (b := Z.min (scale d) 53).
  assert (HP : 0 < P) by (apply Z.pow_pos_nonneg; lia).
  assert (HB : 0 < 2 ^ b) by (apply Z.pow_pos_nonneg; lia).
  assert (HmB : mant d < 2 ^ b).
  { unfold b. destruct (Z.min_spec (scale d) 53) as [[_ ->]|[_ ->]]; assumption. }
  assert (HBP : 2 ^ b <= P).
  { unfold P. apply Z.pow_le_mono_r; lia. }
  assert (Hx0 : 0 <= x) by (unfold x; nia).
  assert (HxB : x + n <= n * 2 ^ b) by (unfold x; nia).
  assert (HxP : n * 2 ^ b <= n * P) by nia.
  split.
  - apply Z.div_pos; [apply roundToDouble_nonneg; exact Hx0 | exact HP].
  - apply Z.div_lt_upper_bound; [exact HP|].
    destruct (Z.leb_spec (Z.log2 x - 52) 0) as [Hle|He].
    + unfold roundToDouble. rewrite (proj2 (Z.leb_le _ _) Hle). nia.
    + assert (Hxpos : 0 < x).
      { destruct (Z.eq_dec x 0) as [E|]; [rewrite E in He; simpl in He; lia|lia]. }
      pose proof (roundToDouble_upper x Hxpos He) as Hup.
      pose proof (Z.log2_spec x Hxpos) as [Hlo _].
      set (e := Z.log2 x - 52) in *.
      assert (Hsplit : 2 ^ Z.log2 x = 2 ^ (e - 1) * 2 ^ (53 - b) * 2 ^ b).
      { rewrite <- !Z.pow_add_r by lia. f_equal. lia. }
      assert (Hh : 0 < 2 ^ (e - 1)) by (apply Z.pow_pos_nonneg; lia).
      assert (Hk : 0 < 2 ^ (53 - b)) by (apply Z.pow_pos_nonneg; lia).
      assert (Hlt : 2 ^ (e - 1) * 2 ^ (53 - b) < n).
      { apply (Z.mul_lt_mono_pos_r (2 ^ b)); lia. }
      assert (2 ^ (e - 1) <= 2 ^ (e - 1) * 2 ^ (53 - b)) by nia.
      lia.
Qed.

End Rounding.

(** ** Daily selection *)

(** The generator yields a fraction over [2^32] for every seed. *)
Lemma seededRandom_range (seed : JsNumber) :
  scale (Daily.seededRandom seed).1 = 32 /\
  0 <= mant (Daily.seededRandom seed).1 < 2 ^ 32.
Proof.
  split; [reflexivity|].
  unfold Daily.seededRandom. cbv zeta. cbn [fst mant].
  unfold ushr at 1. rewrite Z.mod_0_l by lia. rewrite Z.shiftr_0_r.
  unfold ToUint32. apply Z.mod_pos_bound. lia.
Qed.

(** With no target fish, as after [init(undefined)], the ledger
    operations that read the target raise a [TypeError]. *)
Lemma hints_without_target (rnd : RandomDraw) :
  Hints.canRevealLetter (Hints.init None)
    = Throw (TypeError "Cannot read properties of null") /\
  Hints.canRevealAttribute (Hints.init None)
    = Throw (TypeError "Cannot read properties of null") /\
  Hints.revealLetter rnd (Hints.init None)
    = Throw (TypeError "Cannot read properties of null") /\
  Hints.revealAttribute rnd (Hints.init None)
    = Throw (TypeError "Cannot read properties of null").
Proof. repeat split. Qed.

(** C3, refuted as stated: on the empty database [getDailyFish] checks
    nothing and returns a record, whose [fish] is [undefined]. *)
Lemma getDailyFish_empty_returns :
  Daily.getDailyFish [] (Some newYear2024) newYear2024 =
    {| Daily.fish := None; Daily.gameNumber := 1; Daily.date := "2024-01-01" |}.
Proof. vm_compute. reflexivity. Qed.

(** C3, amended. Applied to the empty database, [getDailyFish] does not
    fail: it reads index 0 of the empty array and returns a record whose
    [fish] is [undefined], with the game number and the date string of
    the day. *)
Theorem getDailyFish_empty (date : option Date) (now : Date) :
  floorMul (Daily.seededRandom (Daily.dateToSeed (effectiveDate date now))).1
           (Z.of_nat (length (@nil FishEntity))) = 0 /\
  Daily.getDailyFish [] date now =
    {| Daily.fish := None;
       Daily.gameNumber := Daily.getGameNumber (effectiveDate date now);
       Daily.date := isoDate (effectiveDate date now) |}.
Proof.
  assert (H0 : forall d, floorMul d (Z.of_nat (length (@nil FishEntity))) = 0).
  { intros d. unfold floorMul. simpl. rewrite Z.mul_0_r. reflexivity. }
  split; [apply H0|].
  unfold Daily.getDailyFish. cbv zeta. fold (effectiveDate date now).
  rewrite H0. reflexivity.
Qed.

(** C6. [getGameNumber] returns [floor((date - 2024-01-01 UTC) / 1 day) + 1].
    The value only depends on the UTC day the date falls on, is 1 on
    2024-01-01, and grows by exactly 1 from one day to the next. *)
Theorem getGameNumber_days (date : Date) (tz : Z) :
  Daily.getGameNumber date = (getTime date - DateUTC 2024 0 1) / msPerDay + 1 /\
  Daily.getGameNumber date = getTime date / msPerDay - MakeDay 2024 0 1 + 1 /\
  Daily.getGameNumber (mkDate (DateUTC 2024 0 1) tz) = 1 /\
  Daily.getGameNumber (mkDate (getTime date + msPerDay) tz) =
    Daily.getGameNumber date + 1 /\
  (forall y m d : Z,
     Daily.getGameNumber (mkDate (DateUTC y m (d + 1)) tz) =
     Daily.getGameNumber (mkDate (DateUTC y m d) tz) + 1).
Proof.
  assert (Hday : forall t : Z,
    (t + msPerDay - DateUTC 2024 0 1) / msPerDay
    = (t - DateUTC 2024 0 1) / msPerDay + 1).
  { intros t.
    replace (t + msPerDay - DateUTC 2024 0 1)
      with (t - DateUTC 2024 0 1 + 1 * msPerDay) by ring.
    apply Z.div_add. discriminate. }
  unfold Daily.getGameNumber, mkDate. cbv zeta. cbn [getTime].
  change (1000 * 60 * 60 * 24) with msPerDay.
  split; [reflexivity|]. split; [|split; [reflexivity|split]].
  - change (DateUTC 2024 0 1) with (MakeDay 2024 0 1 * msPerDay).
    replace (getTime date - MakeDay 2024 0 1 * msPerDay)
      with (getTime date + (- MakeDay 2024 0 1) * msPerDay) by ring.
    rewrite Z.div_add by discriminate. ring.
  - rewrite Hday. reflexivity.
  - intros y m d.
    replace (DateUTC y m (d + 1)) with (DateUTC y m d + msPerDay)
      by (unfold DateUTC, MakeDay; ring).
    rewrite Hday. reflexivity.
Qed.

(** C10. For a non-empty database and any date, the value drawn from the
    seeded generator is a fraction in [0,1), the index
    [floor(rng() * length)] lies between 0 and [length - 1], and the fish
    returned is an element of the database. *)
Theorem getDailyFish_in_bounds (fishDatabase : list FishEntity)
    (date : option Date) (now : Date) :
  fishDatabase <> [] ->
  let rng := (Daily.seededRandom (Daily.dateToSeed (effectiveDate date now))).1 in
  let index := floorMul rng (Z.of_nat (length fishDatabase)) in
  (forall seed : JsNumber,
     0 <= mant (Daily.seededRandom seed).1 < 2 ^ scale (Daily.seededRandom seed).1) /\
  0 <= mant rng < 2 ^ scale rng /\
  0 <= index <= Z.of_nat (length fishDatabase) - 1 /\
  exists fish : FishEntity,
    Daily.fish (Daily.getDailyFish fishDatabase date now) = Some fish /\
    fishDatabase !! Z.to_nat index = Some fish /\
    fish ∈ fishDatabase.
Proof.
  intros Hne rng index.
  destruct (seededRandom_range (Daily.dateToSeed (effectiveDate date now)))
    as [Hscale Hmant].
  fold rng in Hscale, Hmant.
  assert (Hlen : 0 < Z.of_nat (length fishDatabase)).
  { destruct fishDatabase; [contradiction|simpl; lia]. }
  assert (Hidx : 0 <= index < Z.of_nat (length fishDatabase)).
  { apply floorMul_bound; rewrite ?Hscale; lia. }
  split; [intros seed; apply seededRandom_range|].
  split; [rewrite Hscale; exact Hmant|]. split; [lia|].
  destruct (lookup_lt_is_Some_2 fishDatabase (Z.to_nat index)) as [fish Hfish];
    [lia|].
  exists fish. split; [exact Hfish|]. split; [exact Hfish|].
  eapply list_elem_of_lookup_2. exact Hfish.
Qed.

Lemma getDailyFish_in_bounds_witness :
  [goldfish; clownfish; tuna] <> [] /\
  Daily.fish (Daily.getDailyFish [goldfish; clownfish; tuna]
                                 (Some newYear2024) newYear2024) = Some clownfish.
Proof.
  split; [discriminate|].
  destruct (getDailyFish_in_bounds [goldfish; clownfish; tuna]
              (Some newYear2024) newYear2024 ltac:(discriminate))
    as (_ & _ & _ & fish & Hfish & _ & _).
  rewrite Hfish. vm_compute in Hfish. exact (eq_sym Hfish).
Defined.

(** ** Hint ledger *)

Section HintLemmas.
Import Hints.

Lemma letterPositionsFrom_elem (i : nat) (nm : string) (p : nat) :
  p ∈ letterPositionsFrom i nm <->
  (i <= p)%nat /\ isLetterPosition nm (p - i).
Proof.
  revert i. induction nm as [|c rest IH]; intros i; simpl.
  - rewrite elem_of_nil. unfold isLetterPosition. simpl. lia.
  - assert (Hrest : p ∈ letterPositionsFrom (S i) rest <->
                    (i < p)%nat /\ isLetterPosition (String c rest) (p - i)).
    { rewrite IH. unfold isLetterPosition.
      split.
      - intros (Hle & Hlt & Hget).
        replace (p - i)%nat with (S (p - S i)) by lia. simpl.
        split; [lia|]. split; [lia|exact Hget].
      - intros (Hle & Hlt & Hget).
        replace (p - i)%nat with (S (p - S i)) in Hlt, Hget by lia.
        simpl in Hlt, Hget. split; [lia|]. split; [lia|exact Hget]. }
    case_bool_decide as Hc.
    + rewrite Hrest. split; [intros [? ?]; split; [lia|assumption]|].
      intros [Hle Hp]. split; [|exact Hp].
      destruct (decide (p = i)) as [->|]; [|lia].
      destruct Hp as [_ Hget]. rewrite Nat.sub_diag in Hget. simpl in Hget.
      congruence.
    + rewrite elem_of_cons, Hrest. split.
      * intros [->|[? ?]]; [|split; [lia|assumption]].
        split; [lia|]. rewrite Nat.sub_diag. split; simpl; [lia|congruence].
      * intros [Hle Hp]. destruct (decide (p = i)); [now left|right].
        split; [lia|exact Hp].
Qed.

Lemma getLetterPositions_elem (nm : string) (p : nat) :
  p ∈ letterPositionsFrom 0 nm <-> isLetterPosition nm p.
Proof.
  rewrite letterPositionsFrom_elem, Nat.sub_0_r. split; [tauto|].
  intros H. split; [lia|exact H].
Qed.

Lemma unrevealed_elem {A} `{EqDecision A} (revealed all : list A) (x : A) :
  x ∈ filter (fun y => negb (includes revealed y)) all <->
  (x ∉ revealed) /\ x ∈ all.
Proof.
  rewrite list_elem_of_filter. unfold includes.
  rewrite negb_True, bool_decide_spec. reflexivity.
Qed.

Lemma unrevealed_nil {A} `{EqDecision A} (revealed all : list A) :
  (forall x, x ∈ all -> x ∈ revealed) ->
  filter (fun y => negb (includes revealed y)) all = [].
Proof.
  intros Hall.
  destruct (filter _ all) as [|x l] eqn:E; [reflexivity|].
  assert (Hx : x ∈ filter (fun y => negb (includes revealed y)) all)
    by (rewrite E; left).
  apply unrevealed_elem in Hx as [Hnot Hin]. now destruct Hnot; apply Hall.
Qed.

(** The index drawn for a non-empty array is one of its positions. *)
Lemma random_pick {A} (l : list A) (rnd : RandomDraw) :
  l <> [] ->
  exists x, l !! Z.to_nat (floorMul (MathRandom rnd) (Z.of_nat (length l))) = Some x.
Proof.
  intros Hne.
  assert (Hlen : 0 < Z.of_nat (length l)) by (destruct l; [contradiction|simpl; lia]).
  assert (Hidx : 0 <= floorMul (MathRandom rnd) (Z.of_nat (length l))
                 < Z.of_nat (length l)).
  { pose proof (MathRandom_unit rnd) as Hunit. unfold unitDouble in Hunit.
    rewrite !andb_True, !Is_true_true in Hunit.
    destruct Hunit as ((((H0 & H53) & Hone) & Hs0) & _).
    apply floorMul_bound; lia. }
  apply lookup_lt_is_Some_2. lia.
Qed.

Lemma revealLetter_cases (rnd : RandomDraw) (st : State) (fish : FishEntity) :
  targetFish st = Some fish ->
  let unrevealed :=
    filter (fun pos => negb (includes (revealedLetters st) pos))
           (letterPositionsFrom 0 (name fish)) in
  (unrevealed = [] /\ revealLetter rnd st = Return (None, st)) \/
  (exists position, position ∈ unrevealed /\
     revealLetter rnd st =
       Return (Some (mkLetterHint position (String.get position (name fish))
                                  LETTER_HINT_COST),
               mkState (Some fish)
                       (merge_sort (≤)%nat (revealedLetters st ++ [position]))
                       (revealedAttributes st))).
Proof.
  intros Hfish unrevealed.
  unfold revealLetter, getLetterPositions, target. rewrite Hfish. simpl.
  fold unrevealed.
  case_bool_decide as Hlen.
  - left. split; [|reflexivity]. now apply length_zero_iff_nil.
  - right.
    assert (Hne : unrevealed <> []) by (intros E; rewrite E in Hlen; now apply Hlen).
    destruct (random_pick unrevealed rnd Hne) as [position Hpos].
    exists position. rewrite Hpos.
    split; [|reflexivity]. eapply list_elem_of_lookup_2. exact Hpos.
Qed.

Lemma revealAttribute_cases (rnd : RandomDraw) (st : State) (fish : FishEntity) :
  targetFish st = Some fish ->
  let unrevealed :=
    filter (fun attr => negb (includes (revealedAttributes st) attr))
           (attributeKeys (attributes fish)) in
  (unrevealed = [] /\ revealAttribute rnd st = Return (None, st)) \/
  (exists attribute, attribute ∈ unrevealed /\
     revealAttribute rnd st =
       Return (Some (mkAttributeHint attribute (ATTRIBUTE_LABELS !! attribute)
                                     (attributeGet (attributes fish) attribute)
                                     ATTRIBUTE_HINT_COST),
               mkState (Some fish) (revealedLetters st)
                       (revealedAttributes st ++ [attribute]))).
Proof.
  intros Hfish unrevealed.
  unfold revealAttribute, target. rewrite Hfish. simpl.
  fold unrevealed.
  case_bool_decide as Hlen.
  - left. split; [|reflexivity]. now apply length_zero_iff_nil.
  - right.
    assert (Hne : unrevealed <> []) by (intros E; rewrite E in Hlen; now apply Hlen).
    destruct (random_pick unrevealed rnd Hne) as [attribute Hpos].
    exists attribute. rewrite Hpos.
    split; [|reflexivity]. eapply list_elem_of_lookup_2. exact Hpos.
Qed.

Lemma StronglySorted_le_lt (l : list nat) :
  StronglySorted le l -> NoDup l -> StronglySorted lt l.
Proof.
  induction 1 as [|x l Hs IH Hall]; intros Hnd; [constructor|].
  apply NoDup_cons in Hnd as [Hx Hnd].
  constructor; [now apply IH|].
  rewrite Forall_forall in Hall |- *. intros y Hy.
  specialize (Hall y Hy). destruct (decide (x = y)) as [->|]; [contradiction|lia].
Qed.

Lemma init_invariant (fish : FishEntity) : ledgerInvariant fish (init (Some fish)).
Proof.
  unfold ledgerInvariant, init. simpl.
  repeat split; constructor.
Qed.

(** Pushing a fresh letter position and sorting keeps the invariant. *)
Lemma push_sort_invariant (fish : FishEntity) (st : State) (position : nat) :
  ledgerInvariant fish st ->
  position ∉ revealedLetters st ->
  isLetterPosition (name fish) position ->
  ledgerInvariant fish
    (mkState (Some fish) (merge_sort (≤)%nat (revealedLetters st ++ [position]))
             (revealedAttributes st)).
Proof.
  intros (Hfish & Hnd & Hsorted & Hall & Hattrs) Hfresh Hletter.
  pose proof (merge_sort_Permutation (≤)%nat (revealedLetters st ++ [position]))
    as Hperm.
  assert (Hnd' : NoDup (revealedLetters st ++ [position])).
  { apply NoDup_app. split; [exact Hnd|]. split; [|apply NoDup_singleton].
    intros x Hx Hx'. apply list_elem_of_singleton in Hx' as ->. contradiction. }
  unfold ledgerInvariant. simpl.
  split; [reflexivity|]. split; [now rewrite Hperm|].
  split.
  { apply StronglySorted_le_lt; [|now rewrite Hperm].
    apply StronglySorted_merge_sort; apply _. }
  split; [|exact Hattrs].
  rewrite Hperm. apply Forall_app. split; [exact Hall|].
  now apply Forall_singleton.
Qed.
(** An operation that returns null without touching the ledger does
    so however often it is called. *)
Lemma callSequence_idle {R : Type}
    (op : RandomDraw -> State -> Completion (option R * State)) (st : State)
    (rnds : list RandomDraw) :
  (forall rnd, op rnd st = Return (None, st)) ->
  callSequence op rnds st = Return (replicate (length rnds) None, st).
Proof.
  intros Hidle. induction rnds as [|rnd rest IH]; [reflexivity|].
  simpl. rewrite Hidle. simpl. rewrite IH. reflexivity.
Qed.

End HintLemmas.

(** C7. Saving a ledger with [getState] and loading the saved value with
    [loadState] into a ledger freshly initialised for the same target
    fish gives back the same state; [canRevealLetter],
    [canRevealAttribute] and [getHintPenalty] return on it what they
    return on the original, and the two predicates return normally. *)
Theorem getState_loadState_round_trip (fish : FishEntity)
    (letters : list nat) (attrs : list string) :
  let st := Hints.mkState (Some fish) letters attrs in
  let restored := Hints.loadState (Hints.getState st) (Hints.init (Some fish)) in
  restored = st /\
  Hints.canRevealLetter restored = Hints.canRevealLetter st /\
  Hints.canRevealAttribute restored = Hints.canRevealAttribute st /\
  Hints.getHintPenalty restored = Hints.getHintPenalty st /\
  (exists b, Hints.canRevealLetter st = Return b) /\
  (exists b, Hints.canRevealAttribute st = Return b).
Proof.
  intros st restored.
  assert (E : restored = st) by reflexivity.
  rewrite E. repeat split; eexists; reflexivity.
Qed.

(** C8. On a ledger initialised for a target fish: once every attribute
    name is revealed, [revealAttribute] returns null and leaves the
    ledger, hence both revealed sets and the hint penalty, as they were;
    once every non-space position of the name is revealed, so does
    [revealLetter]. The ledger being unchanged, the same holds for every
    further call. *)
Theorem reveal_at_exhaustion (fish : FishEntity) (st : Hints.State)
    (rnd : RandomDraw) (rnds : list RandomDraw) :
  Hints.targetFish st = Some fish ->
  ((forall a, a ∈ attributeKeys (attributes fish) -> a ∈ Hints.revealedAttributes st) ->
   (exists st', Hints.revealAttribute rnd st = Return (None, st') /\ st' = st /\
      Hints.getHintPenalty st' = Hints.getHintPenalty st) /\
   callSequence Hints.revealAttribute rnds st =
     Return (replicate (length rnds) None, st)) /\
  ((forall p, isLetterPosition (name fish) p -> p ∈ Hints.revealedLetters st) ->
   (exists st', Hints.revealLetter rnd st = Return (None, st') /\ st' = st /\
      Hints.getHintPenalty st' = Hints.getHintPenalty st) /\
   callSequence Hints.revealLetter rnds st =
     Return (replicate (length rnds) None, st)).
Proof.
  intros Hfish.
  assert (Hattr : (forall a, a ∈ attributeKeys (attributes fish) ->
                             a ∈ Hints.revealedAttributes st) ->
                  forall r, Hints.revealAttribute r st = Return (None, st)).
  { intros Hall r.
    destruct (revealAttribute_cases r st fish Hfish) as [[_ H]|(a & Ha & _)];
      [exact H|].
    rewrite (unrevealed_nil _ _ Hall) in Ha. now apply elem_of_nil in Ha. }
  assert (Hletter : (forall p, isLetterPosition (name fish) p ->
                               p ∈ Hints.revealedLetters st) ->
                    forall r, Hints.revealLetter r st = Return (None, st)).
  { intros Hall r.
    destruct (revealLetter_cases r st fish Hfish) as [[_ H]|(p & Hp & _)];
      [exact H|].
    rewrite unrevealed_nil in Hp; [now apply elem_of_nil in Hp|].
    intros x Hx. apply Hall. now apply getLetterPositions_elem. }
  split; intros Hall.
  - split; [exists st; split; [now apply Hattr | split; reflexivity]|].
    now apply callSequence_idle, Hattr.
  - split; [exists st; split; [now apply Hletter | split; reflexivity]|].
    now apply callSequence_idle, Hletter.
Qed.

Lemma reveal_at_exhaustion_witness :
  Hints.targetFish allAttributesRevealed = Some clownfish /\
  (forall a, a ∈ attributeKeys (attributes clownfish) ->
             a ∈ Hints.revealedAttributes allAttributesRevealed) /\
  Hints.revealAttribute fiveEighths allAttributesRevealed =
    Return (None, allAttributesRevealed).
Proof.
  assert (Hall : forall a, a ∈ attributeKeys (attributes clownfish) ->
                           a ∈ Hints.revealedAttributes allAttributesRevealed).
  { intros a. unfold attributeKeys. simpl.
    rewrite !elem_of_cons, !elem_of_nil. tauto. }
  split; [reflexivity|]. split; [exact Hall|].
  destruct (reveal_at_exhaustion clownfish allAttributesRevealed fiveEighths [] eq_refl)
    as [Hattr _].
  destruct (Hattr Hall) as [(st' & Hcall & -> & _) _]. exact Hcall.
Defined.

(** C9. The ledger invariant -- the revealed letter positions are without
    duplicates, in strictly ascending order, and each is a non-space
    position below the length of the target's name; the revealed
    attribute names are without duplicates -- holds after [init] and is
    kept by [revealLetter] and [revealAttribute], which return normally
    and never drop an item from either list. *)
Theorem reveal_preserves_invariant (fish : FishEntity) (st : Hints.State)
    (rnd : RandomDraw) :
  ledgerInvariant fish st ->
  ledgerInvariant fish (Hints.init (Some fish)) /\
  (exists r st', Hints.revealLetter rnd st = Return (r, st') /\
     ledgerInvariant fish st' /\
     Hints.revealedLetters st ⊆ Hints.revealedLetters st' /\
     Hints.revealedAttributes st ⊆ Hints.revealedAttributes st') /\
  (exists r st', Hints.revealAttribute rnd st = Return (r, st') /\
     ledgerInvariant fish st' /\
     Hints.revealedLetters st ⊆ Hints.revealedLetters st' /\
     Hints.revealedAttributes st ⊆ Hints.revealedAttributes st').
Proof.
  intros Hinv. split; [apply init_invariant|].
  pose proof Hinv as (Hfish & Hnd & Hsorted & Hall & Hattrs).
  split.
  - destruct (revealLetter_cases rnd st fish Hfish) as [[_ H]|(p & Hp & H)].
    + exists None, st. split; [exact H|]. split; [exact Hinv|]. split; reflexivity.
    + apply unrevealed_elem in Hp as [Hfresh Hpos].
      apply getLetterPositions_elem in Hpos.
      eexists _, _. split; [exact H|].
      split; [now apply push_sort_invariant|].
      split; [|reflexivity]. simpl.
      intros x Hx. rewrite merge_sort_Permutation. apply elem_of_app. now left.
  - destruct (revealAttribute_cases rnd st fish Hfish) as [[_ H]|(a & Ha & H)].
    + exists None, st. split; [exact H|]. split; [exact Hinv|]. split; reflexivity.
    + apply unrevealed_elem in Ha as [Hfresh _].
      eexists _, _. split; [exact H|].
      split.
      { unfold ledgerInvariant. simpl. repeat (split; [assumption || reflexivity|]).
        apply NoDup_app. split; [exact Hattrs|]. split; [|apply NoDup_singleton].
        intros x Hx Hx'. apply list_elem_of_singleton in Hx' as ->. contradiction. }
      split; [reflexivity|]. simpl.
      intros x Hx. apply elem_of_app. now left.
Qed.

Lemma reveal_preserves_invariant_witness :
  ledgerInvariant clownfish (Hints.init (Some clownfish)) /\
  exists r st', Hints.revealLetter fiveEighths (Hints.init (Some clownfish)) = Return (r, st') /\
    ledgerInvariant clownfish st'.
Proof.
  assert (Hinit : ledgerInvariant clownfish (Hints.init (Some clownfish))).
  { unfold ledgerInvariant. simpl. repeat split; constructor. }
  split; [exact Hinit|].
  destruct (reveal_preserves_invariant clownfish (Hints.init (Some clownfish)) fiveEighths
              Hinit) as (_ & (r & st' & H & Hinv & _) & _).
  exists r, st'. split; [exact H | exact Hinv].
Defined.

(** ** Further properties of the hint ledger *)

Section HintExtras.
Import Hints.

Lemma letterPositionsFrom_lower (i : nat) (nm : string) :
  Forall (fun p => i <= p)%nat (letterPositionsFrom i nm).
Proof.
  apply Forall_forall. intros p Hp.
  apply letterPositionsFrom_elem in Hp. tauto.
Qed.

Lemma letterPositionsFrom_sorted (i : nat) (nm : string) :
  StronglySorted lt (letterPositionsFrom i nm).
Proof.
  revert i. induction nm as [|c rest IH]; intros i; simpl; [constructor|].
  case_bool_decide; [apply IH|].
  constructor; [apply IH|].
  eapply Forall_impl; [apply (letterPositionsFrom_lower (S i))|].
  simpl. intros; lia.
Qed.

Lemma StronglySorted_lt_NoDup (l : list nat) : StronglySorted lt l -> NoDup l.
Proof.
  induction 1 as [|x l Hs IH Hall]; constructor; [|exact IH].
  intros Hx. rewrite Forall_forall in Hall. specialize (Hall x Hx). lia.
Qed.

Lemma letterPositionsFrom_NoDup (i : nat) (nm : string) :
  NoDup (letterPositionsFrom i nm).
Proof. apply StronglySorted_lt_NoDup, letterPositionsFrom_sorted. Qed.

(** Under the invariant the revealed letters are letter positions. *)
Lemma invariant_letters_positions (fish : FishEntity) (st : State) :
  ledgerInvariant fish st ->
  forall p, p ∈ revealedLetters st -> p ∈ letterPositionsFrom 0 (name fish).
Proof.
  intros (_ & _ & _ & Hall & _) p Hp.
  apply getLetterPositions_elem. rewrite Forall_forall in Hall. now apply Hall.
Qed.

(** A duplicate-free list inside another is shorter, and of the same
    length only with the same elements. *)
Lemma NoDup_subset_length {A} (l k : list A) :
  NoDup l -> (forall x, x ∈ l -> x ∈ k) -> (length l <= length k)%nat.
Proof.
  intros Hnd Hsub. apply submseteq_length. now apply NoDup_submseteq.
Qed.

Lemma NoDup_subset_full {A} (l k : list A) :
  NoDup l -> (forall x, x ∈ l -> x ∈ k) -> (length k <= length l)%nat ->
  forall x, x ∈ k -> x ∈ l.
Proof.
  intros Hnd Hsub Hlen x Hx.
  assert (Hperm : l ≡ₚ k).
  { apply submseteq_length_Permutation; [now apply NoDup_submseteq|exact Hlen]. }
  now rewrite Hperm.
Qed.

Lemma unrevealed_nil_inv {A} `{EqDecision A} (shown all : list A) :
  filter (fun y => negb (includes shown y)) all = [] ->
  forall x, x ∈ all -> x ∈ shown.
Proof.
  intros Hnil x Hx.
  destruct (decide (x ∈ shown)) as [|Hnot]; [assumption|].
  assert (Hin : x ∈ filter (fun y => negb (includes shown y)) all)
    by (apply unrevealed_elem; split; assumption).
  rewrite Hnil in Hin. now apply elem_of_nil in Hin.
Qed.

(** Whether the list of unrevealed items is empty, read off the lengths. *)
Lemma unrevealed_nil_length {A} `{EqDecision A} (shown all : list A) :
  NoDup shown -> NoDup all -> (forall x, x ∈ shown -> x ∈ all) ->
  filter (fun y => negb (includes shown y)) all = [] <->
  ~ (length shown < length all)%nat.
Proof.
  intros Hs Ha Hsub. split.
  - intros Hnil.
    pose proof (NoDup_subset_length all shown Ha (unrevealed_nil_inv _ _ Hnil)).
    lia.
  - intros Hlen. apply unrevealed_nil.
    apply NoDup_subset_full; [exact Hs|exact Hsub|lia].
Qed.

Lemma attributeKeys_NoDup (a : Attributes) : NoDup (attributeKeys a).
Proof.
  unfold attributeKeys.
  repeat (apply NoDup_cons; split;
          [rewrite ?elem_of_cons, elem_of_nil; intuition discriminate|]).
  apply NoDup_nil_2.
Qed.

Lemma attributeKeys_defined (a : Attributes) (attr : string) :
  attr ∈ attributeKeys a ->
  is_Some (ATTRIBUTE_LABELS !! attr) /\ is_Some (attributeGet a attr).
Proof.
  unfold attributeKeys. rewrite !elem_of_cons, elem_of_nil.
  intros [->|[->|[->|[->|[]]]]]; split; eexists; reflexivity.
Qed.
End HintExtras.

Section HintExtras2.
Import Hints.

Lemma nameDisplayFrom_length (shown : list nat) (i : nat) (nm : string) :
  length (nameDisplayFrom shown i nm) = String.length nm.
Proof.
  revert i. induction nm as [|c rest IH]; intros i; simpl; [reflexivity|].
  now rewrite IH.
Qed.

Lemma nameDisplayFrom_lookup (shown : list nat) (i : nat) (nm : string)
    (k : nat) (c : ascii) :
  String.get k nm = Some c ->
  nameDisplayFrom shown i nm !! k =
    Some (if bool_decide (c = " "%char) then space
          else if bool_decide ((i + k)%nat ∈ shown) then revealed c else blank).
Proof.
  revert i k. induction nm as [|c' rest IH]; intros i k Hget; [discriminate|].
  destruct k as [|k]; simpl in *.
  - injection Hget as ->. rewrite Nat.add_0_r. reflexivity.
  - rewrite (IH (S i) k Hget). now replace (S i + k)%nat with (i + S k)%nat by lia.
Qed.

(** The cells that show a letter are those of the revealed letter
    positions. *)
Lemma nameDisplayFrom_shown (shown : list nat) (i : nat) (nm : string) :
  length (filter (fun cell => showsLetter cell) (nameDisplayFrom shown i nm)) =
  length (filter (fun p => includes shown p) (letterPositionsFrom i nm)).
Proof.
  revert i. induction nm as [|c rest IH]; intros i; simpl; [reflexivity|].
  case_bool_decide as Hc.
  - rewrite filter_cons_False by (simpl; tauto). apply IH.
  - destruct (includes shown i) eqn:Hi.
    + rewrite !filter_cons_True by (rewrite ?Hi; exact I).
      simpl. f_equal. apply IH.
    + rewrite !filter_cons_False by (rewrite ?Hi; simpl; tauto). apply IH.
Qed.

Lemma filter_includes_length {A} `{EqDecision A} (shown all : list A) :
  NoDup shown -> NoDup all -> (forall x, x ∈ shown -> x ∈ all) ->
  length (filter (fun p => includes shown p) all) = length shown.
Proof.
  intros Hs Ha Hsub. apply Permutation_length.
  apply NoDup_Permutation; [now apply NoDup_filter|exact Hs|].
  intros x. rewrite list_elem_of_filter. unfold includes.
  rewrite bool_decide_spec. split; [tauto|]. intros Hx. split; [exact Hx|auto].
Qed.

(** [revealAttribute] only ever adds attribute names of the fish. *)
Lemma reveal_keeps_fullInvariant (fish : FishEntity) (st : State)
    (rnd : RandomDraw) :
  fullInvariant fish st ->
  (forall r st', revealLetter rnd st = Return (r, st') -> fullInvariant fish st') /\
  (forall r st', revealAttribute rnd st = Return (r, st') -> fullInvariant fish st').
Proof.
  intros [Hinv Hkeys].
  pose proof Hinv as (Hfish & Hnd & Hsorted & Hall & Hattrs).
  split; intros r st' Hcall.
  - destruct (revealLetter_cases rnd st fish Hfish) as [[_ H]|(p & Hp & H)];
      rewrite H in Hcall; injection Hcall as <- <-; [split; assumption|].
    apply unrevealed_elem in Hp as [Hfresh Hpos].
    apply getLetterPositions_elem in Hpos.
    split; [now apply push_sort_invariant|exact Hkeys].
  - destruct (revealAttribute_cases rnd st fish Hfish) as [[_ H]|(a & Ha & H)];
      rewrite H in Hcall; injection Hcall as <- <-; [split; assumption|].
    apply unrevealed_elem in Ha as [Hfresh Hkey].
    split.
    + unfold ledgerInvariant. simpl. repeat (split; [assumption || reflexivity|]).
      apply NoDup_app. split; [exact Hattrs|]. split; [|apply NoDup_singleton].
      intros x Hx Hx'. apply list_elem_of_singleton in Hx' as ->. contradiction.
    + simpl. intros x Hx. apply elem_of_app in Hx as [Hx|Hx]; [now apply Hkeys|].
      apply list_elem_of_singleton in Hx as ->. exact Hkey.
Qed.

Lemma init_fullInvariant (fish : FishEntity) : fullInvariant fish (init (Some fish)).
Proof.
  split; [apply init_invariant|]. simpl. intros x Hx. now apply elem_of_nil in Hx.
Qed.

End HintExtras2.

(** X1. On a ledger with a target fish, [getNameDisplay] returns one cell
    per character of the name: a space cell for a space, the character
    itself at a revealed position, and a blank otherwise, so no letter
    outside the revealed positions is ever shown. *)
Theorem getNameDisplay_cells (fish : FishEntity) (st : Hints.State) :
  Hints.targetFish st = Some fish ->
  exists cells,
    Hints.getNameDisplay st = Return cells /\
    length cells = String.length (name fish) /\
    forall (i : nat) (c : ascii), String.get i (name fish) = Some c ->
      (c = " "%char -> cells !! i = Some Hints.space) /\
      (c <> " "%char -> i ∈ Hints.revealedLetters st ->
         cells !! i = Some (Hints.revealed c)) /\
      (c <> " "%char -> i ∉ Hints.revealedLetters st ->
         cells !! i = Some Hints.blank).
Proof.
  intros Hfish. eexists. split.
  { unfold Hints.getNameDisplay, Hints.target. rewrite Hfish. reflexivity. }
  split; [apply nameDisplayFrom_length|].
  intros i c Hget. rewrite (nameDisplayFrom_lookup _ 0 _ i c Hget). simpl.
  split; [|split].
  - intros ->. reflexivity.
  - intros Hc Hi. rewrite bool_decide_eq_false_2 by exact Hc.
    now rewrite bool_decide_eq_true_2.
  - intros Hc Hi. rewrite bool_decide_eq_false_2 by exact Hc.
    now rewrite bool_decide_eq_false_2.
Qed.

Lemma getNameDisplay_cells_witness :
  Hints.targetFish (Hints.mkState (Some tuna) [8%nat] []) = Some tuna /\
  Hints.getNameDisplay (Hints.mkState (Some tuna) [8%nat] []) =
    Return [Hints.blank; Hints.blank; Hints.blank; Hints.blank; Hints.blank;
            Hints.blank; Hints.blank; Hints.space; Hints.revealed "T";
            Hints.blank; Hints.blank; Hints.blank].
Proof.
  split; [reflexivity|].
  destruct (getNameDisplay_cells tuna (Hints.mkState (Some tuna) [8%nat] [])
              eq_refl) as (cells & Hcall & _ & _).
  rewrite Hcall. vm_compute in Hcall. injection Hcall as <-. reflexivity.
Defined.

(** X2. Under the ledger invariant the name display shows exactly as many
    letters as were revealed: every letter paid for is displayed. *)
Theorem getNameDisplay_shows_all_revealed (fish : FishEntity) (st : Hints.State) :
  ledgerInvariant fish st ->
  exists cells,
    Hints.getNameDisplay st = Return cells /\
    length (filter (fun cell => showsLetter cell) cells) =
      length (Hints.revealedLetters st).
Proof.
  intros Hinv. pose proof Hinv as (Hfish & Hnd & _ & _ & _).
  eexists. split.
  { unfold Hints.getNameDisplay, Hints.target. rewrite Hfish. reflexivity. }
  rewrite nameDisplayFrom_shown.
  apply filter_includes_length;
    [exact Hnd | apply letterPositionsFrom_NoDup
     | now apply invariant_letters_positions].
Qed.

Lemma getNameDisplay_shows_all_revealed_witness :
  ledgerInvariant clownfish allAttributesRevealed /\
  exists cells,
    Hints.getNameDisplay allAttributesRevealed = Return cells /\
    filter (fun cell => showsLetter cell) cells
      = [Hints.revealed "o"; Hints.revealed "f"] /\
    length (filter (fun cell => showsLetter cell) cells) = 2%nat.
Proof.
  assert (Hinv : ledgerInvariant clownfish allAttributesRevealed).
  { unfold ledgerInvariant, isLetterPosition, allAttributesRevealed.
    simpl. repeat split;
      try (repeat constructor; rewrite ?elem_of_cons, ?elem_of_nil; simpl;
           intuition (discriminate || lia)). }
  split; [exact Hinv|].
  destruct (getNameDisplay_shows_all_revealed clownfish allAttributesRevealed Hinv)
    as (cells & Hcall & Hlength).
  exists cells. split; [exact Hcall|]. split; [|exact Hlength].
  vm_compute in Hcall. injection Hcall as <-. reflexivity.
Defined.

(** X3. Under the ledger invariant, with every revealed attribute an
    attribute name of the fish, the length tests of [canRevealLetter]
    and [canRevealAttribute] agree with the reveal operations:
    [canRevealLetter] is true exactly when [revealLetter] reveals a
    letter, and [canRevealAttribute] exactly when [revealAttribute]
    reveals an attribute. *)
Theorem canReveal_agrees_with_reveal (fish : FishEntity) (st : Hints.State)
    (rnd : RandomDraw) :
  fullInvariant fish st ->
  (exists b r st',
     Hints.canRevealLetter st = Return b /\
     Hints.revealLetter rnd st = Return (r, st') /\
     (b = true <-> is_Some r)) /\
  (exists b r st',
     Hints.canRevealAttribute st = Return b /\
     Hints.revealAttribute rnd st = Return (r, st') /\
     (b = true <-> is_Some r)).
Proof.
  intros [Hinv Hkeys].
  pose proof Hinv as (Hfish & Hnd & _ & _ & Hattrs).
  split.
  - pose proof (unrevealed_nil_length (Hints.revealedLetters st)
                  (Hints.letterPositionsFrom 0 (name fish)) Hnd
                  (letterPositionsFrom_NoDup _ _)
                  (invariant_letters_positions fish st Hinv)) as Hlen.
    assert (Hcan : Hints.canRevealLetter st =
              Return (bool_decide (length (Hints.revealedLetters st)
                        < length (Hints.letterPositionsFrom 0 (name fish)))%nat)).
    { unfold Hints.canRevealLetter, Hints.getLetterPositions, Hints.target.
      rewrite Hfish. reflexivity. }
    destruct (revealLetter_cases rnd st fish Hfish) as [[Hnil H]|(p & Hp & H)];
      eexists _, _, _; (split; [exact Hcan|]).
    + split; [exact H|]. rewrite bool_decide_eq_true.
      split; [intros Hlt; now apply Hlen in Hnil | intros [x Hx]; discriminate].
    + split; [exact H|]. rewrite bool_decide_eq_true.
      split; [intros _; eexists; reflexivity|]. intros _.
      destruct (decide (length (Hints.revealedLetters st)
                        < length (Hints.letterPositionsFrom 0 (name fish)))%nat)
        as [Hlt|Hge]; [exact Hlt|].
      apply Hlen in Hge. rewrite Hge in Hp. now apply elem_of_nil in Hp.
  - pose proof (unrevealed_nil_length (Hints.revealedAttributes st)
                  (attributeKeys (attributes fish)) Hattrs
                  (attributeKeys_NoDup _) Hkeys) as Hlen.
    assert (Hcan : Hints.canRevealAttribute st =
              Return (bool_decide (length (Hints.revealedAttributes st)
                        < length (attributeKeys (attributes fish)))%nat)).
    { unfold Hints.canRevealAttribute, Hints.target.
      rewrite Hfish. reflexivity. }
    destruct (revealAttribute_cases rnd st fish Hfish) as [[Hnil H]|(p & Hp & H)];
      eexists _, _, _; (split; [exact Hcan|]).
    + split; [exact H|]. rewrite bool_decide_eq_true.
      split; [intros Hlt; now apply Hlen in Hnil | intros [x Hx]; discriminate].
    + split; [exact H|]. rewrite bool_decide_eq_true.
      split; [intros _; eexists; reflexivity|]. intros _.
      destruct (decide (length (Hints.revealedAttributes st)
                        < length (attributeKeys (attributes fish)))%nat)
        as [Hlt|Hge]; [exact Hlt|].
      apply Hlen in Hge. rewrite Hge in Hp. now apply elem_of_nil in Hp.
Qed.

(** X4. A letter hint is truthful and paid for once: when [revealLetter]
    returns a hint, its position was not revealed before and is revealed
    now, its letter is the character of the name at that position and is
    not a space, its cost is 10, and the list of revealed letters and the
    hint penalty grow by exactly one item and by 10. *)
Theorem revealLetter_accounting (fish : FishEntity) (st st' : Hints.State)
    (rnd : RandomDraw) (hint : Hints.LetterHint) :
  Hints.targetFish st = Some fish ->
  Hints.revealLetter rnd st = Return (Some hint, st') ->
  (Hints.position hint ∉ Hints.revealedLetters st) /\
  Hints.position hint ∈ Hints.revealedLetters st' /\
  (exists c, Hints.letter hint = Some c /\ c <> " "%char /\
             String.get (Hints.position hint) (name fish) = Some c) /\
  Hints.letterCost hint = 10 /\
  length (Hints.revealedLetters st') = S (length (Hints.revealedLetters st)) /\
  Hints.revealedAttributes st' = Hints.revealedAttributes st /\
  Hints.getHintPenalty st' = Hints.getHintPenalty st + Hints.letterCost hint.
Proof.
  intros Hfish Hcall.
  destruct (revealLetter_cases rnd st fish Hfish) as [[_ H]|(p & Hp & H)];
    rewrite H in Hcall; [discriminate|].
  injection Hcall as <- <-. simpl.
  apply unrevealed_elem in Hp as [Hfresh Hpos].
  apply getLetterPositions_elem in Hpos as [Hlt Hget].
  pose proof (merge_sort_Permutation (≤)%nat (Hints.revealedLetters st ++ [p]))
    as Hperm.
  assert (Hlen : length (merge_sort (≤)%nat (Hints.revealedLetters st ++ [p]))
                 = S (length (Hints.revealedLetters st))).
  { rewrite Hperm, length_app. simpl. lia. }
  split; [exact Hfresh|].
  split; [rewrite Hperm; apply elem_of_app; right; now left|].
  split.
  { destruct (String.get p (name fish)) as [c|] eqn:Hc.
    - exists c. repeat split; congruence.
    - exfalso. revert Hlt Hc. clear. revert p.
      induction (name fish) as [|c rest IH]; intros p; simpl; [lia|].
      destruct p; [discriminate|]. intros Hlt Hc. apply (IH p); [lia|exact Hc]. }
  split; [reflexivity|]. split; [exact Hlen|]. split; [reflexivity|].
  unfold Hints.getHintPenalty. simpl. rewrite Hlen.
  unfold Hints.LETTER_HINT_COST. lia.
Qed.

(** X5. An attribute hint is truthful and paid for once: when
    [revealAttribute] returns a hint, its attribute is a name of the fish
    that was not revealed before and is now the last revealed one, its
    label and value are defined and the value is the fish's, its cost is
    5, and the hint penalty grows by 5. *)
Theorem revealAttribute_accounting (fish : FishEntity) (st st' : Hints.State)
    (rnd : RandomDraw) (hint : Hints.AttributeHint) :
  Hints.targetFish st = Some fish ->
  Hints.revealAttribute rnd st = Return (Some hint, st') ->
  Hints.attribute hint ∈ attributeKeys (attributes fish) /\
  (Hints.attribute hint ∉ Hints.revealedAttributes st) /\
  Hints.revealedAttributes st' = Hints.revealedAttributes st ++ [Hints.attribute hint] /\
  Hints.revealedLetters st' = Hints.revealedLetters st /\
  is_Some (Hints.label hint) /\
  (exists v, Hints.value hint = Some v /\
             attributeGet (attributes fish) (Hints.attribute hint) = Some v) /\
  Hints.attributeCost hint = 5 /\
  Hints.getHintPenalty st' = Hints.getHintPenalty st + Hints.attributeCost hint.
Proof.
  intros Hfish Hcall.
  destruct (revealAttribute_cases rnd st fish Hfish) as [[_ H]|(a & Ha & H)];
    rewrite H in Hcall; [discriminate|].
  injection Hcall as <- <-. simpl.
  apply unrevealed_elem in Ha as [Hfresh Hkey].
  destruct (attributeKeys_defined _ _ Hkey) as [Hlabel [v Hv]].
  split; [exact Hkey|]. split; [exact Hfresh|].
  split; [reflexivity|]. split; [reflexivity|].
  split; [exact Hlabel|]. split; [exists v; split; exact Hv|].
  split; [reflexivity|].
  unfold Hints.getHintPenalty. simpl. rewrite length_app. simpl.
  unfold Hints.ATTRIBUTE_HINT_COST. lia.
Qed.

Section HintExtras3.
Import Hints.

Lemma callSequence_step {R : Type}
    (op : RandomDraw -> State -> Completion (option R * State))
    (rnd : RandomDraw) (rest : list RandomDraw) (st st1 st2 : State)
    (r : option R) (rs : list (option R)) :
  op rnd st = Return (r, st1) ->
  callSequence op rest st1 = Return (rs, st2) ->
  callSequence op (rnd :: rest) st = Return (r :: rs, st2).
Proof. intros H1 H2. simpl. rewrite H1. simpl. rewrite H2. reflexivity. Qed.

(** A run of [revealLetter] reveals one letter per call until none is
    left. *)
Lemma revealLetter_run (fish : FishEntity) (rnds : list RandomDraw) (st : State) :
  ledgerInvariant fish st ->
  exists rs st',
    callSequence revealLetter rnds st = Return (rs, st') /\
    ledgerInvariant fish st' /\
    revealedAttributes st' = revealedAttributes st /\
    length (revealedLetters st') =
      Nat.min (length (revealedLetters st) + length rnds)
              (length (letterPositionsFrom 0 (name fish))).
Proof.
  revert st. induction rnds as [|rnd rest IH]; intros st Hinv.
  - exists [], st. split; [reflexivity|]. split; [exact Hinv|].
    split; [reflexivity|].
    pose proof Hinv as (_ & Hnd & _ & _ & _).
    pose proof (NoDup_subset_length _ _ Hnd (invariant_letters_positions fish st Hinv)).
    simpl. lia.
  - pose proof Hinv as (Hfish & Hnd & _ & _ & _).
    pose proof (NoDup_subset_length _ _ Hnd (invariant_letters_positions fish st Hinv))
      as Hle.
    pose proof (unrevealed_nil_length (revealedLetters st)
                  (letterPositionsFrom 0 (name fish)) Hnd
                  (letterPositionsFrom_NoDup _ _)
                  (invariant_letters_positions fish st Hinv)) as Hlen.
    destruct (revealLetter_cases rnd st fish Hfish) as [[Hnil H]|(p & Hp & H)].
    + destruct (IH st Hinv) as (rs & st' & Hrun & Hinv' & Hattrs & Hlen').
      exists (None :: rs), st'. split; [exact (callSequence_step _ _ _ _ _ _ _ _ H Hrun)|].
      split; [exact Hinv'|]. split; [exact Hattrs|].
      apply Hlen in Hnil. rewrite Hlen'. simpl. lia.
    + assert (Hlt : (length (revealedLetters st)
                     < length (letterPositionsFrom 0 (name fish)))%nat).
      { destruct (decide (length (revealedLetters st)
                          < length (letterPositionsFrom 0 (name fish)))%nat)
          as [Hlt|Hge]; [exact Hlt|].
        apply Hlen in Hge. rewrite Hge in Hp. now apply elem_of_nil in Hp. }
      apply unrevealed_elem in Hp as [Hfresh Hpos].
      apply getLetterPositions_elem in Hpos.
      pose proof (push_sort_invariant fish st p Hinv Hfresh Hpos) as Hinv1.
      destruct (IH _ Hinv1) as (rs & st' & Hrun & Hinv' & Hattrs & Hlen').
      eexists (_ :: rs), st'.
      split; [exact (callSequence_step _ _ _ _ _ _ _ _ H Hrun)|].
      split; [exact Hinv'|]. split; [exact Hattrs|].
      rewrite Hlen'. simpl. rewrite merge_sort_Permutation, length_app. simpl. lia.
Qed.

(** Under the invariant, a ledger holding as many letters as the name
    has holds exactly the letter positions. *)
Lemma revealed_all_letters (fish : FishEntity) (st : State) :
  ledgerInvariant fish st ->
  length (revealedLetters st) = length (letterPositionsFrom 0 (name fish)) ->
  revealedLetters st = letterPositionsFrom 0 (name fish).
Proof.
  intros Hinv Hlen. pose proof Hinv as (_ & Hnd & Hsorted & _ & _).
  apply (StronglySorted_unique_strong lt);
    [intros; lia | exact Hsorted | apply letterPositionsFrom_sorted |].
  apply submseteq_length_Permutation; [|lia].
  apply NoDup_submseteq; [exact Hnd|].
  now apply invariant_letters_positions.
Qed.

(** A run of [revealAttribute] reveals one attribute per call until all
    are revealed. *)
Lemma revealAttribute_run (fish : FishEntity) (rnds : list RandomDraw) (st : State) :
  fullInvariant fish st ->
  exists rs st',
    callSequence revealAttribute rnds st = Return (rs, st') /\
    fullInvariant fish st' /\
    revealedLetters st' = revealedLetters st /\
    length (revealedAttributes st') =
      Nat.min (length (revealedAttributes st) + length rnds)
              (length (attributeKeys (attributes fish))).
Proof.
  revert st. induction rnds as [|rnd rest IH]; intros st Hfull.
  - exists [], st. split; [reflexivity|]. split; [exact Hfull|].
    split; [reflexivity|].
    destruct Hfull as [(_ & _ & _ & _ & Hnd) Hkeys].
    pose proof (NoDup_subset_length _ _ Hnd Hkeys). simpl in *. lia.
  - pose proof Hfull as [Hinv Hkeys].
    pose proof Hinv as (Hfish & _ & _ & _ & Hnd).
    pose proof (NoDup_subset_length _ _ Hnd Hkeys) as Hle.
    pose proof (unrevealed_nil_length (revealedAttributes st)
                  (attributeKeys (attributes fish)) Hnd
                  (attributeKeys_NoDup _) Hkeys) as Hlen.
    destruct (reveal_keeps_fullInvariant fish st rnd Hfull) as [_ Hkeep].
    destruct (revealAttribute_cases rnd st fish Hfish) as [[Hnil H]|(a & Ha & H)].
    + destruct (IH st Hfull) as (rs & st' & Hrun & Hfull' & Hletters & Hlen').
      exists (None :: rs), st'. split; [exact (callSequence_step _ _ _ _ _ _ _ _ H Hrun)|].
      split; [exact Hfull'|]. split; [exact Hletters|].
      apply Hlen in Hnil. rewrite Hlen'. simpl in *. lia.
    + assert (Hlt : (length (revealedAttributes st)
                     < length (attributeKeys (attributes fish)))%nat).
      { destruct (decide (length (revealedAttributes st)
                          < length (attributeKeys (attributes fish)))%nat)
          as [Hlt|Hge]; [exact Hlt|].
        apply Hlen in Hge. rewrite Hge in Ha. now apply elem_of_nil in Ha. }
      pose proof (Hkeep _ _ H) as Hfull1.
      destruct (IH _ Hfull1) as (rs & st' & Hrun & Hfull' & Hletters & Hlen').
      eexists (_ :: rs), st'.
      split; [exact (callSequence_step _ _ _ _ _ _ _ _ H Hrun)|].
      split; [exact Hfull'|]. split; [exact Hletters|].
      rewrite Hlen'. simpl. rewrite length_app. simpl in *. lia.
Qed.

End HintExtras3.

(** X6. From a freshly initialised ledger, [n] calls of [revealLetter]
    reveal [min(n, k)] letters, [k] being the number of non-space
    characters of the name. After [k] or more calls the revealed list is
    exactly the list of letter positions, [canRevealLetter] is false and
    a further call returns null. *)
Theorem revealLetter_exhausts (fish : FishEntity) (rnds : list RandomDraw) :
  let positions := Hints.letterPositionsFrom 0 (name fish) in
  exists rs st',
    callSequence Hints.revealLetter rnds (Hints.init (Some fish)) = Return (rs, st') /\
    length (Hints.revealedLetters st') = Nat.min (length rnds) (length positions) /\
    ((length positions <= length rnds)%nat ->
       Hints.revealedLetters st' = positions /\
       Hints.canRevealLetter st' = Return false /\
       forall rnd, Hints.revealLetter rnd st' = Return (None, st')).
Proof.
  intros positions.
  destruct (revealLetter_run fish rnds _ (init_invariant fish))
    as (rs & st' & Hrun & Hinv & _ & Hlen).
  simpl in Hlen. fold positions in Hlen.
  exists rs, st'. split; [exact Hrun|]. split; [exact Hlen|].
  intros Hge. pose proof Hinv as (Hfish & _).
  assert (Hall : Hints.revealedLetters st' = positions).
  { apply revealed_all_letters; [exact Hinv|]. fold positions. lia. }
  split; [exact Hall|]. split.
  - unfold Hints.canRevealLetter, Hints.getLetterPositions, Hints.target.
    rewrite Hfish. simpl. fold positions. rewrite Hall.
    rewrite bool_decide_eq_false_2 by lia. reflexivity.
  - intros rnd.
    destruct (revealLetter_cases rnd st' fish Hfish) as [[_ H]|(p & Hp & _)];
      [exact H|].
    apply unrevealed_elem in Hp as [Hfresh Hpos]. fold positions in Hpos.
    rewrite Hall in Hfresh. contradiction.
Qed.

(** X7. From a freshly initialised ledger, [n] calls of [revealAttribute]
    reveal [min(n, 4)] attributes. After four or more calls every
    attribute name is revealed, [canRevealAttribute] is false, a further
    call returns null, and the attribute hints have cost 20 in all. *)
Theorem revealAttribute_exhausts (fish : FishEntity) (rnds : list RandomDraw) :
  exists rs st',
    callSequence Hints.revealAttribute rnds (Hints.init (Some fish)) = Return (rs, st') /\
    length (Hints.revealedAttributes st') = Nat.min (length rnds) 4 /\
    ((4 <= length rnds)%nat ->
       (forall a, a ∈ attributeKeys (attributes fish) <-> a ∈ Hints.revealedAttributes st') /\
       Hints.canRevealAttribute st' = Return false /\
       Hints.getHintPenalty st' = 20 /\
       forall rnd, Hints.revealAttribute rnd st' = Return (None, st')).
Proof.
  destruct (revealAttribute_run fish rnds _ (init_fullInvariant fish))
    as (rs & st' & Hrun & [Hinv Hkeys] & Hletters & Hlen).
  simpl in Hlen, Hletters.
  exists rs, st'. split; [exact Hrun|]. split; [exact Hlen|].
  intros Hge. pose proof Hinv as (Hfish & _ & _ & _ & Hnd).
  assert (Hall : forall a, a ∈ attributeKeys (attributes fish) ->
                           a ∈ Hints.revealedAttributes st').
  { apply NoDup_subset_full; [exact Hnd|exact Hkeys|]. rewrite Hlen. simpl. lia. }
  split; [intros a; split; [apply Hall|apply Hkeys]|]. split; [|split].
  - unfold Hints.canRevealAttribute, Hints.target. rewrite Hfish. simpl.
    rewrite bool_decide_eq_false_2 by lia. reflexivity.
  - unfold Hints.getHintPenalty. rewrite Hletters, Hlen. simpl.
    unfold Hints.ATTRIBUTE_HINT_COST. lia.
  - intros rnd.
    destruct (revealAttribute_cases rnd st' fish Hfish) as [[_ H]|(a & Ha & _)];
      [exact H|].
    apply unrevealed_elem in Ha as [Hfresh Hkey]. now apply Hall in Hkey.
Qed.

(** X8. Under the ledger invariant, with every revealed attribute an
    attribute name of the fish, [getRevealedAttributesList] lists the
    revealed attributes in the order they were revealed, each with a
    defined label and the fish's value. With nothing revealed it returns
    the empty list even without a target fish; with something revealed
    and no target fish it raises a [TypeError]. *)
Theorem getRevealedAttributesList_defined (fish : FishEntity) (st : Hints.State) :
  fullInvariant fish st ->
  (exists entries,
     Hints.getRevealedAttributesList st = Return entries /\
     map Hints.shownAttribute entries = Hints.revealedAttributes st /\
     Forall (fun e => is_Some (Hints.shownLabel e) /\
                      is_Some (Hints.shownValue e) /\
                      Hints.shownValue e =
                        attributeGet (attributes fish) (Hints.shownAttribute e))
            entries) /\
  (forall shown, Hints.getRevealedAttributesList (Hints.mkState None shown []) = Return []) /\
  (forall shown a attrs,
     exists msg, Hints.getRevealedAttributesList (Hints.mkState None shown (a :: attrs))
                 = Throw (TypeError msg)).
Proof.
  intros [(Hfish & _) Hkeys]. split; [|split; [reflexivity|]].
  - assert (Hcall : Hints.getRevealedAttributesList st =
              Return (map (fun attr =>
                        Hints.mkRevealedAttribute attr (Hints.ATTRIBUTE_LABELS !! attr)
                          (attributeGet (attributes fish) attr))
                        (Hints.revealedAttributes st))).
    { unfold Hints.getRevealedAttributesList, Hints.target. rewrite Hfish.
      destruct (Hints.revealedAttributes st); reflexivity. }
    eexists. split; [exact Hcall|]. split.
    + rewrite map_map. simpl. apply map_id.
    + apply Forall_map, Forall_forall. intros a Ha. simpl.
      destruct (attributeKeys_defined _ _ (Hkeys a Ha)) as [Hl Hv].
      split; [exact Hl|]. split; [exact Hv|reflexivity].
  - intros shown a attrs. eexists. reflexivity.
Qed.

Lemma canReveal_agrees_with_reveal_witness :
  fullInvariant clownfish allAttributesRevealed /\
  Hints.canRevealAttribute allAttributesRevealed = Return false /\
  Hints.canRevealLetter allAttributesRevealed = Return true.
Proof.
  assert (Hfull : fullInvariant clownfish allAttributesRevealed).
  { unfold fullInvariant, ledgerInvariant, isLetterPosition, allAttributesRevealed.
    simpl. repeat split;
      try (repeat constructor; rewrite ?elem_of_cons, ?elem_of_nil; simpl;
           intuition (discriminate || lia)).
    intros x. unfold attributeKeys. rewrite !elem_of_cons, !elem_of_nil. tauto. }
  split; [exact Hfull|].
  destruct (canReveal_agrees_with_reveal clownfish allAttributesRevealed
              fiveEighths Hfull)
    as [(b1 & r1 & s1 & Hcan1 & _ & _) (b2 & r2 & s2 & Hcan2 & _ & _)].
  split.
  - rewrite Hcan2. vm_compute in Hcan2. exact (eq_sym Hcan2).
  - rewrite Hcan1. vm_compute in Hcan1. exact (eq_sym Hcan1).
Defined.

Lemma revealLetter_accounting_witness :
  Hints.targetFish (Hints.init (Some clownfish)) = Some clownfish /\
  Hints.revealLetter fiveEighths (Hints.init (Some clownfish)) =
    Return (Some (Hints.mkLetterHint 5 (Some "f"%char) 10),
            Hints.mkState (Some clownfish) [5%nat] []) /\
  Hints.getHintPenalty (Hints.mkState (Some clownfish) [5%nat] []) = 10.
Proof.
  split; [reflexivity|]. split; [reflexivity|].
  destruct (revealLetter_accounting clownfish (Hints.init (Some clownfish))
              (Hints.mkState (Some clownfish) [5%nat] []) fiveEighths
              (Hints.mkLetterHint 5 (Some "f"%char) 10) eq_refl eq_refl)
    as (_ & _ & _ & _ & _ & _ & Hpenalty).
  exact Hpenalty.
Defined.

Lemma revealAttribute_accounting_witness :
  Hints.targetFish (Hints.init (Some clownfish)) = Some clownfish /\
  Hints.revealAttribute fiveEighths (Hints.init (Some clownfish)) =
    Return (Some (Hints.mkAttributeHint "family" (Some "Family")
                                        (Some "Pomacentridae") 5),
            Hints.mkState (Some clownfish) [] ["family"]) /\
  Hints.getHintPenalty (Hints.mkState (Some clownfish) [] ["family"]) = 5.
Proof.
  split; [reflexivity|]. split; [reflexivity|].
  destruct (revealAttribute_accounting clownfish (Hints.init (Some clownfish))
              (Hints.mkState (Some clownfish) [] ["family"]) fiveEighths
              (Hints.mkAttributeHint "family" (Some "Family")
                                     (Some "Pomacentridae") 5) eq_refl eq_refl)
    as (_ & _ & _ & _ & _ & _ & _ & Hpenalty).
  exact Hpenalty.
Defined.

Lemma getRevealedAttributesList_defined_witness :
  fullInvariant clownfish (Hints.mkState (Some clownfish) [] ["size"]) /\
  Hints.getRevealedAttributesList (Hints.mkState (Some clownfish) [] ["size"]) =
    Return [Hints.mkRevealedAttribute "size" (Some "Size") (Some "small")].
Proof.
  assert (Hfull : fullInvariant clownfish (Hints.mkState (Some clownfish) [] ["size"])).
  { unfold fullInvariant, ledgerInvariant. simpl.
    repeat split;
      try (repeat constructor; rewrite ?elem_of_cons, ?elem_of_nil; tauto).
    intros x. unfold attributeKeys. rewrite !elem_of_cons, !elem_of_nil. tauto. }
  split; [exact Hfull|].
  destruct (getRevealedAttributesList_defined clownfish
              (Hints.mkState (Some clownfish) [] ["size"]) Hfull)
    as [(entries & Hcall & _ & _) _].
  rewrite Hcall. vm_compute in Hcall. injection Hcall as <-. reflexivity.
Defined.

(** ** The session *)

Section SessionLemmas.
Import Game.

Lemma existsb_guessed (f : FishEntity) (gs : list Guess) :
  existsb (fun g => bool_decide (id (fish g) = id f)) gs = true <->
  id f ∈ map (fun g => id (fish g)) gs.
Proof.
  induction gs as [|g gs IH]; simpl.
  - rewrite elem_of_nil. split; [discriminate|tauto].
  - rewrite orb_true_iff, IH, elem_of_cons, bool_decide_eq_true.
    split; (intros [H|H]; [left; congruence|right; exact H]).
Qed.

Lemma find_member {A} (p : A -> bool) (l : list A) (x : A) :
  find p l = Some x -> x ∈ l.
Proof.
  induction l as [|y l IH]; [discriminate|]. simpl.
  destruct (p y); [intros [= ->]; left|intros H; right; now apply IH].
Qed.

(** The three outcomes of a call of [submitGuess] that returns, in a
    session with a target: the state is left as it is; a repeated guess
    only clears the input; a new guess, of the selected fish or of a
    fish of the database, is compared with the target and appended, the
    win handled and the session saved. *)
Lemma submitGuess_outcome (now : Date) (st st' : State) (target : FishEntity) :
  targetFish st = Some target ->
  submitGuess now st = Return st' ->
  st' = st \/
  st' = withSelectedFish None
          (withAutocomplete (Autocomplete.clear (autocomplete st)) st) \/
  exists f c,
    (selectedFish st = Some f \/ f ∈ fishDatabase st) /\
    gameOver st = false /\
    (id f ∉ map (fun g => id (fish g)) (guesses st)) /\
    compareAttributes f target = Return c /\
    st' = saveGameState now
            (if bool_decide (id f = id target)
             then handleWin (acceptedGuess target f c st)
             else acceptedGuess target f c st).
Proof.
  intros Htarget. unfold submitGuess.
  destruct (gameOver st) eqn:Hover; [intros [= <-]; now left|].
  case_bool_decide as Hblank; [intros [= <-]; now left|].
  destruct (match selectedFish st with Some fish => Some fish | None => _ end)
    as [f|] eqn:Hfound; [|intros [= <-]; now left].
  destruct (existsb _ (guesses st)) eqn:Hdup.
  - intros [= <-]. right. now left.
  - unfold Game.target. rewrite Htarget. cbn [mbind completion_bind].
    destruct (compareAttributes f target) as [c|e] eqn:Hc; [|discriminate].
    cbn [mbind completion_bind]. intros [= <-].
    right. right. exists f, c.
    split.
    { destruct (selectedFish st) as [g|]; [left; congruence|right].
      eapply find_member. exact Hfound. }
    split; [reflexivity|]. split.
    { intros Hin. apply existsb_guessed in Hin. congruence. }
    split; [exact Hc|].
    unfold acceptedGuess. simpl. reflexivity.
Qed.

(** [submitGuess] returns when the fish it may compare with the target
    has a region that names no inherited member. *)
Lemma submitGuess_returns (now : Date) (st : State) (target : FishEntity) :
  targetFish st = Some target ->
  (forall f, selectedFish st = Some f \/ f ∈ fishDatabase st ->
             region (attributes f) ∉ OBJECT_PROTOTYPE) ->
  exists st', submitGuess now st = Return st'.
Proof.
  intros Htarget Hplain. unfold submitGuess.
  destruct (gameOver st); [eexists; reflexivity|].
  case_bool_decide as Hblank; [eexists; reflexivity|].
  destruct (match selectedFish st with Some fish => Some fish | None => _ end)
    as [f|] eqn:Hfound; [|eexists; reflexivity].
  destruct (existsb _ (guesses st)); [eexists; reflexivity|].
  unfold Game.target. rewrite Htarget. cbn [mbind completion_bind].
  assert (Hf : region (attributes f) ∉ OBJECT_PROTOTYPE).
  { apply Hplain. destruct (selectedFish st) as [g|]; [left; congruence|right].
    eapply find_member. exact Hfound. }
  destruct (compareAttributes_returns f target Hf) as [c ->].
  eexists. reflexivity.
Qed.
End SessionLemmas.

Section SessionLemmas2.
Import Game.

Lemma progresses_refl (st : State) : progresses st st.
Proof.
  unfold progresses. repeat split; try reflexivity; try tauto.
  destruct (won st); reflexivity.
Qed.

Lemma progresses_trans (st1 st2 st3 : State) :
  progresses st1 st2 -> progresses st2 st3 -> progresses st1 st3.
Proof.
  intros (Hd1 & Hg1 & Hl1 & Ha1 & Hll1 & Hal1 & Hw1 & Hs1)
         (Hd2 & Hg2 & Hl2 & Ha2 & Hll2 & Hal2 & Hw2 & Hs2).
  unfold progresses.
  split; [congruence|]. split; [etrans; eassumption|].
  split; [etrans; eassumption|]. split; [etrans; eassumption|].
  split; [lia|]. split; [lia|]. split; [tauto|].
  rewrite Hs2, Hs1.
  destruct (won st1) eqn:E1, (won st2) eqn:E2, (won st3) eqn:E3;
    simpl; try reflexivity;
    try (specialize (Hw1 eq_refl); discriminate);
    try (specialize (Hw2 eq_refl); discriminate).
Qed.

(** The invariant does not read the selected fish, nor what
    [Autocomplete] shows. *)
Lemma sessionInvariant_same (target : FishEntity) (st1 st2 : State) :
  sameSession st1 st2 -> sessionInvariant target st1 -> sessionInvariant target st2.
Proof.
  intros (_ & Ht & _ & Hg & Ho & Hw & _ & Hh & Hgf & _ & _).
  unfold sessionInvariant, guessedIds. rewrite Ht, Hg, Ho, Hw, Hh, Hgf. tauto.
Qed.

Lemma progresses_same (st1 st2 : State) : sameSession st1 st2 -> progresses st1 st2.
Proof.
  intros (Hd & _ & _ & Hg & _ & Hw & Hs & Hh & _).
  unfold progresses. rewrite <- Hd, <- Hg, <- Hw, <- Hs, <- Hh.
  apply progresses_refl.
Qed.

Lemma last_snoc_guess (gs : list Guess) (g : Guess) : last (gs ++ [g]) = Some g.
Proof. apply last_snoc. Qed.

(** A recorded guess keeps the invariant. *)
Lemma accepted_invariant (now : Date) (target f : FishEntity) (c : Comparison)
    (st : State) :
  sessionInvariant target st ->
  gameOver st = false ->
  id f ∉ guessedIds st ->
  compareAttributes f target = Return c ->
  let st' := saveGameState now
               (if bool_decide (id f = id target)
                then handleWin (acceptedGuess target f c st)
                else acceptedGuess target f c st) in
  sessionInvariant target st' /\ progresses st st' /\
  guesses st' = guesses st ++ [mkGuess f c (bool_decide (id f = id target))] /\
  won st' = bool_decide (id f = id target) /\
  hints st' = hints st.
Proof.
  intros (Ht & Hh & Hnd & Hgf & Hall & Hover & Hwon & Hearly) Hrun Hfresh Hc st'.
  assert (Hw0 : won st = false) by congruence.
  assert (Hg : guesses st' = guesses st ++ [mkGuess f c (bool_decide (id f = id target))]).
  { subst st'. unfold acceptedGuess.
    destruct (bool_decide (id f = id target)); reflexivity. }
  assert (Hw : won st' = bool_decide (id f = id target)).
  { subst st'. unfold acceptedGuess.
    destruct (bool_decide (id f = id target)); simpl; [reflexivity|exact Hw0]. }
  assert (Ho : gameOver st' = bool_decide (id f = id target)).
  { subst st'. unfold acceptedGuess.
    destruct (bool_decide (id f = id target)); simpl; [reflexivity|exact Hrun]. }
  assert (Hhi : hints st' = hints st).
  { subst st'. destruct (bool_decide (id f = id target)); reflexivity. }
  assert (Hac : Autocomplete.guessedFish (autocomplete st')
                = map (fun g => id (fish g)) (guesses st')).
  { rewrite Hg. subst st'. unfold acceptedGuess.
    destruct (bool_decide (id f = id target)); reflexivity. }
  split; [|split; [|repeat split; assumption]].
  - unfold sessionInvariant, guessedIds. rewrite Hhi, Hac, Hg, Hw, Ho.
    split; [subst st'; destruct (bool_decide (id f = id target)); exact Ht|].
    split; [exact Hh|]. split.
    { rewrite map_app. simpl. apply NoDup_app. split; [exact Hnd|].
      split; [|apply NoDup_singleton].
      intros x Hx Hx'. apply list_elem_of_singleton in Hx' as ->. contradiction. }
    split; [reflexivity|]. split.
    { apply Forall_app. split; [exact Hall|]. apply Forall_singleton.
      split; [exact Hc|reflexivity]. }
    split; [reflexivity|]. split.
    { rewrite last_snoc. split.
      - intros E. eexists. split; [reflexivity|exact E].
      - intros (g & Hlast & Hg'). injection Hlast as <-. exact Hg'. }
    intros i g Hi Hlt. rewrite length_app in Hlt. simpl in Hlt.
    rewrite lookup_app_l in Hi by lia.
    destruct (decide (S i < length (guesses st))%nat) as [Hin|Hlast];
      [now apply (Hearly i)|].
    destruct (correct g) eqn:Hcg; [|reflexivity].
    assert (Hl : last (guesses st) = Some g).
    { rewrite last_lookup. rewrite <- Hi. f_equal. lia. }
    assert (won st = true) by (apply Hwon; eauto). congruence.
  - unfold progresses. rewrite Hg, Hhi, Hw, Hw0.
    split; [subst st'; destruct (bool_decide (id f = id target)); reflexivity|].
    split; [now apply prefix_app_r|].
    split; [reflexivity|]. split; [reflexivity|].
    split; [lia|]. split; [lia|]. split; [discriminate|].
    subst st'. destruct (bool_decide (id f = id target)); reflexivity.
Qed.

(** A call of [submitGuess] that returns keeps the invariant. *)
Lemma submitGuess_invariant (now : Date) (target : FishEntity) (st st' : State) :
  sessionInvariant target st ->
  submitGuess now st = Return st' ->
  sessionInvariant target st' /\ progresses st st' /\ hints st' = hints st.
Proof.
  intros Hinv Hcall. pose proof Hinv as (Ht & _).
  destruct (submitGuess_outcome now st st' target Ht Hcall)
    as [->|[->|(f & c & _ & Hrun & Hfresh & Hc & ->)]].
  - split; [exact Hinv|]. split; [apply progresses_refl|reflexivity].
  - assert (Hsame : sameSession st
              (withSelectedFish None
                 (withAutocomplete (Autocomplete.clear (autocomplete st)) st)))
      by (unfold sameSession; simpl; tauto).
    split; [exact (sessionInvariant_same _ _ _ Hsame Hinv)|].
    split; [exact (progresses_same _ _ Hsame)|reflexivity].
  - destruct (accepted_invariant now target f c st Hinv Hrun Hfresh Hc)
      as (H1 & H2 & _ & _ & H3).
    split; [exact H1|]. split; [exact H2|exact H3].
Qed.
End SessionLemmas2.

Section SessionLemmas3.
Import Game.

(** Both reveal operations return normally on a ledger with a target,
    keep the target and only add to the revealed lists. *)
Lemma revealLetter_grows (rnd : RandomDraw) (h : Hints.State) (target : FishEntity) :
  Hints.targetFish h = Some target ->
  exists r h', Hints.revealLetter rnd h = Return (r, h') /\
    Hints.targetFish h' = Some target /\
    Hints.revealedLetters h ⊆ Hints.revealedLetters h' /\
    (length (Hints.revealedLetters h) <= length (Hints.revealedLetters h'))%nat /\
    Hints.revealedAttributes h' = Hints.revealedAttributes h.
Proof.
  intros Ht.
  destruct (revealLetter_cases rnd h target Ht) as [[_ H]|(p & _ & H)];
    eexists _, _; (split; [exact H|]); simpl.
  - repeat split; [exact Ht|reflexivity|lia].
  - split; [reflexivity|]. split.
    + intros x Hx. rewrite merge_sort_Permutation. apply elem_of_app. now left.
    + split; [|reflexivity].
      rewrite merge_sort_Permutation, length_app. simpl. lia.
Qed.

Lemma revealAttribute_grows (rnd : RandomDraw) (h : Hints.State) (target : FishEntity) :
  Hints.targetFish h = Some target ->
  exists r h', Hints.revealAttribute rnd h = Return (r, h') /\
    Hints.targetFish h' = Some target /\
    Hints.revealedAttributes h ⊆ Hints.revealedAttributes h' /\
    (length (Hints.revealedAttributes h) <= length (Hints.revealedAttributes h'))%nat /\
    Hints.revealedLetters h' = Hints.revealedLetters h.
Proof.
  intros Ht.
  destruct (revealAttribute_cases rnd h target Ht) as [[_ H]|(p & _ & H)];
    eexists _, _; (split; [exact H|]); simpl.
  - repeat split; [exact Ht|reflexivity|lia].
  - split; [reflexivity|]. split.
    + intros x Hx. apply elem_of_app. now left.
    + split; [|reflexivity]. rewrite length_app. simpl. lia.
Qed.

Lemma withHints_same (st : State) : withHints (hints st) st = st.
Proof. destruct st; reflexivity. Qed.

(** The display updates return normally when [Hints] has a target. *)
Lemma updateNameBlanks_returns (st : State) (target : FishEntity) :
  Hints.targetFish (hints st) = Some target -> updateNameBlanks st = Return tt.
Proof.
  intros Hh. unfold updateNameBlanks, Hints.getNameDisplay, Hints.target.
  rewrite Hh. reflexivity.
Qed.

Lemma updateHintsDisplay_returns (st : State) (target : FishEntity) :
  Hints.targetFish (hints st) = Some target -> updateHintsDisplay st = Return tt.
Proof.
  intros Hh.
  unfold updateHintsDisplay, Hints.canRevealLetter, Hints.canRevealAttribute,
    Hints.getRevealedAttributesList, Hints.getLetterPositions, Hints.target.
  rewrite Hh.
  destruct (gameOver st), (Hints.revealedAttributes (hints st)); reflexivity.
Qed.

(** The two outcomes of a hint button: the session is left as it is, or
    a hint is revealed and the session saved. *)
Lemma useLetterHint_cases (rnd : RandomDraw) (now : Date) (target : FishEntity)
    (st : State) :
  Hints.targetFish (hints st) = Some target ->
  exists st', useLetterHint rnd now st = Return st' /\
    (st' = st \/
     exists hint h',
       Hints.revealLetter rnd (hints st) = Return (Some hint, h') /\
       st' = saveGameState now (withHints h' st)).
Proof.
  intros Hh. unfold useLetterHint.
  destruct (gameOver st); [exists st; split; [reflexivity|now left]|].
  unfold Hints.canRevealLetter, Hints.getLetterPositions, Hints.target.
  rewrite Hh. simpl.
  destruct (bool_decide _); simpl; [|exists st; split; [reflexivity|now left]].
  destruct (revealLetter_grows rnd (hints st) target Hh)
    as (r & h' & Hcall & Ht' & _).
  rewrite Hcall. cbn [mbind completion_bind fst snd].
  destruct r as [hint|].
  - rewrite (updateNameBlanks_returns (withHints h' st) target Ht').
    eexists. split; [reflexivity|]. right. eauto.
  - destruct (revealLetter_cases rnd (hints st) target Hh) as [[_ H]|(p & _ & H)];
      rewrite H in Hcall; [|discriminate].
    injection Hcall as <-. rewrite withHints_same.
    exists st. split; [reflexivity|now left].
Qed.

Lemma useAttributeHint_cases (rnd : RandomDraw) (now : Date) (target : FishEntity)
    (st : State) :
  Hints.targetFish (hints st) = Some target ->
  exists st', useAttributeHint rnd now st = Return st' /\
    (st' = st \/
     exists hint h',
       Hints.revealAttribute rnd (hints st) = Return (Some hint, h') /\
       st' = saveGameState now (withHints h' st)).
Proof.
  intros Hh. unfold useAttributeHint.
  destruct (gameOver st) eqn:Hover; [exists st; split; [reflexivity|now left]|].
  unfold Hints.canRevealAttribute, Hints.target.
  rewrite Hh. simpl.
  destruct (bool_decide _); simpl; [|exists st; split; [reflexivity|now left]].
  destruct (revealAttribute_grows rnd (hints st) target Hh)
    as (r & h' & Hcall & Ht' & _).
  rewrite Hcall. cbn [mbind completion_bind fst snd].
  destruct r as [hint|].
  - rewrite (updateHintsDisplay_returns (withHints h' st) target Ht').
    eexists. split; [reflexivity|]. right. eauto.
  - destruct (revealAttribute_cases rnd (hints st) target Hh) as [[_ H]|(p & _ & H)];
      rewrite H in Hcall; [|discriminate].
    injection Hcall as <-. rewrite withHints_same.
    exists st. split; [reflexivity|now left].
Qed.

(** Replacing the ledger by one that grew from it keeps the invariant. *)
Lemma withHints_invariant (target : FishEntity) (st : State) (h' : Hints.State) :
  sessionInvariant target st ->
  Hints.targetFish h' = Some target ->
  Hints.revealedLetters (hints st) ⊆ Hints.revealedLetters h' ->
  Hints.revealedAttributes (hints st) ⊆ Hints.revealedAttributes h' ->
  (length (Hints.revealedLetters (hints st)) <= length (Hints.revealedLetters h'))%nat ->
  (length (Hints.revealedAttributes (hints st))
   <= length (Hints.revealedAttributes h'))%nat ->
  forall st', (st' = withHints h' st \/ exists now, st' = saveGameState now (withHints h' st)) ->
  sessionInvariant target st' /\ progresses st st' /\ hints st' = h'.
Proof.
  intros (Ht & Hh & Hnd & Hgf & Hall & Hover & Hwon & Hearly) Ht' Hl Ha Hll Hal st' Hst'.
  assert (Hfields : targetFish st' = targetFish st /\ hints st' = h' /\
                    guesses st' = guesses st /\ gameOver st' = gameOver st /\
                    won st' = won st /\ stats st' = stats st /\
                    autocomplete st' = autocomplete st /\
                    fishDatabase st' = fishDatabase st).
  { destruct Hst' as [->|[now ->]]; simpl; tauto. }
  destruct Hfields as (E1 & E2 & E3 & E4 & E5 & E6 & E7 & E8).
  split; [|split; [|exact E2]].
  - unfold sessionInvariant, guessedIds. rewrite E1, E2, E3, E4, E5, E7. tauto.
  - unfold progresses. rewrite E2, E3, E5, E6, E8.
    repeat (split; [reflexivity || assumption|]).
    split; [tauto|]. destruct (won st); reflexivity.
Qed.

Lemma useLetterHint_invariant (rnd : RandomDraw) (now : Date)
    (target : FishEntity) (st : State) :
  sessionInvariant target st ->
  exists st', useLetterHint rnd now st = Return st' /\
              sessionInvariant target st' /\ progresses st st' /\
              (hints st' = hints st \/
               exists r, Hints.revealLetter rnd (hints st) = Return (r, hints st')).
Proof.
  intros Hinv. pose proof Hinv as (_ & Hh & _).
  destruct (useLetterHint_cases rnd now target st Hh)
    as (st' & Hcall & [->|(hint & h' & Hreveal & ->)]);
    eexists; (split; [exact Hcall|]).
  { split; [exact Hinv|]. split; [apply progresses_refl|now left]. }
  destruct (revealLetter_grows rnd (hints st) target Hh)
    as (r & h'' & Hcall' & Ht' & Hl & Hll & Ha).
  rewrite Hreveal in Hcall'. injection Hcall' as <- <-.
  assert (Hsub : Hints.revealedAttributes (hints st) ⊆ Hints.revealedAttributes h')
    by (rewrite Ha; reflexivity).
  assert (Hlen : (length (Hints.revealedAttributes (hints st))
                  <= length (Hints.revealedAttributes h'))%nat)
    by (rewrite Ha; lia).
  destruct (withHints_invariant target st h' Hinv Ht' Hl Hsub Hll Hlen
              (saveGameState now (withHints h' st))) as (H1 & H2 & H3);
    [right; eexists; reflexivity|].
  split; [exact H1|]. split; [exact H2|]. right. exists (Some hint).
  rewrite H3. exact Hreveal.
Qed.

Lemma useAttributeHint_invariant (rnd : RandomDraw) (now : Date)
    (target : FishEntity) (st : State) :
  sessionInvariant target st ->
  exists st', useAttributeHint rnd now st = Return st' /\
              sessionInvariant target st' /\ progresses st st' /\
              (hints st' = hints st \/
               exists r, Hints.revealAttribute rnd (hints st) = Return (r, hints st')).
Proof.
  intros Hinv. pose proof Hinv as (_ & Hh & _).
  destruct (useAttributeHint_cases rnd now target st Hh)
    as (st' & Hcall & [->|(hint & h' & Hreveal & ->)]);
    eexists; (split; [exact Hcall|]).
  { split; [exact Hinv|]. split; [apply progresses_refl|now left]. }
  destruct (revealAttribute_grows rnd (hints st) target Hh)
    as (r & h'' & Hcall' & Ht' & Ha & Hal & Hl).
  rewrite Hreveal in Hcall'. injection Hcall' as <- <-.
  assert (Hsub : Hints.revealedLetters (hints st) ⊆ Hints.revealedLetters h')
    by (rewrite Hl; reflexivity).
  assert (Hlen : (length (Hints.revealedLetters (hints st))
                  <= length (Hints.revealedLetters h'))%nat)
    by (rewrite Hl; lia).
  destruct (withHints_invariant target st h' Hinv Ht' Hsub Ha Hlen Hal
              (saveGameState now (withHints h' st))) as (H1 & H2 & H3);
    [right; eexists; reflexivity|].
  split; [exact H1|]. split; [exact H2|]. right. exists (Some hint).
  rewrite H3. exact Hreveal.
Qed.

(** What [Autocomplete] shows changes neither its database nor the set
    of guessed ids. *)
Lemma handleInput_keeps (ac : Autocomplete.State) :
  Autocomplete.guessedFish (Autocomplete.handleInput ac) = Autocomplete.guessedFish ac /\
  Autocomplete.fishDatabase (Autocomplete.handleInput ac) = Autocomplete.fishDatabase ac.
Proof.
  unfold Autocomplete.handleInput.
  repeat case_bool_decide; simpl; tauto.
Qed.

Lemma handleKeydown_keeps (key : Autocomplete.Key) (ac : Autocomplete.State) :
  Autocomplete.guessedFish (Autocomplete.handleKeydown key ac).1
    = Autocomplete.guessedFish ac /\
  Autocomplete.fishDatabase (Autocomplete.handleKeydown key ac).1
    = Autocomplete.fishDatabase ac.
Proof.
  unfold Autocomplete.handleKeydown.
  case_bool_decide; [simpl; tauto|].
  destruct key; simpl; try tauto.
  destruct (if -1 <? Autocomplete.currentFocus ac then _ else None) as [item|].
  - destruct (find _ _); simpl; tauto.
  - case_bool_decide; [|simpl; tauto].
    destruct (Autocomplete.items ac !! 0%nat); [|simpl; tauto].
    destruct (find _ _); simpl; tauto.
Qed.

(** The items [Autocomplete] offers, and the fish it selects, are fish
    of its database. *)
Lemma handleInput_items (ac : Autocomplete.State) :
  Forall (fun f => f ∈ Autocomplete.fishDatabase ac)
         (Autocomplete.items (Autocomplete.handleInput ac)).
Proof.
  unfold Autocomplete.handleInput.
  case_bool_decide; [constructor|].
  case_bool_decide; [constructor|]. simpl.
  apply Forall_forall. intros f Hf. unfold Autocomplete.matchesOf in Hf.
  apply elem_of_take in Hf as (i & Hf & _).
  apply list_elem_of_lookup_2 in Hf. apply list_elem_of_filter in Hf as [_ Hf].
  exact Hf.
Qed.

Lemma handleKeydown_items (key : Autocomplete.Key) (ac : Autocomplete.State) :
  Forall (fun f => f ∈ Autocomplete.fishDatabase ac) (Autocomplete.items ac) ->
  Forall (fun f => f ∈ Autocomplete.fishDatabase ac)
         (Autocomplete.items (Autocomplete.handleKeydown key ac).1) /\
  (forall f, (Autocomplete.handleKeydown key ac).2 = Some f ->
             f ∈ Autocomplete.fishDatabase ac).
Proof.
  intros Hitems. unfold Autocomplete.handleKeydown.
  case_bool_decide; [simpl; split; [exact Hitems|discriminate]|].
  assert (Hsel : forall item,
    Forall (fun f => f ∈ Autocomplete.fishDatabase ac)
      (Autocomplete.items
         (match find (fun f => bool_decide (id f = id item))
                     (Autocomplete.fishDatabase ac) with
          | Some fish => (Autocomplete.selectItem fish ac, Some fish)
          | None => (ac, None)
          end).1) /\
    (forall f,
       (match find (fun f => bool_decide (id f = id item))
                   (Autocomplete.fishDatabase ac) with
        | Some fish => (Autocomplete.selectItem fish ac, Some fish)
        | None => (ac, None)
        end).2 = Some f -> f ∈ Autocomplete.fishDatabase ac)).
  { intros item. destruct (find _ _) as [fish|] eqn:Hfind; simpl.
    - split; [constructor|]. intros f [= <-]. eapply find_member. exact Hfind.
    - split; [exact Hitems|discriminate]. }
  destruct key; simpl; try (split; [exact Hitems|discriminate]).
  - destruct (if -1 <? Autocomplete.currentFocus ac then _ else None) as [item|];
      [apply Hsel|].
    case_bool_decide; [|simpl; split; [exact Hitems|discriminate]].
    destruct (Autocomplete.items ac !! 0%nat);
      [apply Hsel|simpl; split; [exact Hitems|discriminate]].
  - split; [constructor|discriminate].
Qed.

Lemma sameSession_trans (st1 st2 st3 : State) :
  sameSession st1 st2 -> sameSession st2 st3 -> sameSession st1 st3.
Proof.
  unfold sameSession. intros H1 H2.
  destruct H1 as (?&?&?&?&?&?&?&?&?&?&?), H2 as (?&?&?&?&?&?&?&?&?&?&?).
  repeat split; congruence.
Qed.

(** A sequence of actions returns when its first action returns and the
    others return from the state it leaves. *)
Lemma run_cons (now : Date) (action : Action) (rest : list (Date * Action))
    (st st' : State) :
  run ((now, action) :: rest) st = Return st' <->
  exists st1, step now action st = Return st1 /\ run rest st1 = Return st'.
Proof.
  change (run ((now, action) :: rest) st)
    with (st1 ← step now action st; run rest st1).
  destruct (step now action st) as [st1|e]; cbn [mbind completion_bind].
  - split; [intros H; exists st1; split; [reflexivity|exact H]|].
    intros (st2 & [= <-] & H). exact H.
  - split; [discriminate|]. intros (st2 & H & _). discriminate.
Qed.

(** An action that returns keeps the invariant. *)
Lemma step_invariant (now : Date) (action : Action) (target : FishEntity)
    (st st' : State) :
  sessionInvariant target st ->
  step now action st = Return st' ->
  sessionInvariant target st' /\ progresses st st'.
Proof.
  intros Hinv. destruct action as [text|key|index| |rnd|rnd]; simpl.
  - assert (Hsame : sameSession st
              (withAutocomplete (typeText text (autocomplete st)) st)).
    { unfold sameSession, typeText. simpl.
      destruct (handleInput_keeps
                  (Autocomplete.mkState (Autocomplete.fishDatabase (autocomplete st))
                     text (Autocomplete.inputDisabled (autocomplete st))
                     (Autocomplete.items (autocomplete st))
                     (Autocomplete.currentFocus (autocomplete st))
                     (Autocomplete.guessedFish (autocomplete st)))) as [-> ->].
      simpl. tauto. }
    intros [= <-].
    split; [exact (sessionInvariant_same _ _ _ Hsame Hinv)|exact (progresses_same _ _ Hsame)].
  - destruct (handleKeydown_keeps key (autocomplete st)) as [Hg Hd].
    set (result := Autocomplete.handleKeydown key (autocomplete st)) in *.
    assert (Hsame : forall sel, sameSession st
              (withSelectedFish sel (withAutocomplete result.1 st))).
    { intros sel. unfold sameSession. simpl. rewrite Hg, Hd. tauto. }
    destruct result.2 as [fish|].
    + unfold handleFishSelect. intros Hcall.
      destruct (submitGuess_invariant now target _ _
                  (sessionInvariant_same _ _ _ (Hsame (Some fish)) Hinv) Hcall)
        as (Hinv' & Hprog & _).
      split; [exact Hinv'|].
      exact (progresses_trans _ _ _ (progresses_same _ _ (Hsame (Some fish))) Hprog).
    + assert (Hsame' : sameSession st (withAutocomplete result.1 st)).
      { unfold sameSession. simpl. rewrite Hg, Hd. tauto. }
      intros [= <-].
      split; [exact (sessionInvariant_same _ _ _ Hsame' Hinv)
             |exact (progresses_same _ _ Hsame')].
  - destruct (Autocomplete.items (autocomplete st) !! index) as [fish|].
    + assert (Hsame : sameSession st
                (withSelectedFish (Some fish)
                   (withAutocomplete
                      (Autocomplete.selectItem fish (autocomplete st)) st)))
        by (unfold sameSession; simpl; tauto).
      unfold handleFishSelect. intros Hcall.
      destruct (submitGuess_invariant now target _ _
                  (sessionInvariant_same _ _ _ Hsame Hinv) Hcall)
        as (Hinv' & Hprog & _).
      split; [exact Hinv'|].
      exact (progresses_trans _ _ _ (progresses_same _ _ Hsame) Hprog).
    + intros [= <-]. split; [exact Hinv|apply progresses_refl].
  - intros Hcall.
    destruct (submitGuess_invariant now target st st' Hinv Hcall) as (H1 & H2 & _).
    split; assumption.
  - intros Hcall.
    destruct (useLetterHint_invariant rnd now target st Hinv) as (st1 & H1 & H2 & H3 & _).
    pose proof (eq_trans (eq_sym H1) Hcall) as E. injection E as <-.
    split; assumption.
  - intros Hcall.
    destruct (useAttributeHint_invariant rnd now target st Hinv)
      as (st1 & H1 & H2 & H3 & _).
    pose proof (eq_trans (eq_sym H1) Hcall) as E. injection E as <-.
    split; assumption.
Qed.

Lemma run_invariant (actions : list (Date * Action)) (target : FishEntity)
    (st st' : State) :
  sessionInvariant target st ->
  run actions st = Return st' ->
  sessionInvariant target st' /\ progresses st st'.
Proof.
  revert st. induction actions as [|[now action] rest IH]; intros st Hinv Hrun.
  - injection Hrun as <-. split; [exact Hinv|apply progresses_refl].
  - apply run_cons in Hrun as (st1 & Hstep & Hrun).
    destruct (step_invariant now action target st st1 Hinv Hstep) as [Hinv1 Hp1].
    destruct (IH st1 Hinv1 Hrun) as [Hinv' Hp'].
    split; [exact Hinv'|exact (progresses_trans _ _ _ Hp1 Hp')].
Qed.

(** A call of [submitGuess] that returns, on a session whose fish are
    those of the database: the outcome is such a session again, its
    counters are the stored ones if they were, and it either differs
    from the session only in what is shown or was just saved. *)
Lemma submitGuess_shape (now : Date) (target : FishEntity) (st st' : State) :
  targetFish st = Some target -> fromDatabase st ->
  submitGuess now st = Return st' ->
  fromDatabase st' /\ (statsPersisted st -> statsPersisted st') /\
  (sameSession st st' \/ exists X, st' = saveGameState now X).
Proof.
  intros Ht (Hdb & Hitems & Hsel & Hgs) Hcall.
  destruct (submitGuess_outcome now st st' target Ht Hcall)
    as [->|[->|(f & c & Hf & _ & _ & _ & ->)]].
  - split; [repeat split; assumption|]. split; [intros H; exact H|].
    left. unfold sameSession. tauto.
  - split; [|split; [intros H; exact H|left; unfold sameSession; simpl; tauto]].
    unfold fromDatabase. simpl. repeat split; try assumption;
      [constructor|discriminate].
  - assert (Hin : f ∈ fishDatabase st) by (destruct Hf; auto).
    split; [|split; [|right; eexists; reflexivity]].
    + unfold fromDatabase, acceptedGuess.
      destruct (bool_decide (id f = id target)); simpl;
        (split; [exact Hdb|]); (split; [constructor|]);
        (split; [discriminate|]);
        (apply Forall_app; split; [exact Hgs|]);
        repeat constructor; exact Hin.
    + unfold statsPersisted, acceptedGuess.
      destruct (bool_decide (id f = id target)); simpl; intros Hstats;
        [reflexivity|exact Hstats].
Qed.

(** Every action that returns has the shape of [submitGuess_shape]. *)
Lemma step_shape (now : Date) (action : Action) (target : FishEntity)
    (st st' : State) :
  sessionInvariant target st -> fromDatabase st ->
  step now action st = Return st' ->
  fromDatabase st' /\ (statsPersisted st -> statsPersisted st') /\
  (sameSession st st' \/ exists X, st' = saveGameState now X).
Proof.
  intros Hinv Hfrom.
  pose proof Hinv as (Ht & Hh & _).
  pose proof Hfrom as (Hdb & Hitems & Hsel & Hgs).
  assert (Hrefl : sameSession st st) by (unfold sameSession; tauto).
  destruct action as [text|key|index| |rnd|rnd]; simpl.
  - unfold typeText.
    remember (Autocomplete.mkState (Autocomplete.fishDatabase (autocomplete st))
                text (Autocomplete.inputDisabled (autocomplete st))
                (Autocomplete.items (autocomplete st))
                (Autocomplete.currentFocus (autocomplete st))
                (Autocomplete.guessedFish (autocomplete st))) as ac eqn:Hac.
    assert (Hacd : Autocomplete.fishDatabase ac = fishDatabase st)
      by (subst ac; exact Hdb).
    assert (Hacg : Autocomplete.guessedFish ac
                   = Autocomplete.guessedFish (autocomplete st))
      by (subst ac; reflexivity).
    destruct (handleInput_keeps ac) as [Hg Hd].
    pose proof (handleInput_items ac) as Hi.
    rewrite Hacd in Hi, Hd. rewrite Hacg in Hg.
    intros [= <-].
    split; [|split; [intros H; exact H
                    |left; unfold sameSession; simpl; rewrite Hg, Hd; tauto]].
    unfold fromDatabase. simpl. repeat split; assumption.
  - destruct (handleKeydown_keeps key (autocomplete st)) as [Hg Hd].
    assert (Hitems' : Forall (fun f => f ∈ Autocomplete.fishDatabase (autocomplete st))
                             (Autocomplete.items (autocomplete st)))
      by (rewrite Hdb; exact Hitems).
    destruct (handleKeydown_items key (autocomplete st) Hitems') as [Hi Hr].
    set (result := Autocomplete.handleKeydown key (autocomplete st)) in *.
    assert (Hsame : forall sel, sameSession st
              (withSelectedFish sel (withAutocomplete result.1 st)))
      by (intros sel; unfold sameSession; simpl; rewrite Hg, Hd; tauto).
    destruct result.2 as [fish|] eqn:Hres.
    + unfold handleFishSelect. intros Hcall.
      destruct (submitGuess_shape now target
                  (withSelectedFish (Some fish) (withAutocomplete result.1 st)) st')
        as (Hfrom' & Hstats' & Hshape).
      * exact Ht.
      * unfold fromDatabase. simpl. rewrite Hd.
        repeat split; try assumption.
        -- rewrite <- Hdb. exact Hi.
        -- intros f [= <-]. rewrite <- Hdb. now apply Hr.
      * exact Hcall.
      * split; [exact Hfrom'|]. split; [exact Hstats'|].
        destruct Hshape as [Hs|Hs]; [left|right; exact Hs].
        exact (sameSession_trans _ _ _ (Hsame _) Hs).
    + intros [= <-].
      split; [|split; [intros H; exact H
                      |left; unfold sameSession; simpl; rewrite Hg, Hd; tauto]].
      unfold fromDatabase. simpl. rewrite Hd.
      repeat split; try assumption. rewrite <- Hdb. exact Hi.
  - destruct (Autocomplete.items (autocomplete st) !! index) as [fish|] eqn:Hitem.
    + unfold handleFishSelect. intros Hcall.
      assert (Hfish : fish ∈ fishDatabase st).
      { rewrite Forall_forall in Hitems. apply Hitems.
        eapply list_elem_of_lookup_2. exact Hitem. }
      destruct (submitGuess_shape now target
                  (withSelectedFish (Some fish)
                     (withAutocomplete
                        (Autocomplete.selectItem fish (autocomplete st)) st)) st')
        as (Hfrom' & Hstats' & Hshape).
      * exact Ht.
      * unfold fromDatabase. simpl.
        repeat split; try assumption; [constructor|].
        intros f [= <-]. exact Hfish.
      * exact Hcall.
      * split; [exact Hfrom'|]. split; [exact Hstats'|].
        destruct Hshape as [Hs|Hs]; [left|right; exact Hs].
        refine (sameSession_trans _ _ _ _ Hs).
        unfold sameSession. simpl. tauto.
    + intros [= <-]. tauto.
  - exact (submitGuess_shape now target st st' Ht Hfrom).
  - intros Hcall.
    destruct (useLetterHint_cases rnd now target st Hh)
      as (st1 & Hcall1 & Hcases).
    pose proof (eq_trans (eq_sym Hcall1) Hcall) as E. injection E as <-.
    destruct Hcases as [->|(hint & h' & _ & ->)]; [tauto|].
    split; [exact Hfrom|]. split; [intros H; exact H|]. right. eexists. reflexivity.
  - intros Hcall.
    destruct (useAttributeHint_cases rnd now target st Hh)
      as (st1 & Hcall1 & Hcases).
    pose proof (eq_trans (eq_sym Hcall1) Hcall) as E. injection E as <-.
    destruct Hcases as [->|(hint & h' & _ & ->)]; [tauto|].
    split; [exact Hfrom|]. split; [intros H; exact H|]. right. eexists. reflexivity.
Qed.

(** No action fails on a session whose fish are those of a database
    with plain regions. *)
Lemma step_returns (now : Date) (action : Action) (target : FishEntity) (st : State) :
  sessionInvariant target st -> fromDatabase st -> plainRegions (fishDatabase st) ->
  exists st', step now action st = Return st'.
Proof.
  intros Hinv (Hdb & Hitems & Hsel & _) Hplain.
  pose proof Hinv as (Ht & Hh & _).
  unfold plainRegions in Hplain. rewrite Forall_forall in Hplain.
  destruct action as [text|key|index| |rnd|rnd]; simpl.
  - eexists. reflexivity.
  - assert (Hitems' : Forall (fun f => f ∈ Autocomplete.fishDatabase (autocomplete st))
                             (Autocomplete.items (autocomplete st)))
      by (rewrite Hdb; exact Hitems).
    destruct (handleKeydown_items key (autocomplete st) Hitems') as [_ Hr].
    destruct (Autocomplete.handleKeydown key (autocomplete st)).2 as [fish|];
      [|eexists; reflexivity].
    unfold handleFishSelect.
    apply (submitGuess_returns now _ target); [exact Ht|].
    simpl. intros f [[= <-]|Hf]; apply Hplain; [|exact Hf].
    rewrite <- Hdb. now apply Hr.
  - destruct (Autocomplete.items (autocomplete st) !! index) as [fish|] eqn:Hitem;
      [|eexists; reflexivity].
    unfold handleFishSelect.
    apply (submitGuess_returns now _ target); [exact Ht|].
    simpl. intros f [[= <-]|Hf]; apply Hplain; [|exact Hf].
    rewrite Forall_forall in Hitems. apply Hitems.
    eapply list_elem_of_lookup_2. exact Hitem.
  - apply (submitGuess_returns now st target Ht).
    intros f [Hf|Hf]; apply Hplain; [now apply Hsel|exact Hf].
  - destruct (useLetterHint_cases rnd now target st Hh) as (st' & Hcall & _).
    exists st'. exact Hcall.
  - destruct (useAttributeHint_cases rnd now target st Hh) as (st' & Hcall & _).
    exists st'. exact Hcall.
Qed.

Lemma run_returns (actions : list (Date * Action)) (target : FishEntity) (st : State) :
  sessionInvariant target st -> fromDatabase st -> plainRegions (fishDatabase st) ->
  exists st', run actions st = Return st' /\ fromDatabase st'.
Proof.
  revert st. induction actions as [|[now action] rest IH]; intros st Hinv Hfrom Hplain.
  - exists st. split; [reflexivity|exact Hfrom].
  - destruct (step_returns now action target st Hinv Hfrom Hplain) as [st1 Hstep].
    destruct (step_invariant now action target st st1 Hinv Hstep)
      as (Hinv1 & Hdb1 & _).
    destruct (step_shape now action target st st1 Hinv Hfrom Hstep) as (Hfrom1 & _).
    rewrite <- Hdb1 in Hplain.
    destruct (IH st1 Hinv1 Hfrom1 Hplain) as (st' & Hrun & Hfrom').
    exists st'. split; [|exact Hfrom'].
    apply run_cons. exists st1. split; assumption.
Qed.
End SessionLemmas3.

(** X9. Take a session with a target whose items, selected fish and
    guesses are fish of its database, and a database in which no region
    is the name of a member that objects inherit from
    [Object.prototype]. Then no sequence of user actions makes a handler
    fail, and every state reached satisfies the session invariant: no
    fish is guessed twice, each guess carries its comparison with the
    target, the session is over exactly when it is won, and only the
    last guess can be the correct one. Guesses and revealed hints are
    never lost, the target and the database stay the same, and the fish
    of the session are still fish of the database. *)
Theorem run_keeps_session_invariant (target : FishEntity)
    (actions : list (Date * Action)) (st : Game.State) :
  sessionInvariant target st ->
  fromDatabase st ->
  plainRegions (Game.fishDatabase st) ->
  exists st',
    run actions st = Return st' /\
    sessionInvariant target st' /\
    fromDatabase st' /\
    Game.fishDatabase st' = Game.fishDatabase st /\
    Game.guesses st `prefix_of` Game.guesses st' /\
    Hints.revealedLetters (Game.hints st) ⊆ Hints.revealedLetters (Game.hints st') /\
    Hints.revealedAttributes (Game.hints st)
      ⊆ Hints.revealedAttributes (Game.hints st').
Proof.
  intros Hinv Hfrom Hplain.
  destruct (run_returns actions target st Hinv Hfrom Hplain) as (st' & Hrun & Hfrom').
  destruct (run_invariant actions target st st' Hinv Hrun)
    as (Hinv' & Hd & Hg & Hl & Ha & _).
  exists st'. split; [exact Hrun|]. split; [exact Hinv'|]. split; [exact Hfrom'|].
  split; [exact Hd|]. split; [exact Hg|]. split; [exact Hl|exact Ha].
Qed.

Lemma sampleSession_invariant : sessionInvariant clownfish sampleSession.
Proof.
  unfold sessionInvariant, guessedIds, sampleSession. simpl.
  repeat split; try constructor; try discriminate;
    try (intros (g & Hg & _); discriminate).
Qed.

Lemma sampleSession_fromDatabase : fromDatabase sampleSession.
Proof.
  unfold fromDatabase, sampleSession. simpl.
  repeat split; try constructor. discriminate.
Qed.

Lemma sampleDatabase_plainRegions : plainRegions sampleDatabase.
Proof.
  unfold plainRegions, sampleDatabase.
  repeat (apply Forall_cons; split;
          [unfold OBJECT_PROTOTYPE; rewrite !elem_of_cons, elem_of_nil;
           intuition discriminate|]).
  apply Forall_nil_2.
Qed.

Lemma run_keeps_session_invariant_witness :
  sessionInvariant clownfish sampleSession /\
  fromDatabase sampleSession /\
  plainRegions (Game.fishDatabase sampleSession) /\
  exists st', run sampleActions sampleSession = Return st' /\
              guessedIds st' = ["Goldfish"; "Clownfish"] /\
              Game.won st' = true.
Proof.
  split; [exact sampleSession_invariant|].
  split; [exact sampleSession_fromDatabase|].
  split; [exact sampleDatabase_plainRegions|].
  destruct (run_keeps_session_invariant clownfish sampleActions sampleSession
              sampleSession_invariant sampleSession_fromDatabase
              sampleDatabase_plainRegions) as (st' & Hrun & _).
  exists st'. split; [exact Hrun|].
  vm_compute in Hrun. injection Hrun as <-. split; reflexivity.
Defined.

(** X10. Over any sequence of user actions in a session with a target,
    the statistics are updated at most once, namely when the session
    turns from not won to won: then games played, wins and the current
    streak each grow by one and the best streak becomes the larger of
    itself and the new current streak; otherwise the counters are
    unchanged. A session that is won stays won, and the difference
    between games played and wins never changes. *)
Theorem run_counts_one_win (target : FishEntity)
    (actions : list (Date * Action)) (st st' : Game.State) :
  sessionInvariant target st ->
  run actions st = Return st' ->
  let d := if Game.won st' && negb (Game.won st) then 1 else 0 in
  Game.gamesPlayed (Game.stats st') = Game.gamesPlayed (Game.stats st) + d /\
  Game.wins (Game.stats st') = Game.wins (Game.stats st) + d /\
  Game.currentStreak (Game.stats st') = Game.currentStreak (Game.stats st) + d /\
  Game.maxStreak (Game.stats st') =
    (if Game.won st' && negb (Game.won st)
     then Z.max (Game.maxStreak (Game.stats st)) (Game.currentStreak (Game.stats st) + 1)
     else Game.maxStreak (Game.stats st)) /\
  (Game.won st = true -> Game.won st' = true) /\
  Game.gamesPlayed (Game.stats st') - Game.wins (Game.stats st')
    = Game.gamesPlayed (Game.stats st) - Game.wins (Game.stats st) /\
  (Game.currentStreak (Game.stats st) <= Game.maxStreak (Game.stats st) ->
   Game.currentStreak (Game.stats st') <= Game.maxStreak (Game.stats st')).
Proof.
  intros Hinv Hrun d.
  destruct (run_invariant actions target st st' Hinv Hrun)
    as (_ & _ & _ & _ & _ & _ & _ & Hw & Hs).
  subst d. rewrite Hs.
  destruct (Game.won st' && negb (Game.won st)); simpl; repeat split; try lia;
    exact Hw.
Qed.

Lemma run_counts_one_win_witness :
  sessionInvariant clownfish sampleSession /\
  exists st', run sampleActions sampleSession = Return st' /\
              Game.wins (Game.stats st') = 1.
Proof.
  split; [exact sampleSession_invariant|].
  assert (Hrun : exists st', run sampleActions sampleSession = Return st')
    by (eexists; vm_compute; reflexivity).
  destruct Hrun as [st' Hrun]. exists st'. split; [exact Hrun|].
  destruct (run_counts_one_win clownfish sampleActions sampleSession st'
              sampleSession_invariant Hrun) as (_ & Hwins & _).
  vm_compute in Hrun. injection Hrun as <-. exact Hwins.
Defined.

(** X11. Over any sequence of user actions in a session with a target,
    the score never rises, and it stays between 10 and 100. *)
Theorem run_score_never_rises (target : FishEntity)
    (actions : list (Date * Action)) (st st' : Game.State) :
  sessionInvariant target st ->
  run actions st = Return st' ->
  10 <= Game.calculateScore (Game.guesses st') (Game.hints st')
     <= Game.calculateScore (Game.guesses st) (Game.hints st) /\
  Game.calculateScore (Game.guesses st) (Game.hints st) <= 100.
Proof.
  intros Hinv Hrun.
  destruct (run_invariant actions target st st' Hinv Hrun)
    as (_ & _ & Hg & _ & _ & Hl & Ha & _).
  apply prefix_length in Hg.
  unfold Game.calculateScore, Game.BASE_SCORE, Game.GUESS_PENALTY, Game.MIN_SCORE,
    Hints.getHintPenalty, Hints.LETTER_HINT_COST, Hints.ATTRIBUTE_HINT_COST.
  lia.
Qed.

Lemma run_score_never_rises_witness :
  sessionInvariant clownfish sampleSession /\
  exists st', run sampleActions sampleSession = Return st' /\
              10 <= Game.calculateScore (Game.guesses st') (Game.hints st') <= 100.
Proof.
  split; [exact sampleSession_invariant|].
  assert (Hrun : exists st', run sampleActions sampleSession = Return st')
    by (eexists; vm_compute; reflexivity).
  destruct Hrun as [st' Hrun]. exists st'. split; [exact Hrun|].
  destruct (run_score_never_rises clownfish sampleActions sampleSession st'
              sampleSession_invariant Hrun) as [[Hlow Hhigh] Htop].
  split; [exact Hlow|]. etrans; [exact Hhigh|exact Htop].
Defined.

Section SessionLemmas4.
Import Game.

(** In a session that is over, an action changes at most the selected
    fish and what [Autocomplete] shows. *)
Lemma step_game_over (now : Date) (action : Action) (st : State) :
  gameOver st = true ->
  exists st', step now action st = Return st' /\ sameSession st st'.
Proof.
  intros Hover. destruct action as [text|key|index| |rnd|rnd]; simpl.
  - eexists. split; [reflexivity|]. unfold sameSession, typeText. simpl.
    destruct (handleInput_keeps
                (Autocomplete.mkState (Autocomplete.fishDatabase (autocomplete st))
                   text (Autocomplete.inputDisabled (autocomplete st))
                   (Autocomplete.items (autocomplete st))
                   (Autocomplete.currentFocus (autocomplete st))
                   (Autocomplete.guessedFish (autocomplete st)))) as [-> ->].
    simpl. tauto.
  - destruct (handleKeydown_keeps key (autocomplete st)) as [Hg Hd].
    destruct (Autocomplete.handleKeydown key (autocomplete st)).2 as [fish|].
    + unfold handleFishSelect, submitGuess. simpl. rewrite Hover.
      eexists. split; [reflexivity|]. unfold sameSession. simpl.
      rewrite Hg, Hd. tauto.
    + eexists. split; [reflexivity|]. unfold sameSession. simpl.
      rewrite Hg, Hd. tauto.
  - destruct (Autocomplete.items (autocomplete st) !! index) as [fish|].
    + unfold handleFishSelect, submitGuess. simpl. rewrite Hover.
      eexists. split; [reflexivity|]. unfold sameSession. simpl. tauto.
    + exists st. split; [reflexivity|]. unfold sameSession. tauto.
  - unfold submitGuess. rewrite Hover. exists st. split; [reflexivity|].
    unfold sameSession. tauto.
  - unfold useLetterHint. rewrite Hover. exists st. split; [reflexivity|].
    unfold sameSession. tauto.
  - unfold useAttributeHint. rewrite Hover. exists st. split; [reflexivity|].
    unfold sameSession. tauto.
Qed.

(** All four entries of the comparison of a fish with itself are exact,
    whatever its attribute values, when the comparison returns. *)
Lemma compareAttributes_same (f : FishEntity) :
  region (attributes f) ∉ OBJECT_PROTOTYPE ->
  compareAttributes f f =
    Return
      (mkComparison
         (mkAttributeComparison (habitat (attributes f)) exact unset)
         (mkAttributeComparison (size (attributes f)) exact null)
         (mkAttributeComparison (family (attributes f)) exact unset)
         (mkAttributeComparison (region (attributes f)) exact unset)).
Proof.
  intros Hplain. unfold compareAttributes. cbv zeta.
  rewrite (OCEAN_GROUPS_plain _ Hplain). cbn [callIncludes mbind completion_bind].
  rewrite !bool_decide_eq_true_2 by reflexivity.
  rewrite Z.sub_diag. reflexivity.
Qed.

Lemma find_unique {A} (p : A -> bool) (l : list A) (x : A) :
  x ∈ l -> p x = true -> (forall y, y ∈ l -> p y = true -> y = x) ->
  find p l = Some x.
Proof.
  induction l as [|y l IH]; intros Hin Hp Huniq; [now apply elem_of_nil in Hin|].
  simpl. destruct (p y) eqn:Hy.
  - f_equal. apply Huniq; [left|exact Hy].
  - apply IH; [|exact Hp|intros z Hz; apply Huniq; now right].
    apply elem_of_cons in Hin as [->|Hin]; [congruence|exact Hin].
Qed.

(** In a session that is not won, the target has not been guessed. *)
Lemma target_not_guessed (target : FishEntity) (st : State) :
  sessionInvariant target st -> won st = false -> id target ∉ guessedIds st.
Proof.
  intros (_ & _ & _ & _ & Hall & _ & Hwon & Hearly) Hw Hin.
  unfold guessedIds in Hin. apply list_elem_of_fmap in Hin as (g & Hid & Hg).
  apply list_elem_of_lookup in Hg as [i Hi].
  rewrite Forall_forall in Hall.
  destruct (Hall g (list_elem_of_lookup_2 _ _ _ Hi)) as [_ Hc].
  rewrite bool_decide_eq_true_2 in Hc by congruence.
  pose proof (lookup_lt_Some _ _ _ Hi) as Hlt.
  destruct (decide (S i < length (guesses st))%nat) as [Hearlier|Hlast].
  - rewrite (Hearly i g Hi Hearlier) in Hc. discriminate.
  - assert (Hl : last (guesses st) = Some g).
    { rewrite last_lookup, <- Hi. f_equal. lia. }
    assert (won st = true) by (apply Hwon; eauto). congruence.
Qed.
End SessionLemmas4.

(** X12. Once a session is over, no sequence of user actions changes its
    guesses, hints, outcome, statistics, target or stored state: every
    handler returns without effect, apart from what the autocomplete
    list shows and which fish is selected. *)
Theorem run_after_game_over (actions : list (Date * Action)) (st : Game.State) :
  Game.gameOver st = true ->
  exists st',
    run actions st = Return st' /\
    Game.guesses st' = Game.guesses st /\
    Game.hints st' = Game.hints st /\
    Game.gameOver st' = true /\
    Game.won st' = Game.won st /\
    Game.stats st' = Game.stats st /\
    Game.targetFish st' = Game.targetFish st /\
    Game.localStorage st' = Game.localStorage st.
Proof.
  intros Hover.
  assert (H : exists st', run actions st = Return st' /\ sameSession st st').
  { revert st Hover. induction actions as [|[now action] rest IH]; intros st Hover.
    - exists st. split; [reflexivity|]. unfold sameSession. tauto.
    - destruct (step_game_over now action st Hover) as (st1 & Hstep & Hsame).
      assert (Hover1 : Game.gameOver st1 = true).
      { destruct Hsame as (_ & _ & _ & _ & <- & _). exact Hover. }
      destruct (IH st1 Hover1) as (st' & Hrun & Hsame').
      exists st'. split; [simpl; rewrite Hstep; exact Hrun|].
      exact (sameSession_trans _ _ _ Hsame Hsame'). }
  destruct H as (st' & Hrun & (_ & Ht & _ & Hg & Ho & Hw & Hs & Hh & _ & _ & Hl)).
  exists st'. split; [exact Hrun|]. repeat split; congruence.
Qed.

Lemma run_after_game_over_witness :
  exists won', run sampleActions sampleSession = Return won' /\
    Game.gameOver won' = true /\
    exists st', run sampleActions won' = Return st' /\
                Game.guesses st' = Game.guesses won'.
Proof.
  assert (Hrun : exists st', run sampleActions sampleSession = Return st')
    by (eexists; vm_compute; reflexivity).
  destruct Hrun as [won' Hrun]. exists won'. split; [exact Hrun|].
  assert (Hover : Game.gameOver won' = true).
  { vm_compute in Hrun. injection Hrun as <-. reflexivity. }
  split; [exact Hover|].
  destruct (run_after_game_over sampleActions won' Hover) as (st' & Hrun' & Hg & _).
  exists st'. split; [exact Hrun'|exact Hg].
Defined.

(** X13. Typing the target's name, in any letter case and with white
    space around it, and submitting it wins a running session, when the
    target's region is not the name of a member that objects inherit
    from [Object.prototype]: the guess is appended with all four entries
    exact and marked correct, the session is over and won, the counters
    are those after a win and are stored, the input is cleared and
    disabled, and the session stored under the day's key is the new one.
    It is assumed that no fish is selected, and that the target is the
    only fish of the database with that name up to letter case. For a
    target whose region is such a name the call fails with a
    [TypeError]. *)
Theorem submitGuess_target_wins (now : Date) (target : FishEntity)
    (st : Game.State) :
  sessionInvariant target st ->
  Game.gameOver st = false ->
  Game.selectedFish st = None ->
  trim (Autocomplete.inputValue (Game.autocomplete st)) <> "" ->
  toLowerCase (trim (Autocomplete.inputValue (Game.autocomplete st)))
    = toLowerCase (name target) ->
  target ∈ Game.fishDatabase st ->
  (forall f, f ∈ Game.fishDatabase st ->
     toLowerCase (name f) = toLowerCase (name target) -> f = target) ->
  (region (attributes target) ∈ OBJECT_PROTOTYPE ->
   exists msg, Game.submitGuess now st = Throw (TypeError msg)) /\
  (region (attributes target) ∉ OBJECT_PROTOTYPE ->
   exists st',
     let allExact :=
       Game.mkComparison
         (Game.mkAttributeComparison (habitat (attributes target)) Game.exact Game.unset)
         (Game.mkAttributeComparison (size (attributes target)) Game.exact Game.null)
         (Game.mkAttributeComparison (family (attributes target)) Game.exact Game.unset)
         (Game.mkAttributeComparison (region (attributes target)) Game.exact Game.unset) in
     Game.submitGuess now st = Return st' /\
     Game.compareAttributes target target = Return allExact /\
     Game.guesses st' = Game.guesses st ++ [Game.mkGuess target allExact true] /\
     Game.gameOver st' = true /\ Game.won st' = true /\
     Game.stats st' = winStats (Game.stats st) /\
     Game.statsItem (Game.localStorage st') = Some (winStats (Game.stats st)) /\
     Autocomplete.inputValue (Game.autocomplete st') = "" /\
     Autocomplete.inputDisabled (Game.autocomplete st') = true /\
     Game.loadGameState (Daily.getTodayKey now) st' = Some (savedOf st')).
Proof.
  intros Hinv Hrun Hsel Hblank Hname Hin Huniq.
  pose proof Hinv as (Ht & _ & _ & _ & _ & Hover & _).
  assert (Hfresh : id target ∉ guessedIds st)
    by (apply (target_not_guessed target st Hinv); congruence).
  assert (Hfind : find (fun f => bool_decide
                          (toLowerCase (name f)
                           = toLowerCase (trim (Autocomplete.inputValue
                                                  (Game.autocomplete st)))))
                       (Game.fishDatabase st) = Some target).
  { apply find_unique; [exact Hin|now apply bool_decide_eq_true_2|].
    intros f Hf Hp. apply bool_decide_eq_true_1 in Hp. apply Huniq; congruence. }
  assert (Hdup : existsb (fun g => bool_decide (id (Game.fish g) = id target))
                         (Game.guesses st) = false).
  { destruct (existsb _ _) eqn:E; [|reflexivity].
    apply existsb_guessed in E. contradiction. }
  assert (Hcall : Game.submitGuess now st =
            comparison ← Game.compareAttributes target target;
            mret (Game.saveGameState now
                    (Game.handleWin (acceptedGuess target target comparison st)))).
  { unfold Game.submitGuess. rewrite Hrun.
    rewrite bool_decide_eq_false_2 by exact Hblank.
    rewrite Hsel, Hfind, Hdup. unfold Game.target. rewrite Ht.
    cbn [mbind completion_bind].
    destruct (Game.compareAttributes target target) as [c|e]; [|reflexivity].
    unfold acceptedGuess. cbn [mbind completion_bind Game.correct].
    rewrite !bool_decide_eq_true_2 by reflexivity. reflexivity. }
  split.
  - intros Hinherited.
    destruct (compareAttributes_throws target target Hinherited) as [msg Hthrow].
    exists msg. rewrite Hcall, Hthrow. reflexivity.
  - intros Hplain. pose proof (compareAttributes_same target Hplain) as Hsame.
    eexists. cbv zeta. split; [rewrite Hcall, Hsame; reflexivity|].
    split; [exact Hsame|]. simpl.
    rewrite bool_decide_eq_true_2 by reflexivity.
    repeat (split; [reflexivity|]).
    unfold Game.loadGameState, Game.saveGameState. simpl.
    rewrite lookup_insert_eq. reflexivity.
Qed.

Lemma submitGuess_target_wins_witness :
  let st := Game.withAutocomplete
              (typeText " ClownFISH " (Game.autocomplete sampleSession))
              sampleSession in
  sessionInvariant clownfish st /\
  Game.gameOver st = false /\
  Game.selectedFish st = None /\
  trim (Autocomplete.inputValue (Game.autocomplete st)) <> "" /\
  toLowerCase (trim (Autocomplete.inputValue (Game.autocomplete st)))
    = toLowerCase (name clownfish) /\
  (region (attributes clownfish) ∉ OBJECT_PROTOTYPE) /\
  exists st', Game.submitGuess newYear2024 st = Return st' /\ Game.won st' = true.
Proof.
  intros st.
  assert (Hinv : sessionInvariant clownfish st).
  { unfold sessionInvariant, guessedIds, st, sampleSession. simpl.
    repeat split; try constructor; try discriminate;
      try (intros (g & Hg & _); discriminate). }
  assert (Hblank : trim (Autocomplete.inputValue (Game.autocomplete st)) <> "")
    by (vm_compute; discriminate).
  assert (Hin : clownfish ∈ Game.fishDatabase st).
  { unfold st, sampleSession, sampleDatabase. simpl.
    rewrite !elem_of_cons. tauto. }
  assert (Huniq : forall f, f ∈ Game.fishDatabase st ->
            toLowerCase (name f) = toLowerCase (name clownfish) -> f = clownfish).
  { unfold st, sampleSession, sampleDatabase. simpl. intros f.
    rewrite !elem_of_cons, elem_of_nil.
    intros [->|[->|[->|[]]]] E; first [reflexivity | vm_compute in E; discriminate]. }
  assert (Hplain : region (attributes clownfish) ∉ OBJECT_PROTOTYPE).
  { unfold OBJECT_PROTOTYPE. rewrite !elem_of_cons, elem_of_nil.
    intuition discriminate. }
  split; [exact Hinv|]. split; [reflexivity|]. split; [reflexivity|].
  split; [exact Hblank|]. split; [reflexivity|]. split; [exact Hplain|].
  destruct (submitGuess_target_wins newYear2024 clownfish st Hinv eq_refl eq_refl
              Hblank eq_refl Hin Huniq) as [_ Hwins].
  destruct (Hwins Hplain) as (st' & Hcall & _ & _ & _ & Hwon & _).
  exists st'. split; [exact Hcall|exact Hwon].
Defined.

(** ** Stored sessions *)

Section RestoreLemmas.
Import Game.

Lemma NoDup_ids_unique (db : list FishEntity) (f g : FishEntity) :
  NoDup (map id db) -> f ∈ db -> g ∈ db -> id f = id g -> f = g.
Proof.
  induction db as [|x db IH]; intros Hnd Hf Hg Hid; [now apply elem_of_nil in Hf|].
  simpl in Hnd. apply NoDup_cons in Hnd as [Hx Hnd].
  apply elem_of_cons in Hf as [->|Hf]; apply elem_of_cons in Hg as [->|Hg].
  - reflexivity.
  - destruct Hx. rewrite Hid. apply list_elem_of_fmap. eauto.
  - destruct Hx. rewrite <- Hid. apply list_elem_of_fmap. eauto.
  - now apply IH.
Qed.

(** Looking the saved guesses up in a database with unique ids gives the
    guesses back. *)
Lemma restoreGuesses_saved (db : list FishEntity) (gs : list Guess) :
  NoDup (map id db) ->
  Forall (fun g => fish g ∈ db) gs ->
  restoreGuesses db
    (map (fun g => mkSavedGuess (id (fish g)) (comparison g) (correct g)) gs)
  = Return gs.
Proof.
  intros Hnd Hall. induction Hall as [|g gs Hg Hall IH]; [reflexivity|].
  simpl. rewrite (find_unique _ db (fish g)).
  - rewrite IH. simpl. destruct g; reflexivity.
  - exact Hg.
  - now apply bool_decide_eq_true_2.
  - intros y Hy Hp. apply bool_decide_eq_true_1 in Hp.
    now apply (NoDup_ids_unique db).
Qed.

Lemma find_none {A} (p : A -> bool) (l : list A) :
  (forall x, x ∈ l -> p x = false) -> find p l = None.
Proof.
  induction l as [|x l IH]; intros H; [reflexivity|].
  simpl. rewrite (H x) by left. apply IH. intros y Hy. apply H. now right.
Qed.

(** A saved guess whose id the database does not have stops the
    rebuilding with a [TypeError]. *)
Lemma restoreGuesses_unknown (db : list FishEntity) (saved : list SavedGuess) :
  (exists g, g ∈ saved /\ forall f, f ∈ db -> id f <> fishId g) ->
  exists msg, restoreGuesses db saved = Throw (TypeError msg).
Proof.
  intros (g & Hg & Hunknown).
  induction saved as [|s saved IH]; [now apply elem_of_nil in Hg|].
  simpl. destruct (find _ db) as [fish|] eqn:Hfind; [|eexists; reflexivity].
  apply elem_of_cons in Hg as [->|Hg].
  - rewrite find_none in Hfind; [discriminate|].
    intros f Hf. apply bool_decide_eq_false_2. now apply Hunknown.
  - destruct (IH Hg) as [msg ->]. eexists. reflexivity.
Qed.

Lemma hints_eta (h : Hints.State) (target : FishEntity) :
  Hints.targetFish h = Some target ->
  Hints.loadState (Hints.getState h) (Hints.init (Some target)) = h.
Proof. intros E. destruct h. simpl in *. now rewrite E. Qed.

(** Restoring what was saved of a session, on a state with the same
    database and target and a freshly initialised ledger. *)
Lemma restoreGameState_saved (target : FishEntity) (st st0 : State) :
  NoDup (map id (fishDatabase st)) ->
  Forall (fun g => fish g ∈ fishDatabase st) (guesses st) ->
  Hints.targetFish (hints st) = Some target ->
  fishDatabase st0 = fishDatabase st ->
  targetFish st0 = Some target ->
  hints st0 = Hints.init (Some target) ->
  restoreGameState (savedOf st) st0 =
    Return (withOutcome (gameOver st) (won st)
              (withHints (hints st)
                 (withAutocomplete
                    (Autocomplete.setGuessedFish (guessedIds st) (autocomplete st0))
                    (withGuesses (guesses st) st0)))).
Proof.
  intros Hnd Hall Hh Hdb Ht Hh0.
  unfold restoreGameState. rewrite Hdb. simpl.
  rewrite (restoreGuesses_saved _ _ Hnd Hall). simpl.
  unfold renderSilhouette, Game.target. simpl. rewrite Ht. simpl.
  unfold updateNameBlanks. cbn [hints withOutcome withHints].
  rewrite Hh0, (hints_eta _ _ Hh).
  unfold Hints.getNameDisplay, Hints.target. rewrite Hh. reflexivity.
Qed.

End RestoreLemmas.

(** X14. Saving and restoring a session is a round trip: when the ids of
    the database are pairwise different and every guessed fish is in the
    database, [restoreGameState] applied to what [saveGameState] stores
    rebuilds the guesses, the outcome and the hint ledger of the saved
    session, and tells [Autocomplete] the guessed ids. The state it is
    applied to is one with the same database and target and a freshly
    initialised ledger. *)
Theorem restoreGameState_round_trip (now : Date) (target : FishEntity)
    (st st0 : Game.State) :
  NoDup (map id (Game.fishDatabase st)) ->
  Forall (fun g => Game.fish g ∈ Game.fishDatabase st) (Game.guesses st) ->
  Hints.targetFish (Game.hints st) = Some target ->
  Game.fishDatabase st0 = Game.fishDatabase st ->
  Game.targetFish st0 = Some target ->
  Game.hints st0 = Hints.init (Some target) ->
  Game.loadGameState (Daily.getTodayKey now) (Game.saveGameState now st)
    = Some (savedOf st) /\
  exists st',
    Game.restoreGameState (savedOf st) st0 = Return st' /\
    Game.guesses st' = Game.guesses st /\
    Game.gameOver st' = Game.gameOver st /\
    Game.won st' = Game.won st /\
    Game.hints st' = Game.hints st /\
    Autocomplete.guessedFish (Game.autocomplete st') = guessedIds st.
Proof.
  intros Hnd Hall Hh Hdb Ht Hh0. split.
  { unfold Game.loadGameState, Game.saveGameState. simpl.
    now rewrite lookup_insert_eq. }
  rewrite (restoreGameState_saved target st st0 Hnd Hall Hh Hdb Ht Hh0).
  eexists. split; [reflexivity|]. simpl. repeat split; reflexivity.
Qed.

(** X15. A stored session that names a fish id the database does not
    have makes [restoreGameState] raise a [TypeError]: the guess is
    rebuilt without a fish, and reading its id fails. *)
Theorem restoreGameState_unknown_id (saved : Game.SavedGame) (st : Game.State) :
  (exists g, g ∈ Game.savedGuesses saved /\
             forall f, f ∈ Game.fishDatabase st -> id f <> Game.fishId g) ->
  exists msg, Game.restoreGameState saved st = Throw (TypeError msg).
Proof.
  intros Hunknown. unfold Game.restoreGameState.
  destruct (restoreGuesses_unknown _ _ Hunknown) as [msg ->].
  exists msg. reflexivity.
Qed.

#[local] Arguments Daily.getDailyFish : simpl never.
#[local] Arguments Daily.getTodayKey : simpl never.
#[local] Arguments Daily.getTodayUTC : simpl never.
#[local] Arguments Daily.dateToSeed : simpl never.
#[local] Arguments Daily.getGameNumber : simpl never.

Section InitLemmas.
Import Game.

(** What [init] does after setting up the fresh session. *)
Lemma init_unfold (database : list FishEntity) (now : Date) (storage : Storage) :
  init database now storage =
    (st ← match sessions storage !! sessionKey (Daily.getTodayKey now) with
          | Some saved => restoreGameState saved (freshSession database now storage)
          | None =>
              _ ← renderSilhouette (freshSession database now storage);
              _ ← updateNameBlanks (freshSession database now storage);
              mret (freshSession database now storage)
          end;
     _ ← updateHintsDisplay st;
     mret (if gameOver st
           then withAutocomplete (Autocomplete.disable (autocomplete st)) st
           else st)).
Proof.
  unfold init, freshSession, loadStats, loadGameState, initial.
  cbn [localStorage statsItem fishDatabase targetFish gameNumber guesses gameOver
       won selectedFish stats hints autocomplete withStats sessions].
  destruct (statsItem storage); reflexivity.
Qed.

(** The daily fish of a non-empty database is one of its fish. *)
Lemma getDailyFish_member (database : list FishEntity) (date : option Date)
    (now : Date) :
  database <> [] ->
  exists fish, Daily.fish (Daily.getDailyFish database date now) = Some fish /\
               fish ∈ database.
Proof.
  intros Hne. unfold Daily.getDailyFish. cbv zeta. cbn [Daily.fish].
  set (rng := (Daily.seededRandom _).1).
  destruct (seededRandom_range
              (Daily.dateToSeed
                 match date with Some d => d | None => Daily.getTodayUTC now end))
    as [Hscale Hmant].
  fold rng in Hscale, Hmant.
  assert (Hlen : 0 < Z.of_nat (length database))
    by (destruct database; [contradiction|simpl; lia]).
  assert (Hidx : 0 <= floorMul rng (Z.of_nat (length database))
                 < Z.of_nat (length database))
    by (apply floorMul_bound; rewrite ?Hscale; lia).
  destruct (lookup_lt_is_Some_2 database
              (Z.to_nat (floorMul rng (Z.of_nat (length database)))))
    as [fish Hfish]; [lia|].
  exists fish. split; [exact Hfish|]. eapply list_elem_of_lookup_2. exact Hfish.
Qed.

Lemma getDailyFish_none (date : option Date) (now : Date) :
  Daily.fish (Daily.getDailyFish [] date now) = None.
Proof. unfold Daily.getDailyFish. cbv zeta. cbn [Daily.fish]. apply lookup_nil. Qed.

(** Without a target fish [restoreGameState] raises a [TypeError]. *)
Lemma restoreGameState_no_target (saved : SavedGame) (st : State) :
  targetFish st = None ->
  exists msg, restoreGameState saved st = Throw (TypeError msg).
Proof.
  intros Hnone. unfold restoreGameState.
  destruct (restoreGuesses (fishDatabase st) (savedGuesses saved)) as [gs|[msg]];
    [|exists msg; reflexivity].
  cbn [mbind completion_bind].
  unfold renderSilhouette, Game.target.
  cbn [targetFish withOutcome withHints withAutocomplete withGuesses].
  rewrite Hnone. eexists. reflexivity.
Qed.

End InitLemmas.

(** X16. With an empty database, as after a failed fetch, [init] fails
    with a [TypeError] whatever the storage holds and whatever the date:
    there is no target fish, and drawing the silhouette, or rebuilding a
    stored guess, reads a property of [undefined]. *)
Theorem init_empty_database_fails (now : Date) (storage : Game.Storage) :
  exists msg, Game.init [] now storage = Throw (TypeError msg).
Proof.
  rewrite init_unfold.
  assert (Hnone : Game.targetFish (freshSession [] now storage) = None)
    by apply getDailyFish_none.
  destruct (Game.sessions storage !! _) as [saved|].
  - destruct (restoreGameState_no_target saved _ Hnone) as [msg ->].
    exists msg. reflexivity.
  - unfold Game.renderSilhouette, Game.target. rewrite Hnone.
    eexists. reflexivity.
Qed.

(** X17. With a non-empty database and no session stored for the day,
    [init] returns a session whose target is a fish of the database,
    with no guesses and no hints, not over, with score 100 and the
    stored counters (the defaults when none is stored); it satisfies the
    session invariant and leaves the storage as it was. *)
Theorem init_fresh_session (database : list FishEntity) (now : Date)
    (storage : Game.Storage) :
  database <> [] ->
  Game.sessions storage !! Game.sessionKey (Daily.getTodayKey now) = None ->
  exists st target,
    Game.init database now storage = Return st /\
    target ∈ database /\
    Daily.fish (Daily.getDailyFish database None now) = Some target /\
    sessionInvariant target st /\
    fullInvariant target (Game.hints st) /\
    Game.fishDatabase st = database /\
    Game.guesses st = [] /\
    Game.hints st = Hints.init (Some target) /\
    Game.gameOver st = false /\
    Game.calculateScore (Game.guesses st) (Game.hints st) = 100 /\
    Game.stats st = default Game.defaultStats (Game.statsItem storage) /\
    Game.localStorage st = storage.
Proof.
  intros Hne Hnone.
  destruct (getDailyFish_member database None now Hne) as (target & Hfish & Hin).
  exists (freshSession database now storage), target.
  split.
  { rewrite init_unfold, Hnone.
    unfold Game.renderSilhouette, Game.target, Game.updateNameBlanks,
      Game.updateHintsDisplay, Hints.getNameDisplay,
      Hints.canRevealLetter, Hints.canRevealAttribute, Hints.getLetterPositions,
      Hints.getRevealedAttributesList, Hints.target.
    unfold freshSession. cbv zeta. cbn [Game.targetFish Game.hints Game.gameOver].
    rewrite Hfish. reflexivity. }
  split; [exact Hin|]. split; [exact Hfish|].
  unfold freshSession. cbv zeta. rewrite Hfish.
  split.
  { unfold sessionInvariant, guessedIds. simpl.
    repeat split; try constructor; try discriminate;
      try (intros (g & Hg & _); discriminate). }
  split; [apply init_fullInvariant|].
  repeat split; reflexivity.
Qed.

Lemma init_fresh_session_witness :
  sampleDatabase <> [] /\
  Game.sessions (Game.mkStorage ∅ None)
    !! Game.sessionKey (Daily.getTodayKey newYear2024) = None /\
  Game.init sampleDatabase newYear2024 (Game.mkStorage ∅ None)
    = Return sampleSession.
Proof.
  split; [discriminate|]. split; [reflexivity|].
  destruct (init_fresh_session sampleDatabase newYear2024 (Game.mkStorage ∅ None)
              ltac:(discriminate) eq_refl) as (st & target & Hcall & _).
  rewrite Hcall. vm_compute in Hcall. injection Hcall as <-. reflexivity.
Defined.

Section ReloadLemmas.
Import Game.

Lemma sameDay_today (a b : Date) :
  sameDay a b -> Daily.getTodayUTC a = Daily.getTodayUTC b.
Proof.
  intros [Hday Htz]. unfold Daily.getTodayUTC, getUTCFullYear, getUTCMonth, getUTCDate.
  now rewrite Hday, Htz.
Qed.

Lemma sameDay_key (a b : Date) :
  sameDay a b -> Daily.getTodayKey a = Daily.getTodayKey b.
Proof. intros H. unfold Daily.getTodayKey. now rewrite (sameDay_today a b H). Qed.

Lemma sameDay_fish (db : list FishEntity) (a b : Date) :
  sameDay a b -> Daily.getDailyFish db None a = Daily.getDailyFish db None b.
Proof. intros H. unfold Daily.getDailyFish. now rewrite (sameDay_today a b H). Qed.

(** The selected fish and the list shown do not matter to what is
    stored. *)
Lemma persisted_same (key : string) (st1 st2 : State) :
  sameSession st1 st2 ->
  (persisted key st1 -> persisted key st2) /\
  (statsPersisted st1 -> statsPersisted st2).
Proof.
  intros (_ & _ & _ & Hg & Ho & Hw & Hs & Hh & _ & _ & Hl).
  unfold persisted, statsPersisted, loadGameState, savedOf.
  rewrite Hg, Ho, Hw, Hs, Hh, Hl. tauto.
Qed.

Lemma saveGameState_persisted (now : Date) (st : State) :
  persisted (Daily.getTodayKey now) (saveGameState now st) /\
  (statsPersisted st -> statsPersisted (saveGameState now st)).
Proof.
  split.
  - unfold persisted, loadGameState, saveGameState. simpl.
    now rewrite lookup_insert_eq.
  - unfold statsPersisted. simpl. tauto.
Qed.

End ReloadLemmas.

Section ReloadLemmas2.
Import Game.

(** Actions of one day that return keep the session in step with the
    storage. *)
Lemma run_stored (actions : list (Date * Action)) (key : string)
    (target : FishEntity) (st st' : State) :
  Forall (fun a => Daily.getTodayKey a.1 = key) actions ->
  sessionInvariant target st -> fromDatabase st -> statsPersisted st ->
  persisted key st ->
  run actions st = Return st' ->
  sessionInvariant target st' /\ fromDatabase st' /\ statsPersisted st' /\
  persisted key st' /\ fishDatabase st' = fishDatabase st.
Proof.
  intros Hday. revert st.
  induction Hday as [|[now action] rest Hkey Hday IH];
    intros st Hinv Hfrom Hstats Hpers Hrun.
  - injection Hrun as <-. tauto.
  - simpl in Hkey. apply run_cons in Hrun as (st1 & Hstep & Hrun).
    destruct (step_invariant now action target st st1 Hinv Hstep)
      as (Hinv1 & (Hdb1 & _)).
    destruct (step_shape now action target st st1 Hinv Hfrom Hstep)
      as (Hfrom1 & Hstats1 & Hshape).
    assert (Hpers1 : persisted key st1).
    { destruct Hshape as [Hsame|[X ->]].
      - now apply (persisted_same key st st1 Hsame).
      - rewrite <- Hkey. apply saveGameState_persisted. }
    destruct (IH st1 Hinv1 Hfrom1 (Hstats1 Hstats) Hpers1 Hrun)
      as (Hinv' & Hfrom' & Hstats' & Hpers' & Hdb').
    repeat (split; [assumption|]). congruence.
Qed.

(** Opening the page on a session that is in step with the storage
    resumes it. *)
Lemma init_stored (later : Date) (target : FishEntity) (st : State) :
  NoDup (map id (fishDatabase st)) ->
  sessionInvariant target st -> fromDatabase st -> statsPersisted st ->
  persisted (Daily.getTodayKey later) st ->
  Daily.fish (Daily.getDailyFish (fishDatabase st) None later) = Some target ->
  exists st',
    init (fishDatabase st) later (localStorage st) = Return st' /\
    fishDatabase st' = fishDatabase st /\
    targetFish st' = targetFish st /\
    guesses st' = guesses st /\
    gameOver st' = gameOver st /\
    won st' = won st /\
    stats st' = stats st /\
    hints st' = hints st /\
    Autocomplete.guessedFish (autocomplete st') = guessedIds st /\
    Autocomplete.inputDisabled (autocomplete st') = gameOver st /\
    localStorage st' = localStorage st.
Proof.
  intros Hnd Hinv (_ & _ & _ & Hgs) Hstats Hpers Hfish.
  pose proof Hinv as (Ht & Hh & _ & _ & _ & _ & _).
  rewrite init_unfold.
  set (st0 := freshSession (fishDatabase st) later (localStorage st)).
  assert (Ht0 : targetFish st0 = Some target) by exact Hfish.
  assert (Hh0 : hints st0 = Hints.init (Some target))
    by (unfold st0, freshSession; cbn [hints]; now rewrite Hfish).
  assert (Hs0 : stats st0 = stats st) by (symmetry; exact Hstats).
  assert (Hd0 : fishDatabase st0 = fishDatabase st) by reflexivity.
  assert (Hl0 : localStorage st0 = localStorage st) by reflexivity.
  assert (Ha0 : Autocomplete.inputDisabled (autocomplete st0) = false) by reflexivity.
  assert (Ho0 : gameOver st0 = false) by reflexivity.
  assert (Hw0 : won st0 = false) by reflexivity.
  assert (Hg0 : guesses st0 = []) by reflexivity.
  assert (Hf0 : Autocomplete.guessedFish (autocomplete st0) = []) by reflexivity.
  clearbody st0.
  assert (Hfinish : forall st1 : State,
            Hints.targetFish (hints st1) = Some target ->
            exists st',
              (_ ← updateHintsDisplay st1;
               mret (if gameOver st1
                     then withAutocomplete (Autocomplete.disable (autocomplete st1)) st1
                     else st1)) = Return st' /\
              st' = (if gameOver st1
                     then withAutocomplete (Autocomplete.disable (autocomplete st1)) st1
                     else st1)).
  { intros st1 Hh1. rewrite (updateHintsDisplay_returns st1 target Hh1).
    eexists. split; reflexivity. }
  unfold persisted, loadGameState in Hpers.
  destruct (sessions (localStorage st) !! sessionKey (Daily.getTodayKey later))
    as [saved|] eqn:Hsaved.
  - subst saved.
    rewrite (restoreGameState_saved target st st0 Hnd Hgs Hh Hd0 Ht0 Hh0).
    cbn [mbind completion_bind].
    destruct (Hfinish (withOutcome (gameOver st) (won st)
              (withHints (hints st)
                 (withAutocomplete
                    (Autocomplete.setGuessedFish (guessedIds st) (autocomplete st0))
                    (withGuesses (guesses st) st0)))) Hh) as (st' & -> & ->).
    eexists. split; [reflexivity|].
    cbn [gameOver withOutcome].
    destruct (gameOver st) eqn:Hover; simpl; rewrite ?Ht;
      repeat split; solve [reflexivity|assumption].
  - destruct Hpers as (Hg & Hl & Ha & Hover & Hwon).
    unfold renderSilhouette, Game.target. rewrite Ht0.
    assert (Hht0 : Hints.targetFish (hints st0) = Some target) by now rewrite Hh0.
    rewrite (updateNameBlanks_returns st0 target Hht0).
    cbn [mbind completion_bind mret completion_ret].
    destruct (Hfinish st0 Hht0) as (st' & -> & ->).
    eexists. split; [reflexivity|].
    assert (Hhints : hints st = Hints.init (Some target)).
    { clear Hfinish. destruct (hints st) as [t l a].
      cbn [Hints.targetFish Hints.revealedLetters Hints.revealedAttributes]
        in Hh, Hl, Ha.
      unfold Hints.init. congruence. }
    unfold guessedIds. rewrite Hg, Hover, Hwon, Hhints, Ht, Ho0.
    simpl. repeat split; solve [reflexivity|assumption].
Qed.

End ReloadLemmas2.

Section ReloadLemmas3.
Import Game.

(** [init] on a day without a stored session. *)
Lemma init_fresh (database : list FishEntity) (now : Date) (storage : Storage)
    (target : FishEntity) :
  Daily.fish (Daily.getDailyFish database None now) = Some target ->
  sessions storage !! sessionKey (Daily.getTodayKey now) = None ->
  init database now storage = Return (freshSession database now storage).
Proof.
  intros Hfish Hnone. rewrite init_unfold, Hnone.
  unfold renderSilhouette, Game.target, updateNameBlanks, updateHintsDisplay,
    Hints.getNameDisplay,
    Hints.canRevealLetter, Hints.canRevealAttribute, Hints.getLetterPositions,
    Hints.getRevealedAttributesList, Hints.target.
  unfold freshSession. cbv zeta. cbn [targetFish hints gameOver].
  rewrite Hfish. reflexivity.
Qed.

Lemma freshSession_invariant (database : list FishEntity) (now : Date)
    (storage : Storage) (target : FishEntity) :
  Daily.fish (Daily.getDailyFish database None now) = Some target ->
  sessionInvariant target (freshSession database now storage) /\
  fromDatabase (freshSession database now storage) /\
  statsPersisted (freshSession database now storage).
Proof.
  intros Hfish. unfold freshSession. cbv zeta. rewrite Hfish.
  split; [|split; [|reflexivity]].
  - unfold sessionInvariant, guessedIds. simpl.
    repeat split; try constructor; try discriminate;
      try (intros (g & Hg & _); discriminate).
  - unfold fromDatabase. simpl.
    repeat split; try constructor. discriminate.
Qed.

End ReloadLemmas3.

(** X18. Closing the page and opening it again on the same UTC day
    resumes the game. Let [init] start a session on a day for which
    nothing is stored, from a non-empty database with pairwise different
    ids in which no region is the name of a member that objects inherit
    from [Object.prototype], and let the user do anything on that day.
    Then no handler fails, and [init] applied later that day to the
    storage the session left returns normally with the same database
    and target, the same guesses in the same order, the same outcome,
    the same hint ledger and the same counters; [Autocomplete] again
    knows the guessed ids, and the input is disabled exactly when the
    game is over. *)
Theorem reload_resumes_session (database : list FishEntity) (now later : Date)
    (storage : Game.Storage) (actions : list (Date * Action)) :
  NoDup (map id database) ->
  database <> [] ->
  plainRegions database ->
  Game.sessions storage !! Game.sessionKey (Daily.getTodayKey now) = None ->
  Forall (fun a => sameDay now a.1) actions ->
  sameDay now later ->
  exists st0 st st',
    Game.init database now storage = Return st0 /\
    run actions st0 = Return st /\
    Game.init database later (Game.localStorage st) = Return st' /\
    Game.fishDatabase st' = Game.fishDatabase st /\
    Game.targetFish st' = Game.targetFish st /\
    Game.guesses st' = Game.guesses st /\
    Game.gameOver st' = Game.gameOver st /\
    Game.won st' = Game.won st /\
    Game.stats st' = Game.stats st /\
    Game.hints st' = Game.hints st /\
    Autocomplete.guessedFish (Game.autocomplete st') = guessedIds st /\
    Autocomplete.inputDisabled (Game.autocomplete st') = Game.gameOver st /\
    Game.localStorage st' = Game.localStorage st.
Proof.
  intros Hnd Hne Hplain Hnone Hday Hlater.
  destruct (getDailyFish_member database None now Hne) as (target & Hfish & _).
  destruct (freshSession_invariant database now storage target Hfish)
    as (Hinv0 & Hfrom0 & Hstats0).
  pose proof (init_fresh database now storage target Hfish Hnone) as Hinit.
  set (st0 := freshSession database now storage) in *.
  assert (Hd0 : Game.fishDatabase st0 = database) by reflexivity.
  assert (Hpers0 : persisted (Daily.getTodayKey now) st0).
  { unfold persisted, Game.loadGameState.
    replace (Game.localStorage st0) with storage by reflexivity.
    rewrite Hnone. repeat split; reflexivity. }
  assert (Hkeys : Forall (fun a => Daily.getTodayKey a.1 = Daily.getTodayKey now)
                         actions).
  { eapply Forall_impl; [exact Hday|]. intros a Ha. symmetry.
    now apply sameDay_key. }
  clearbody st0.
  rewrite <- Hd0 in Hplain.
  destruct (run_returns actions target st0 Hinv0 Hfrom0 Hplain) as (st & Hrun & _).
  destruct (run_stored actions _ target st0 st Hkeys Hinv0 Hfrom0 Hstats0 Hpers0 Hrun)
    as (Hinv & Hfrom & Hstats & Hpers & Hdb).
  rewrite Hd0 in Hdb.
  rewrite (sameDay_key _ _ Hlater) in Hpers.
  rewrite (sameDay_fish database _ _ Hlater) in Hfish.
  rewrite <- Hdb in Hnd, Hfish.
  destruct (init_stored later target st Hnd Hinv Hfrom Hstats Hpers Hfish)
    as (st' & Hcall & Hrest).
  rewrite Hdb in Hcall.
  exists st0, st, st'.
  split; [exact Hinit|split; [exact Hrun|split; [exact Hcall|exact Hrest]]].
Qed.

Lemma sampleDatabase_NoDup : NoDup (map id sampleDatabase).
Proof.
  unfold sampleDatabase. simpl.
  repeat (apply NoDup_cons_2;
          [rewrite ?elem_of_cons, elem_of_nil; intuition discriminate|]).
  apply NoDup_nil_2.
Qed.

Lemma restoreGameState_round_trip_witness :
  exists st',
    Game.restoreGameState
      (savedOf (Game.withHints allAttributesRevealed
                  (Game.withGuesses oneWrongGuess sampleSession)))
      sampleSession = Return st' /\
    Game.guesses st' = oneWrongGuess /\
    Game.hints st' = allAttributesRevealed.
Proof.
  destruct (restoreGameState_round_trip newYear2024 clownfish
              (Game.withHints allAttributesRevealed
                 (Game.withGuesses oneWrongGuess sampleSession))
              sampleSession) as (_ & st' & Hcall & Hg & _ & _ & Hh & _).
  - exact sampleDatabase_NoDup.
  - repeat constructor.
  - reflexivity.
  - reflexivity.
  - reflexivity.
  - reflexivity.
  - exists st'. split; [exact Hcall|]. split; [exact Hg|exact Hh].
Defined.

Lemma restoreGameState_unknown_id_witness :
  exists msg,
    Game.restoreGameState
      (Game.mkSavedGame
         (map (fun g => Game.mkSavedGuess "Kraken" (Game.comparison g) (Game.correct g))
              oneWrongGuess)
         (Hints.getState (Hints.init (Some clownfish))) false false)
      sampleSession = Throw (TypeError msg).
Proof.
  apply restoreGameState_unknown_id.
  unfold oneWrongGuess.
  destruct (Game.compareAttributes goldfish clownfish) as [c|e] eqn:Hc;
    [|vm_compute in Hc; discriminate].
  eexists. split; [left|].
  intros f Hf. simpl in Hf. unfold sampleDatabase in Hf.
  rewrite ?elem_of_cons, elem_of_nil in Hf.
  destruct Hf as [->|[->|[->|[]]]]; discriminate.
Defined.

Lemma reload_resumes_session_witness :
  exists st st',
    run sampleActions sampleSession = Return st /\
    Game.init sampleDatabase (mkDate (DateUTC 2024 0 1 + 3600000) 0)
              (Game.localStorage st) = Return st' /\
    Game.guesses st' = Game.guesses st /\
    Game.won st' = true.
Proof.
  destruct (reload_resumes_session sampleDatabase newYear2024
              (mkDate (DateUTC 2024 0 1 + 3600000) 0)
              (Game.mkStorage ∅ None) sampleActions)
    as (st0 & st & st' & Hinit & Hrun & Hcall & _ & _ & Hg & _ & Hw & _).
  - exact sampleDatabase_NoDup.
  - discriminate.
  - exact sampleDatabase_plainRegions.
  - reflexivity.
  - repeat constructor.
  - split; reflexivity.
  - exists st, st'.
    assert (Hst0 : st0 = sampleSession).
    { vm_compute in Hinit. injection Hinit as <-. reflexivity. }
    subst st0. split; [exact Hrun|]. split; [exact Hcall|]. split; [exact Hg|].
    rewrite Hw. vm_compute in Hrun. injection Hrun as <-. reflexivity.
Defined.

(** ** The suggestions of [Autocomplete] *)

Section AutocompleteLemmas.
Import Autocomplete.

Lemma handleInput_items_cases (st : State) :
  let value := trim (toLowerCase (inputValue st)) in
  items (handleInput st) = if bool_decide (value = "") then [] else matchesOf value st.
Proof.
  unfold handleInput. cbv zeta.
  case_bool_decide as Hblank; [reflexivity|].
  change (matchesOf _ (closeList st)) with (matchesOf (trim (toLowerCase (inputValue st))) st).
  case_bool_decide as Hnone; [|reflexivity].
  simpl. symmetry. now apply nil_length_inv.
Qed.

End AutocompleteLemmas.

(** X19. What [handleInput] lists for the text of the input, lowercased
    and trimmed: nothing for a blank text; otherwise at most eight fish,
    in the order of the database, each a fish of the database that was
    not guessed and whose lowercased name or scientific name contains
    the text; and when fewer than eight are listed, every such fish of
    the database is listed. The focus is on no item. *)
Theorem handleInput_suggestions (st : Autocomplete.State) :
  let value := trim (toLowerCase (Autocomplete.inputValue st)) in
  let shown := Autocomplete.items (Autocomplete.handleInput st) in
  let matching (f : FishEntity) :=
    (stringIncludes value (toLowerCase (name f)) = true \/
     stringIncludes value (toLowerCase (scientificName f)) = true) /\
    id f ∉ Autocomplete.guessedFish st in
  (value = "" -> shown = []) /\
  (length shown <= 8)%nat /\
  shown `sublist_of` Autocomplete.fishDatabase st /\
  (forall f, f ∈ shown -> f ∈ Autocomplete.fishDatabase st /\ matching f) /\
  (value <> "" -> (length shown < 8)%nat ->
   forall f, f ∈ Autocomplete.fishDatabase st -> matching f -> f ∈ shown) /\
  Autocomplete.currentFocus (Autocomplete.handleInput st) = -1.
Proof.
  intros value shown matching.
  assert (Hshown : shown = if bool_decide (value = "") then []
                           else Autocomplete.matchesOf value st)
    by apply handleInput_items_cases.
  assert (Hmatch : forall f,
            Is_true ((stringIncludes value (toLowerCase (name f))
                      || stringIncludes value (toLowerCase (scientificName f)))
                     && negb (includes (Autocomplete.guessedFish st) (id f)))
            <-> matching f).
  { intros f. unfold matching, includes.
    rewrite andb_True, orb_True, negb_True, bool_decide_spec, !Is_true_true.
    tauto. }
  split; [|split; [|split; [|split; [|split]]]].
  - intros Hblank. rewrite Hshown. now rewrite bool_decide_eq_true_2.
  - rewrite Hshown. case_bool_decide; [simpl; lia|].
    unfold Autocomplete.matchesOf. rewrite length_take. lia.
  - rewrite Hshown. case_bool_decide; [apply sublist_nil_l|].
    unfold Autocomplete.matchesOf.
    etrans; [apply sublist_take|apply sublist_filter].
  - intros f Hf. rewrite Hshown in Hf.
    case_bool_decide; [now apply elem_of_nil in Hf|].
    unfold Autocomplete.matchesOf in Hf.
    apply elem_of_take in Hf as (i & Hf & _).
    apply list_elem_of_lookup_2, list_elem_of_filter in Hf as [Hp Hf].
    split; [exact Hf|]. now apply Hmatch.
  - intros Hvalue Hfew f Hf Hm. rewrite Hshown in Hfew |- *.
    rewrite bool_decide_eq_false_2 in Hfew |- * by exact Hvalue.
    unfold Autocomplete.matchesOf in Hfew |- *.
    rewrite length_take in Hfew.
    rewrite take_ge by lia.
    apply list_elem_of_filter. split; [now apply Hmatch|exact Hf].
  - unfold Autocomplete.handleInput. repeat case_bool_decide; reflexivity.
Qed.

(** X20. The keyboard focus stays on the list. When the focus is on no
    item (-1) or on an item of the list, it is so after any key; on a
    non-empty list [ArrowDown] and [ArrowUp] put it on an item, moving
    it by one and wrapping around at the ends; neither changes the list
    or the input, and neither selects a fish. *)
Theorem handleKeydown_focus (key : Autocomplete.Key) (st : Autocomplete.State) :
  -1 <= Autocomplete.currentFocus st < Z.of_nat (length (Autocomplete.items st)) ->
  let count := Z.of_nat (length (Autocomplete.items st)) in
  let focus := Autocomplete.currentFocus st in
  let st' := (Autocomplete.handleKeydown key st).1 in
  -1 <= Autocomplete.currentFocus st'
     < Z.of_nat (length (Autocomplete.items st')) /\
  (Autocomplete.items st <> [] ->
   (key = Autocomplete.ArrowDown ->
    Autocomplete.currentFocus st' = (focus + 1) mod count /\
    Autocomplete.items st' = Autocomplete.items st /\
    Autocomplete.inputValue st' = Autocomplete.inputValue st /\
    (Autocomplete.handleKeydown key st).2 = None) /\
   (key = Autocomplete.ArrowUp ->
    Autocomplete.currentFocus st' = (Z.max focus 0 - 1) mod count /\
    Autocomplete.items st' = Autocomplete.items st /\
    Autocomplete.inputValue st' = Autocomplete.inputValue st /\
    (Autocomplete.handleKeydown key st).2 = None)).
Proof.
  intros Hfocus count focus st'. subst st'.
  unfold Autocomplete.handleKeydown. fold count. fold focus.
  case_bool_decide as Hempty.
  { split; [simpl; lia|]. intros Hne. destruct (Autocomplete.items st); [done|].
    discriminate. }
  assert (Hcount : 0 < count).
  { subst count. destruct (Autocomplete.items st); [done|]. simpl. lia. }
  split.
  - destruct key; cbn [fst Autocomplete.currentFocus Autocomplete.items].
    + fold count. destruct (Z.leb_spec count (focus + 1)); lia.
    + fold count. destruct (Z.ltb_spec (focus - 1) 0); lia.
    + assert (Hsel : forall item,
                -1 <= Autocomplete.currentFocus
                        (match find (fun f => bool_decide (id f = id item))
                                    (Autocomplete.fishDatabase st) with
                         | Some fish => (Autocomplete.selectItem fish st, Some fish)
                         | None => (st, None)
                         end).1
                   < Z.of_nat (length (Autocomplete.items
                        (match find (fun f => bool_decide (id f = id item))
                                    (Autocomplete.fishDatabase st) with
                         | Some fish => (Autocomplete.selectItem fish st, Some fish)
                         | None => (st, None)
                         end).1))).
      { intros item. destruct (find _ _); simpl; lia. }
      destruct (if -1 <? focus then _ else None) as [item|]; [apply Hsel|].
      case_bool_decide; [|simpl; lia].
      destruct (Autocomplete.items st !! 0%nat); [apply Hsel|simpl; lia].
    + simpl. lia.
    + simpl. lia.
  - intros _. split; intros ->; cbn [fst snd Autocomplete.currentFocus
                                      Autocomplete.items Autocomplete.inputValue].
    + split; [|done].
      destruct (Z.leb_spec count (focus + 1)).
      * assert (focus + 1 = count) as -> by lia. now rewrite Z.mod_same by lia.
      * rewrite Z.mod_small; lia.
    + split; [|done].
      destruct (Z.ltb_spec (focus - 1) 0).
      * assert (Z.max focus 0 = 0) as -> by lia.
        replace (0 - 1) with (-1) by lia.
        replace (-1) with (count - 1 + -1 * count) by lia.
        rewrite Z.mod_add by lia. rewrite Z.mod_small; lia.
      * rewrite Z.max_l by lia. rewrite Z.mod_small; lia.
Qed.

(** X21. [Enter] selects the item under the focus, and the only item of
    a one-item list when the focus is on none; with the focus on no item
    of a longer list it does nothing. Selecting an item puts the name of
    its fish into the input, closes the list and hands the fish to the
    callback. The items are fish of the database, whose ids are pairwise
    different. *)
Theorem handleKeydown_enter (st : Autocomplete.State) :
  NoDup (map id (Autocomplete.fishDatabase st)) ->
  Forall (fun f => f ∈ Autocomplete.fishDatabase st) (Autocomplete.items st) ->
  let selects (f : FishEntity) :=
    exists st', Autocomplete.handleKeydown Autocomplete.Enter st = (st', Some f) /\
                Autocomplete.inputValue st' = name f /\
                Autocomplete.items st' = [] /\
                Autocomplete.currentFocus st' = -1 in
  (forall (i : nat) f,
     Autocomplete.currentFocus st = Z.of_nat i ->
     Autocomplete.items st !! i = Some f -> selects f) /\
  (forall f,
     Autocomplete.currentFocus st = -1 ->
     Autocomplete.items st = [f] -> selects f) /\
  (Autocomplete.currentFocus st = -1 ->
   length (Autocomplete.items st) <> 1%nat ->
   Autocomplete.handleKeydown Autocomplete.Enter st = (st, None)).
Proof.
  intros Hnd Hitems selects.
  assert (Hfind : forall f, f ∈ Autocomplete.items st ->
            find (fun g => bool_decide (id g = id f)) (Autocomplete.fishDatabase st)
            = Some f).
  { intros f Hf. rewrite Forall_forall in Hitems.
    apply find_unique.
    - now apply Hitems.
    - now apply bool_decide_eq_true_2.
    - intros y Hy Hp. apply bool_decide_eq_true_1 in Hp.
      eapply NoDup_ids_unique; eauto. }
  split; [|split].
  - intros i f Hfocus Hitem. unfold selects, Autocomplete.handleKeydown.
    rewrite bool_decide_eq_false_2
      by (intros Hlen; apply nil_length_inv in Hlen; now rewrite Hlen in Hitem).
    rewrite Hfocus. destruct (Z.ltb_spec (-1) (Z.of_nat i)); [|lia].
    rewrite Nat2Z.id, Hitem, Hfind by (eapply list_elem_of_lookup_2; exact Hitem).
    eexists. split; [reflexivity|]. simpl. tauto.
  - intros f Hfocus Hitem. unfold selects, Autocomplete.handleKeydown.
    rewrite Hitem, Hfocus. simpl.
    rewrite Hfind by (rewrite Hitem; left).
    eexists. split; [reflexivity|]. simpl. tauto.
  - intros Hfocus Hlen. unfold Autocomplete.handleKeydown.
    case_bool_decide; [reflexivity|].
    rewrite Hfocus. simpl. now rewrite bool_decide_eq_false_2.
Qed.

Lemma handleKeydown_focus_witness :
  Autocomplete.currentFocus
    (Autocomplete.handleKeydown Autocomplete.ArrowUp
       (Autocomplete.handleInput
          (Autocomplete.mkState sampleDatabase "fish" false [] (-1) []))).1 = 1.
Proof.
  destruct (handleKeydown_focus Autocomplete.ArrowUp
              (Autocomplete.handleInput
                 (Autocomplete.mkState sampleDatabase "fish" false [] (-1) [])))
    as [_ Hmove].
  - vm_compute. split; [discriminate|reflexivity].
  - destruct Hmove as [_ Hup]; [discriminate|].
    destruct (Hup eq_refl) as [-> _]. reflexivity.
Defined.

Lemma handleKeydown_enter_witness :
  (Autocomplete.handleKeydown Autocomplete.Enter
     (Autocomplete.handleInput
        (Autocomplete.mkState sampleDatabase "tuna" false [] (-1) []))).2
  = Some tuna.
Proof.
  destruct (handleKeydown_enter
              (Autocomplete.handleInput
                 (Autocomplete.mkState sampleDatabase "tuna" false [] (-1) [])))
    as (_ & Hsingle & _).
  - exact sampleDatabase_NoDup.
  - exact (handleInput_items
             (Autocomplete.mkState sampleDatabase "tuna" false [] (-1) [])).
  - destruct (Hsingle tuna eq_refl eq_refl) as (st' & -> & _). reflexivity.
Defined.

Section StringLemmas.

Lemma toLowerCase_length (s : string) :
  String.length (toLowerCase s) = String.length s.
Proof. induction s as [|c s IH]; simpl; congruence. Qed.

Lemma toLowerCase_drop (n : nat) (s : string) :
  toLowerCase (stringDrop n s) = stringDrop n (toLowerCase s).
Proof.
  revert s. induction n as [|n IH]; intros [|c s]; simpl; try reflexivity.
  apply IH.
Qed.

Lemma toLowerCase_take (n : nat) (s : string) :
  toLowerCase (stringTake n s) = stringTake n (toLowerCase s).
Proof.
  revert s. induction n as [|n IH]; intros [|c s]; simpl; try reflexivity.
  now rewrite IH.
Qed.

Lemma startsWith_take (q s : string) :
  startsWith q s = true -> stringTake (String.length q) s = q.
Proof.
  revert s. induction q as [|a q IH]; intros [|b s]; simpl; try done.
  intros H. apply andb_true_iff in H as [Hab Hq].
  apply bool_decide_eq_true_1 in Hab. subst b. now rewrite IH.
Qed.

Lemma stringIndexOf_drop (q s : string) (i : nat) :
  stringIndexOf q s = Some i -> startsWith q (stringDrop i s) = true.
Proof.
  revert i. induction s as [|c s IH]; intros i; simpl.
  - destruct (startsWith q "") eqn:E; [|discriminate].
    intros [= <-]. exact E.
  - destruct (startsWith q (String c s)) eqn:E.
    + intros [= <-]. exact E.
    + destruct (stringIndexOf q s) as [j|]; [|discriminate].
      intros [= <-]. simpl. now apply IH.
Qed.

Lemma take_drop (n : nat) (s : string) : stringTake n s +:+ stringDrop n s = s.
Proof.
  revert s. induction n as [|n IH]; intros [|c s]; try reflexivity.
  change (String c (stringTake n s +:+ stringDrop n s) = String c s).
  f_equal. apply IH.
Qed.

Lemma take_drop_parts (i n : nat) (s : string) :
  stringTake i s +:+ stringTake n (stringDrop i s) +:+ stringDrop (i + n) s = s.
Proof.
  revert s. induction i as [|i IH]; intros s.
  - change (stringDrop 0 s) with s.
    replace (stringTake 0 s) with EmptyString by (destruct s; reflexivity).
    apply take_drop.
  - destruct s as [|c s].
    + destruct n; reflexivity.
    + change (String c (stringTake i s +:+ stringTake n (stringDrop i s)
                        +:+ stringDrop (i + n) s) = String c s).
      f_equal. apply IH.
Qed.

End StringLemmas.

(** X22. [highlightMatch] only adds the two tags. When the lowercased
    query occurs in the lowercased text, the three parts it puts around
    the tags make up the text, and the part between the tags is the
    query up to letter case, at its first occurrence; otherwise the text
    is returned as it is. *)
Theorem highlightMatch_parts (text query : string) :
  match Autocomplete.highlightParts text query with
  | Some (before, matched, after) =>
      before +:+ matched +:+ after = text /\
      toLowerCase matched = toLowerCase query /\
      stringIndexOf (toLowerCase query) (toLowerCase text)
        = Some (String.length before) /\
      Autocomplete.highlightMatch text query
        = before +:+ "<strong>" +:+ matched +:+ "</strong>" +:+ after
  | None =>
      stringIncludes (toLowerCase query) (toLowerCase text) = false /\
      Autocomplete.highlightMatch text query = text
  end.
Proof.
  unfold Autocomplete.highlightMatch, Autocomplete.highlightParts, stringIncludes.
  destruct (stringIndexOf (toLowerCase query) (toLowerCase text)) as [index|] eqn:Hindex.
  - unfold substring. rewrite Nat.sub_0_r. simpl stringDrop at 1.
    replace (index + String.length query - index)%nat
      with (String.length query) by lia.
    pose proof (stringIndexOf_drop _ _ _ Hindex) as Hstarts.
    apply startsWith_take in Hstarts.
    rewrite toLowerCase_length, <- toLowerCase_drop, <- toLowerCase_take in Hstarts.
    split; [apply take_drop_parts|]. split; [exact Hstarts|].
    split; [|reflexivity]. f_equal.
    assert (Hle : (index <= String.length text)%nat).
    { clear Hstarts. rewrite <- (toLowerCase_length text).
      revert index Hindex. generalize (toLowerCase text) as s.
      induction s as [|c s IH]; intros i; simpl.
      - destruct (startsWith _ ""); [intros [= <-]; lia|discriminate].
      - destruct (startsWith _ (String c s)); [intros [= <-]; lia|].
        destruct (stringIndexOf _ s) as [j|]; [|discriminate].
        intros [= <-]. specialize (IH j eq_refl). lia. }
    clear -Hle. revert index Hle.
    induction text as [|c s IH]; intros [|i] Hle; simpl in *; try lia;
      try reflexivity.
    f_equal. apply IH. lia.
  - split; [|reflexivity]. apply bool_decide_eq_false_2. intros [x Hx]. discriminate.
Qed.

Section OfferLemmas.
Import Game.

(** After a call of [submitGuess] that returns, the session is as before
    or the list is closed. *)
Lemma submitGuess_items (now : Date) (target : FishEntity) (st st' : State) :
  targetFish st = Some target ->
  submitGuess now st = Return st' ->
  st' = st \/ Autocomplete.items (autocomplete st') = [].
Proof.
  intros Ht Hcall.
  destruct (submitGuess_outcome now st st' target Ht Hcall)
    as [->|[->|(f & c & _ & _ & _ & _ & ->)]]; [now left|now right|right].
  unfold acceptedGuess. destruct (bool_decide (id f = id target)); reflexivity.
Qed.

(** Every action that returns keeps the items of the list among the
    fish that were not guessed. *)
Lemma step_offers (now : Date) (action : Action) (target : FishEntity)
    (st st' : State) :
  sessionInvariant target st ->
  Forall (fun f => id f ∉ guessedIds st) (Autocomplete.items (autocomplete st)) ->
  step now action st = Return st' ->
  Forall (fun f => id f ∉ guessedIds st') (Autocomplete.items (autocomplete st')).
Proof.
  intros Hinv Hitems.
  pose proof Hinv as (Ht & Hh & _ & Hgf & _).
  destruct action as [text|key|index| |rnd|rnd]; simpl.
  - intros [= <-].
    unfold typeText. rewrite Forall_forall. intros f Hf.
    change (guessedIds (withAutocomplete _ st)) with (guessedIds st).
    cbn [autocomplete withAutocomplete] in Hf.
    rewrite handleInput_items_cases in Hf. cbn [Autocomplete.inputValue] in Hf.
    case_bool_decide; [now apply elem_of_nil in Hf|].
    unfold Autocomplete.matchesOf in Hf.
    apply elem_of_take in Hf as (i & Hf & _).
    apply list_elem_of_lookup_2, list_elem_of_filter in Hf as [Hp _].
    cbn [Autocomplete.guessedFish] in Hp. rewrite Hgf in Hp.
    apply andb_True in Hp as [_ Hp]. apply negb_True in Hp.
    unfold includes in Hp. now rewrite bool_decide_spec in Hp.
  - assert (Hkey : let result := Autocomplete.handleKeydown key (autocomplete st) in
                   Autocomplete.items result.1 = Autocomplete.items (autocomplete st)
                   \/ Autocomplete.items result.1 = []).
    { unfold Autocomplete.handleKeydown. cbv zeta.
      case_bool_decide; [now left|].
      destruct key; simpl; try (now left); try (now right).
      destruct (if -1 <? Autocomplete.currentFocus (autocomplete st) then _ else None)
        as [item|].
      - destruct (find _ _); simpl; [now right|now left].
      - case_bool_decide; [|now left].
        destruct (Autocomplete.items (autocomplete st) !! 0%nat); [|now left].
        destruct (find _ _); simpl; [now right|now left]. }
    cbv zeta in Hkey.
    set (result := Autocomplete.handleKeydown key (autocomplete st)) in *.
    assert (Hitems' : Forall (fun f => id f ∉ guessedIds st)
                             (Autocomplete.items result.1))
      by (destruct Hkey as [->| ->]; [exact Hitems|constructor]).
    destruct result.2 as [fish|].
    + unfold handleFishSelect. intros Hcall.
      destruct (submitGuess_items now target
                  (withSelectedFish (Some fish) (withAutocomplete result.1 st)) st'
                  Ht Hcall) as [->|Hnil].
      * exact Hitems'.
      * rewrite Hnil. constructor.
    + intros [= <-]. exact Hitems'.
  - destruct (Autocomplete.items (autocomplete st) !! index) as [fish|].
    + unfold handleFishSelect. intros Hcall.
      destruct (submitGuess_items now target
                  (withSelectedFish (Some fish)
                     (withAutocomplete
                        (Autocomplete.selectItem fish (autocomplete st)) st)) st'
                  Ht Hcall) as [->|Hnil].
      * constructor.
      * rewrite Hnil. constructor.
    + intros [= <-]. exact Hitems.
  - intros Hcall.
    destruct (submitGuess_items now target st st' Ht Hcall) as [->|Hnil].
    + exact Hitems.
    + rewrite Hnil. constructor.
  - intros Hcall.
    destruct (useLetterHint_cases rnd now target st Hh) as (st1 & Hcall1 & Hcases).
    pose proof (eq_trans (eq_sym Hcall1) Hcall) as E. injection E as <-.
    destruct Hcases as [->|(hint & h' & _ & ->)]; exact Hitems.
  - intros Hcall.
    destruct (useAttributeHint_cases rnd now target st Hh) as (st1 & Hcall1 & Hcases).
    pose proof (eq_trans (eq_sym Hcall1) Hcall) as E. injection E as <-.
    destruct Hcases as [->|(hint & h' & _ & ->)]; exact Hitems.
Qed.

Lemma run_offers (actions : list (Date * Action)) (target : FishEntity)
    (st st' : State) :
  sessionInvariant target st ->
  Forall (fun f => id f ∉ guessedIds st) (Autocomplete.items (autocomplete st)) ->
  run actions st = Return st' ->
  Forall (fun f => id f ∉ guessedIds st') (Autocomplete.items (autocomplete st')).
Proof.
  revert st. induction actions as [|[now action] rest IH]; intros st Hinv Hitems Hrun.
  - injection Hrun as <-. exact Hitems.
  - apply run_cons in Hrun as (st1 & Hstep & Hrun).
    destruct (step_invariant now action target st st1 Hinv Hstep) as (Hinv1 & _).
    pose proof (step_offers now action target st st1 Hinv Hitems Hstep) as Hitems1.
    exact (IH st1 Hinv1 Hitems1 Hrun).
Qed.

End OfferLemmas.

(** X23. The list never offers a fish that was guessed, and picking an
    offered fish records it. Take a session with a target, a closed list
    and fish that are those of its database, and a database in which no
    region is the name of a member that objects inherit from
    [Object.prototype]. After any sequence of user actions no item of
    the list has the id of a guessed fish; and while the game is not
    over, a click on an item whose fish has a name that is not blank
    appends the guess of exactly that fish, with its comparison with the
    target, marks the game won exactly when the fish has the target's
    id, and empties the input and the list. *)
Theorem click_records_guess (target : FishEntity) (actions : list (Date * Action))
    (st : Game.State) :
  sessionInvariant target st ->
  fromDatabase st ->
  plainRegions (Game.fishDatabase st) ->
  Autocomplete.items (Game.autocomplete st) = [] ->
  exists st1,
    run actions st = Return st1 /\
    (forall f, f ∈ Autocomplete.items (Game.autocomplete st1) ->
               id f ∉ guessedIds st1) /\
    (forall (now : Date) (index : nat) (f : FishEntity),
       Autocomplete.items (Game.autocomplete st1) !! index = Some f ->
       Game.gameOver st1 = false ->
       trim (name f) <> "" ->
       exists st2 c,
         step now (ClickItem index) st1 = Return st2 /\
         Game.compareAttributes f target = Return c /\
         Game.guesses st2 =
           Game.guesses st1 ++ [Game.mkGuess f c (bool_decide (id f = id target))] /\
         Game.won st2 = bool_decide (id f = id target) /\
         Game.selectedFish st2 = None /\
         Autocomplete.inputValue (Game.autocomplete st2) = "" /\
         Autocomplete.items (Game.autocomplete st2) = []).
Proof.
  intros Hinv Hfrom Hplain Hclosed.
  destruct (run_returns actions target st Hinv Hfrom Hplain) as (st1 & Hrun & Hfrom1).
  destruct (run_invariant actions target st st1 Hinv Hrun) as (Hinv1 & Hdb1 & _).
  assert (Hitems : Forall (fun f => id f ∉ guessedIds st1)
                          (Autocomplete.items (Game.autocomplete st1))).
  { apply (run_offers actions target st st1 Hinv); [|exact Hrun].
    rewrite Hclosed. constructor. }
  exists st1. split; [exact Hrun|].
  rewrite Forall_forall in Hitems. split; [exact Hitems|].
  intros now index f Hitem Hover Hname.
  assert (Hnew : id f ∉ guessedIds st1)
    by (apply Hitems; eapply list_elem_of_lookup_2; exact Hitem).
  assert (Hf : region (attributes f) ∉ OBJECT_PROTOTYPE).
  { destruct Hfrom1 as (_ & Hin & _). rewrite Forall_forall in Hin.
    unfold plainRegions in Hplain. rewrite Forall_forall in Hplain.
    apply Hplain. rewrite <- Hdb1. apply Hin.
    eapply list_elem_of_lookup_2. exact Hitem. }
  destruct (compareAttributes_returns f target Hf) as [c Hc].
  pose proof Hinv1 as (Ht & _ & _ & _ & _ & Hwon & _).
  assert (Hdup : existsb (fun g => bool_decide (id (Game.fish g) = id f))
                         (Game.guesses st1) = false).
  { destruct (existsb _ _) eqn:E; [|reflexivity].
    apply existsb_guessed in E. contradiction. }
  simpl. rewrite Hitem. unfold Game.handleFishSelect, Game.submitGuess.
  cbn [Game.gameOver Game.withSelectedFish Game.withAutocomplete
       Game.autocomplete Game.selectedFish Game.guesses
       Autocomplete.inputValue Autocomplete.selectItem Autocomplete.closeList].
  rewrite Hover, bool_decide_eq_false_2 by exact Hname.
  rewrite Hdup. unfold Game.target.
  cbn [Game.targetFish Game.withSelectedFish Game.withAutocomplete].
  rewrite Ht. cbn [mbind completion_bind]. rewrite Hc. cbn [mbind completion_bind].
  eexists _, c. split; [reflexivity|]. split; [reflexivity|].
  cbn [Game.correct].
  destruct (bool_decide (id f = id target)); simpl;
    repeat split; try reflexivity.
  congruence.
Qed.

Lemma click_records_guess_witness :
  exists st1 st2,
    run [(newYear2024, TypeText "fish")] sampleSession = Return st1 /\
    step newYear2024 (ClickItem 1) st1 = Return st2 /\
    Game.won st2 = true.
Proof.
  destruct (click_records_guess clownfish [(newYear2024, TypeText "fish")]
              sampleSession sampleSession_invariant sampleSession_fromDatabase
              sampleDatabase_plainRegions eq_refl)
    as (st1 & Hrun & _ & Hclick).
  exists st1.
  assert (Hst1 : Autocomplete.items (Game.autocomplete st1) !! 1%nat = Some clownfish
                 /\ Game.gameOver st1 = false).
  { vm_compute in Hrun. injection Hrun as <-. split; reflexivity. }
  destruct Hst1 as [Hitem Hover].
  destruct (Hclick newYear2024 1%nat clownfish Hitem Hover)
    as (st2 & c & Hstep & _ & _ & Hwon & _); [discriminate|].
  exists st2. split; [exact Hrun|]. split; [exact Hstep|]. rewrite Hwon. reflexivity.
Defined.

(** ** The day and its fish *)

Section CalendarLemmas.

(** Checking a property of the numbers below [n] one by one. *)
Lemma iter_check (check : Z -> bool) (n : N) :
  (N.iter n (fun s : Z * bool => (s.1 + 1, s.2 && check s.1)) (0, true)).2 = true ->
  forall k, 0 <= k < Z.of_N n -> check k = true.
Proof.
  set (step := fun s : Z * bool => (s.1 + 1, s.2 && check s.1)).
  enough (H : (N.iter n step (0, true)).1 = Z.of_N n /\
              ((N.iter n step (0, true)).2 = true ->
               forall k, 0 <= k < Z.of_N n -> check k = true)) by tauto.
  induction n as [|n [IH1 IH2]] using N.peano_ind.
  - simpl. split; [reflexivity|]. intros _ k Hk. lia.
  - rewrite N.iter_succ.
    unfold step at 1 3. cbn [fst snd]. rewrite IH1. split; [lia|].
    intros H. apply andb_true_iff in H as [Hok Hcheck].
    intros k Hk. destruct (Z.eq_dec k (Z.of_N n)) as [->|Hne]; [exact Hcheck|].
    apply IH2; [exact Hok|lia].
Qed.

(** The civil date of every day of one 400-year era leads back to the
    day, with a year of the era, a month from 0 to 11 and a day of the
    month from 1 to 31; from day 135080 of the era on, the year of the
    era is at least 370. *)
Lemma civilFromDays_era_check :
  (N.iter 146097
     (fun s : Z * bool =>
        (s.1 + 1,
         s.2 && (let n := s.1 - 719468 in
                 let '(y, m, d) := civilFromDays n in
                 (MakeDay y m d =? n) && (0 <=? y) && (0 <=? m) && (m <=? 11)
                 && (1 <=? d) && (d <=? 31)
                 && ((s.1 <? 135080) || (370 <=? y)))))
     (0, true)).2 = true.
Proof. vm_compute. reflexivity. Qed.

End CalendarLemmas.

Section CalendarLemmas2.

Lemma DayFromYear_era (y k : Z) : DayFromYear (y + 400 * k) = DayFromYear y + 146097 * k.
Proof.
  unfold DayFromYear.
  replace (y + 400 * k - 1969) with (y - 1969 + (100 * k) * 4) by ring.
  replace (y + 400 * k - 1901) with (y - 1901 + (4 * k) * 100) by ring.
  replace (y + 400 * k - 1601) with (y - 1601 + k * 400) by ring.
  rewrite !Z.div_add by discriminate. ring.
Qed.

Lemma InLeapYear_era (y k : Z) : InLeapYear (y + 400 * k) = InLeapYear y.
Proof.
  unfold InLeapYear.
  replace ((y + 400 * k) mod 4) with (y mod 4)
    by (replace (y + 400 * k) with (y + (100 * k) * 4) by ring;
        now rewrite Z.mod_add).
  replace ((y + 400 * k) mod 100) with (y mod 100)
    by (replace (y + 400 * k) with (y + (4 * k) * 100) by ring;
        now rewrite Z.mod_add).
  replace ((y + 400 * k) mod 400) with (y mod 400)
    by (replace (y + 400 * k) with (y + k * 400) by ring;
        now rewrite Z.mod_add).
  reflexivity.
Qed.

Lemma MakeDay_era (y m d k : Z) :
  0 <= m <= 11 -> MakeDay (y + 400 * k) m d = MakeDay y m d + 146097 * k.
Proof.
  intros Hm. unfold MakeDay. cbv zeta.
  rewrite Z.div_small, Z.mod_small by lia.
  rewrite !Z.add_0_r, DayFromYear_era, InLeapYear_era. ring.
Qed.

(** The civil date of a day is that of the day of its era, 400 years
    later for every era. *)
Lemma civilFromDays_era (n : Z) :
  civilFromDays n =
    (let '(y, m, d) := civilFromDays ((n + 719468) mod 146097 - 719468) in
     (y + 400 * ((n + 719468) / 146097), m, d)).
Proof.
  unfold civilFromDays. cbv zeta.
  replace ((n + 719468) mod 146097 - 719468 + 719468)
    with ((n + 719468) mod 146097) by ring.
  assert (Hdoe : 0 <= (n + 719468) mod 146097 < 146097)
    by (apply Z.mod_pos_bound; lia).
  rewrite (Z.div_small ((n + 719468) mod 146097) 146097) by exact Hdoe.
  replace ((n + 719468) mod 146097 - 0 * 146097)
    with ((n + 719468) mod 146097) by ring.
  replace (n + 719468 - (n + 719468) / 146097 * 146097)
    with ((n + 719468) mod 146097)
    by (rewrite Z.mod_eq by discriminate; ring).
  f_equal. f_equal. ring.
Qed.

(** [MakeDay] leads from the civil date of a day back to the day. *)
Lemma MakeDay_civilFromDays (n : Z) :
  MakeDay (civilFromDays n).1.1 (civilFromDays n).1.2 (civilFromDays n).2 = n /\
  (0 <= n -> 1970 <= (civilFromDays n).1.1) /\
  0 <= (civilFromDays n).1.2 <= 11 /\
  1 <= (civilFromDays n).2 <= 31.
Proof.
  rewrite civilFromDays_era.
  assert (Hdoe : 0 <= (n + 719468) mod 146097 < 146097)
    by (apply Z.mod_pos_bound; lia).
  pose proof (iter_check
                (fun k =>
                   let n := k - 719468 in
                   let '(y, m, d) := civilFromDays n in
                   (MakeDay y m d =? n) && (0 <=? y) && (0 <=? m) && (m <=? 11)
                   && (1 <=? d) && (d <=? 31)
                   && ((k <? 135080) || (370 <=? y)))
                146097 civilFromDays_era_check _ Hdoe) as Hcheck.
  cbv beta zeta in Hcheck.
  destruct (civilFromDays ((n + 719468) mod 146097 - 719468)) as [[y m] d].
  apply andb_true_iff in Hcheck as [Hcheck Hlate].
  apply andb_true_iff in Hcheck as [Hcheck Hd2].
  apply andb_true_iff in Hcheck as [Hcheck Hd1].
  apply andb_true_iff in Hcheck as [Hcheck Hm2].
  apply andb_true_iff in Hcheck as [Hcheck Hm1].
  apply andb_true_iff in Hcheck as [Hday Hy].
  apply Z.eqb_eq in Hday. apply Z.leb_le in Hy, Hm1, Hm2, Hd1, Hd2.
  cbn [fst snd]. split; [|split; [|lia]].
  - rewrite MakeDay_era by lia. rewrite Hday.
    rewrite (Z.mod_eq (n + 719468) 146097) by discriminate. ring.
  - intros Hn.
    assert (4 <= (n + 719468) / 146097)
      by (apply Z.div_le_lower_bound; lia).
    apply orb_true_iff in Hlate as [Hearly|Hlate].
    + apply Z.ltb_lt in Hearly.
      rewrite (Z.mod_eq (n + 719468) 146097) in Hearly by discriminate. lia.
    + apply Z.leb_le in Hlate. lia.
Qed.

(** From 1970 on, [getTodayUTC] is the UTC midnight of the day. *)
Lemma getTodayUTC_time (now : Date) :
  0 <= getTime now ->
  getTime (Daily.getTodayUTC now) = getTime now / msPerDay * msPerDay.
Proof.
  intros Hnow. unfold Daily.getTodayUTC, getUTCFullYear, getUTCMonth, getUTCDate.
  cbn [getTime]. unfold DateUTC. cbv zeta.
  assert (Hday : 0 <= getTime now / msPerDay)
    by (apply Z.div_pos; [exact Hnow|reflexivity]).
  destruct (MakeDay_civilFromDays (getTime now / msPerDay)) as (Hround & Hyear & _).
  specialize (Hyear Hday).
  replace ((0 <=? (civilFromDays (getTime now / msPerDay)).1.1)
           && ((civilFromDays (getTime now / msPerDay)).1.1 <=? 99)) with false
    by (symmetry; apply andb_false_iff; right; apply Z.leb_gt; lia).
  now rewrite Hround.
Qed.

Lemma dateToSeed_localDays (a b : Date) :
  localDays a = localDays b -> Daily.dateToSeed a = Daily.dateToSeed b.
Proof.
  intros H. unfold Daily.dateToSeed, getFullYear, getMonth, getDate.
  now rewrite H.
Qed.

Lemma isoDate_day (a b : Date) :
  getTime a / msPerDay = getTime b / msPerDay -> isoDate a = isoDate b.
Proof.
  intros H. unfold isoDate, getUTCFullYear, getUTCMonth, getUTCDate.
  now rewrite H.
Qed.

Lemma getGameNumber_day (a b : Date) :
  getTime a / msPerDay = getTime b / msPerDay ->
  Daily.getGameNumber a = Daily.getGameNumber b.
Proof.
  intros H. unfold Daily.getGameNumber. cbv zeta.
  change (1000 * 60 * 60 * 24) with msPerDay.
  change (DateUTC 2024 0 1) with (MakeDay 2024 0 1 * msPerDay).
  replace (getTime a - MakeDay 2024 0 1 * msPerDay)
    with (getTime a + (- MakeDay 2024 0 1) * msPerDay) by ring.
  replace (getTime b - MakeDay 2024 0 1 * msPerDay)
    with (getTime b + (- MakeDay 2024 0 1) * msPerDay) by ring.
  rewrite !Z.div_add by discriminate. now rewrite H.
Qed.

End CalendarLemmas2.

Section SeedLemmas.

Lemma digitOf_pretty_N_char (r : N) :
  (r < 10)%N -> digitOf (pretty_N_char r) = Some (Z.of_N r).
Proof.
  intros Hr.
  assert (H : r = 0%N \/ r = 1%N \/ r = 2%N \/ r = 3%N \/ r = 4%N \/ r = 5%N \/
              r = 6%N \/ r = 7%N \/ r = 8%N \/ r = 9%N) by lia.
  repeat (destruct H as [->|H]; [reflexivity|]). subst r. reflexivity.
Qed.

(** Reading the digits that [pretty] wrote gives the number back. *)
Lemma parseDigits_pretty_N_go (x : N) :
  (0 < x)%N ->
  forall acc s, default 0 acc = 0 ->
    parseDigits acc (pretty_N_go x s) = parseDigits (Some (Z.of_N x)) s.
Proof.
  induction (N.lt_wf_0 x) as [x _ IH]. intros Hx acc s Hacc.
  rewrite pretty_N_go_step by exact Hx.
  assert (Hdigit : digitOf (pretty_N_char (x mod 10)%N) = Some (Z.of_N (x mod 10)%N))
    by (apply digitOf_pretty_N_char, N.mod_lt; discriminate).
  assert (Hx10 : Z.of_N x = 10 * Z.of_N (x / 10)%N + Z.of_N (x mod 10)%N).
  { pose proof (N.div_mod x 10%N ltac:(discriminate)) as E.
    apply (f_equal Z.of_N) in E. rewrite N2Z.inj_add, N2Z.inj_mul in E. exact E. }
  destruct (N.eq_dec (x / 10)%N 0%N) as [Hzero|Hpos].
  - rewrite Hzero, pretty_N_go_0. simpl. rewrite Hdigit, Hacc.
    rewrite Hx10, Hzero. reflexivity.
  - rewrite (IH (x / 10)%N (N.div_lt x 10 Hx eq_refl)
                (proj1 (N.neq_0_lt_0 _) Hpos) acc _ Hacc).
    simpl. rewrite Hdigit. now rewrite Hx10.
Qed.

Lemma pretty_N_go_app (x : N) (s t : string) :
  pretty_N_go x s +:+ t = pretty_N_go x (s +:+ t).
Proof.
  revert s. induction (N.lt_wf_0 x) as [x _ IH]. intros s.
  destruct (N.eq_dec x 0%N) as [->|Hx]; [now rewrite !pretty_N_go_0|].
  assert (Hpos : (0 < x)%N) by lia.
  rewrite (pretty_N_go_step x s Hpos), (pretty_N_go_step x (s +:+ t) Hpos).
  rewrite IH by (apply N.div_lt; [exact Hpos|reflexivity]). reflexivity.
Qed.

Lemma parseDigits_pretty (y : Z) (s : string) :
  0 <= y -> parseDigits None (pretty y +:+ s) = parseDigits (Some y) s.
Proof.
  intros Hy. destruct y as [|p|p]; [reflexivity| |lia].
  change (pretty (Z.pos p)) with (pretty_N_go (N.pos p) "").
  rewrite pretty_N_go_app.
  rewrite parseDigits_pretty_N_go; [reflexivity|reflexivity|reflexivity].
Qed.

Lemma parseDigits_Some (s : string) (a : Z) : is_Some (parseDigits (Some a) s).
Proof.
  revert a. induction s as [|c s IH]; intros a; simpl; [eauto|].
  destruct (digitOf c); [apply IH|eauto].
Qed.

(** A string that reads as a number from its first character has no
    sign, and [parseInt] reads its digits. *)
Lemma parseInt_digits (s : string) (v : Z) :
  parseDigits None s = Some v -> parseInt s = Some v.
Proof.
  intros H. destruct s as [|c s]; [discriminate|].
  unfold parseInt.
  destruct (ascii_dec c "-") as [->|Hminus]; [discriminate|].
  destruct (ascii_dec c "+") as [->|Hplus]; [discriminate|].
  rewrite <- H.
  destruct c as [[] [] [] [] [] [] [] []]; try reflexivity; congruence.
Qed.

Lemma parseDigits_two (c1 c2 : ascii) (d1 d2 a : Z) (s : string) :
  digitOf c1 = Some d1 -> digitOf c2 = Some d2 ->
  parseDigits (Some a) (String c1 (String c2 s))
  = parseDigits (Some (100 * a + (10 * d1 + d2))) s.
Proof.
  intros H1 H2. cbn [parseDigits]. rewrite H1. cbn [parseDigits]. rewrite H2.
  cbn [default from_option]. unfold Datatypes.id.
  replace (10 * (10 * a + d1) + d2) with (100 * a + (10 * d1 + d2)) by ring.
  reflexivity.
Qed.

(** A number below 100, padded to two digits, reads as two more digits. *)
Lemma parseDigits_two_digits (v a : Z) (s : string) :
  0 <= v <= 99 ->
  parseDigits (Some a) (padStart 2 "0" (pretty v) +:+ s)
  = parseDigits (Some (100 * a + v)) s.
Proof.
  intros Hv.
  assert (Hn : exists n : nat, v = Z.of_nat n /\ (n < 100)%nat)
    by (exists (Z.to_nat v); lia).
  destruct Hn as (n & -> & Hn).
  do 100 (destruct n as [|n];
          [match goal with
           | |- context [padStart 2 "0" (pretty ?k)] =>
               let t := eval vm_compute in (padStart 2 "0" (pretty k)) in
               match t with
               | String ?c1 (String ?c2 EmptyString) =>
                   change (padStart 2 "0" (pretty k) +:+ s)
                     with (String c1 (String c2 s));
                   erewrite (parseDigits_two c1 c2);
                   [|vm_compute; reflexivity|vm_compute; reflexivity];
                   reflexivity
               end
           end|]).
  lia.
Qed.

Lemma append_empty (s : string) : s +:+ "" = s.
Proof.
  induction s as [|c s IH]; [reflexivity|].
  change (String c (s +:+ "") = String c s). now rewrite IH.
Qed.

Lemma dateToSeed_formula (date : Date) :
  0 <= localDays date ->
  Daily.dateToSeed date
  = Some (getFullYear date * 10000 + (getMonth date + 1) * 100 + getDate date).
Proof.
  intros Hlocal. unfold Daily.dateToSeed, getFullYear, getMonth, getDate. cbv zeta.
  destruct (MakeDay_civilFromDays (localDays date)) as (_ & Hy & Hm & Hd).
  specialize (Hy Hlocal).
  apply parseInt_digits.
  rewrite parseDigits_pretty by lia.
  rewrite parseDigits_two_digits by lia.
  rewrite <- (append_empty (padStart 2 "0" (pretty (civilFromDays (localDays date)).2))).
  rewrite parseDigits_two_digits by lia.
  simpl. f_equal. ring.
Qed.

(** Dates of different local days have different seeds. *)
Lemma dateToSeed_inj (a b : Date) :
  0 <= localDays a -> 0 <= localDays b ->
  Daily.dateToSeed a = Daily.dateToSeed b -> localDays a = localDays b.
Proof.
  intros Ha Hb.
  rewrite (dateToSeed_formula a Ha), (dateToSeed_formula b Hb).
  unfold getFullYear, getMonth, getDate. intros Hseed.
  apply (inj Some) in Hseed.
  destruct (MakeDay_civilFromDays (localDays a)) as (Hround & _ & Hm & Hd).
  destruct (MakeDay_civilFromDays (localDays b)) as (Hround' & _ & Hm' & Hd').
  rewrite <- Hround, <- Hround'.
  assert ((civilFromDays (localDays a)).1.1 = (civilFromDays (localDays b)).1.1
          /\ (civilFromDays (localDays a)).1.2 = (civilFromDays (localDays b)).1.2
          /\ (civilFromDays (localDays a)).2 = (civilFromDays (localDays b)).2)
    as (-> & -> & ->) by lia.
  reflexivity.
Qed.

End SeedLemmas.

(** X24. The seed is the local calendar date read as the number
    YYYYMMDD. For a date whose local time is not before 1970,
    [dateToSeed] returns a number, never NaN: the local year times
    10000, plus the local month counted from 1 times 100, plus the local
    day of the month. Two such dates have the same seed exactly when
    they fall on the same local day. *)
Theorem dateToSeed_local_date (date : Date) :
  0 <= getTime date + localTZA date ->
  Daily.dateToSeed date
    = Some (getFullYear date * 10000 + (getMonth date + 1) * 100 + getDate date) /\
  1970 <= getFullYear date /\
  0 <= getMonth date <= 11 /\
  1 <= getDate date <= 31 /\
  (forall other : Date,
     0 <= getTime other + localTZA other ->
     (Daily.dateToSeed other = Daily.dateToSeed date
      <-> localDays other = localDays date)).
Proof.
  intros Hdate.
  assert (Hlocal : forall d : Date, 0 <= getTime d + localTZA d -> 0 <= localDays d)
    by (intros d Hd; apply Z.div_pos; [exact Hd|reflexivity]).
  pose proof (Hlocal date Hdate) as Hdays.
  destruct (MakeDay_civilFromDays (localDays date)) as (Hround & Hy & Hm & Hd).
  specialize (Hy Hdays).
  split; [now apply dateToSeed_formula|].
  split; [|split; [exact Hm|split; [exact Hd|]]].
  - exact Hy.
  - intros other Hother. pose proof (Hlocal other Hother) as Hdays'.
    split; [now apply dateToSeed_inj|intros H; now apply dateToSeed_localDays].
Qed.

(** X25. From 1970 on, [getTodayUTC] is the UTC midnight that starts the
    day of [now]: its time is the day number times the milliseconds of
    a day, at most [now] and less than a day before it. Applying it
    twice changes nothing, its game number is that of [now], and the
    storage key [getTodayKey] is the UTC date of [now]. *)
Theorem getTodayUTC_midnight (now : Date) :
  0 <= getTime now ->
  getTime (Daily.getTodayUTC now) = getTime now / msPerDay * msPerDay /\
  getTime (Daily.getTodayUTC now) <= getTime now
    < getTime (Daily.getTodayUTC now) + msPerDay /\
  Daily.getTodayUTC (Daily.getTodayUTC now) = Daily.getTodayUTC now /\
  Daily.getGameNumber (Daily.getTodayUTC now) = Daily.getGameNumber now /\
  Daily.getTodayKey now = isoDate now.
Proof.
  intros Hnow. pose proof (getTodayUTC_time now Hnow) as Htime.
  assert (Hday : getTime (Daily.getTodayUTC now) / msPerDay = getTime now / msPerDay)
    by (rewrite Htime; apply Z.div_mul; discriminate).
  split; [exact Htime|]. split; [|split; [|split]].
  - rewrite Htime. pose proof (Z.mod_pos_bound (getTime now) msPerDay eq_refl).
    rewrite (Z.mod_eq (getTime now) msPerDay) in H by discriminate. lia.
  - unfold Daily.getTodayUTC at 1. unfold getUTCFullYear, getUTCMonth, getUTCDate.
    rewrite Hday. reflexivity.
  - now apply getGameNumber_day.
  - unfold Daily.getTodayKey. now apply isoDate_day.
Qed.

(** X26. The fish of the day depends on the time zone of the host. From
    1970-01-02 on, the game number and the date of [getDailyFish] are
    those of the UTC day of [now]. The seed, however, is read from the
    local calendar date of the UTC midnight, with the offset of local
    time that is in force on the host at that midnight; on the day of a
    clock change this is not the offset in force at [now]. When that
    offset is zero or ahead of UTC the fish is the one a host on UTC
    time gets that day, and when it is behind UTC it is the one a host
    on UTC time gets the day before, picked with another seed than the
    one a host on UTC time uses at the same moment. *)
Theorem getDailyFish_time_zone (fishDatabase : list FishEntity) (now : Date) :
  msPerDay <= getTime now ->
  let today := getTime now / msPerDay in
  let daily := Daily.getDailyFish fishDatabase None now in
  let offset := hostTZA now (today * msPerDay) in
  let onUTC (day : Z) :=
    Daily.getDailyFish fishDatabase None (mkDate (day * msPerDay) 0) in
  Daily.gameNumber daily = today - MakeDay 2024 0 1 + 1 /\
  Daily.date daily = isoDate now /\
  localTZA (Daily.getTodayUTC now) = offset /\
  (0 <= offset < msPerDay -> Daily.fish daily = Daily.fish (onUTC today)) /\
  (- msPerDay <= offset < 0 ->
   Daily.fish daily = Daily.fish (onUTC (today - 1)) /\
   Daily.gameNumber daily = Daily.gameNumber (onUTC (today - 1)) + 1 /\
   Daily.dateToSeed (Daily.getTodayUTC now)
     <> Daily.dateToSeed (Daily.getTodayUTC (mkDate (today * msPerDay) 0))).
Proof.
  intros Hnow today daily offset onUTC.
  assert (Hpos : 0 <= getTime now) by (unfold msPerDay in Hnow; lia).
  assert (Htoday : 1 <= today)
    by (apply Z.div_le_lower_bound; [reflexivity|lia]).
  pose proof (getTodayUTC_time now Hpos) as Htime. fold today in Htime.
  assert (Hutc : forall day tz, 0 <= day ->
            getTime (Daily.getTodayUTC (mkDate (day * msPerDay) tz)) = day * msPerDay).
  { intros day tz Hday. rewrite getTodayUTC_time; unfold mkDate; cbn [getTime].
    - now rewrite Z.div_mul by discriminate.
    - unfold msPerDay. lia. }
  assert (Hnumber : forall d : Date,
            Daily.getGameNumber d = getTime d / msPerDay - MakeDay 2024 0 1 + 1).
  { intros d. unfold Daily.getGameNumber. cbv zeta.
    change (1000 * 60 * 60 * 24) with msPerDay.
    change (DateUTC 2024 0 1) with (MakeDay 2024 0 1 * msPerDay).
    replace (getTime d - MakeDay 2024 0 1 * msPerDay)
      with (getTime d + (- MakeDay 2024 0 1) * msPerDay) by ring.
    rewrite Z.div_add by discriminate. ring. }
  assert (Hoffset : localTZA (Daily.getTodayUTC now) = offset).
  { unfold localTZA. rewrite Htime. reflexivity. }
  assert (Hseed : forall day, 0 <= day ->
            localDays (Daily.getTodayUTC (mkDate (day * msPerDay) 0)) = day).
  { intros day Hday. unfold localDays, localTZA.
    rewrite (Hutc day 0 Hday).
    change (hostTZA (Daily.getTodayUTC (mkDate (day * msPerDay) 0)) (day * msPerDay))
      with 0.
    rewrite Z.add_0_r. now rewrite Z.div_mul by discriminate. }
  assert (Hlocal : localDays (Daily.getTodayUTC now)
                   = (today * msPerDay + offset) / msPerDay).
  { unfold localDays. rewrite Hoffset, Htime. reflexivity. }
  assert (Hfish : forall day,
            0 <= day -> localDays (Daily.getTodayUTC now) = day ->
            Daily.fish daily = Daily.fish (onUTC day)).
  { intros day Hday Heq. unfold daily, onUTC, Daily.getDailyFish. cbv zeta.
    cbn [Daily.fish].
    rewrite (dateToSeed_localDays (Daily.getTodayUTC now)
               (Daily.getTodayUTC (mkDate (day * msPerDay) 0))); [reflexivity|].
    now rewrite Heq, Hseed by exact Hday. }
  split; [|split; [|split; [exact Hoffset|split]]].
  - unfold daily, Daily.getDailyFish. cbv zeta. cbn [Daily.gameNumber].
    rewrite Hnumber, Htime. now rewrite Z.div_mul by discriminate.
  - unfold daily, Daily.getDailyFish. cbv zeta. cbn [Daily.date].
    apply isoDate_day. rewrite Htime. now rewrite Z.div_mul by discriminate.
  - intros Htz. apply Hfish; [lia|]. rewrite Hlocal.
    rewrite Z.add_comm, Z.div_add by discriminate.
    rewrite Z.div_small by exact Htz. reflexivity.
  - intros Htz.
    assert (Hwest : localDays (Daily.getTodayUTC now) = today - 1).
    { rewrite Hlocal.
      replace (today * msPerDay + offset)
        with (offset + msPerDay + (today - 1) * msPerDay) by ring.
      rewrite Z.div_add by discriminate.
      rewrite Z.div_small by lia. reflexivity. }
    split; [|split].
    + apply Hfish; [lia|exact Hwest].
    + unfold daily, onUTC, Daily.getDailyFish. cbv zeta. cbn [Daily.gameNumber].
      rewrite !Hnumber, Htime, Hutc by lia.
      rewrite !Z.div_mul by discriminate. ring.
    + pose proof (Hseed today ltac:(lia)) as Hzero.
      intros Hsame. apply dateToSeed_inj in Hsame; lia.
Qed.

Lemma getTodayUTC_midnight_witness :
  getTime (Daily.getTodayUTC (mkDate (DateUTC 2024 0 1 + 3600000) 0))
  = DateUTC 2024 0 1.
Proof.
  destruct (getTodayUTC_midnight (mkDate (DateUTC 2024 0 1 + 3600000) 0))
    as [-> _]; [discriminate|reflexivity].
Defined.

Lemma dateToSeed_local_date_witness : Daily.dateToSeed newYear2024 = Some 20240101.
Proof.
  destruct (dateToSeed_local_date newYear2024) as [-> _]; [discriminate|reflexivity].
Defined.

Lemma getDailyFish_time_zone_witness :
  msPerDay <= getTime clockChangeNoon /\
  localTZA clockChangeNoon = 0 /\
  localTZA (Daily.getTodayUTC clockChangeNoon) = -3600000 /\
  Daily.date (Daily.getDailyFish sampleDatabase None clockChangeNoon) = "2024-03-31" /\
  Daily.fish (Daily.getDailyFish sampleDatabase None clockChangeNoon) = Some goldfish /\
  Daily.fish (Daily.getDailyFish sampleDatabase None
                (mkDate (getTime clockChangeNoon) 0)) = Some tuna.
Proof.
  assert (Hnow : msPerDay <= getTime clockChangeNoon) by discriminate.
  split; [exact Hnow|]. split; [reflexivity|].
  destruct (getDailyFish_time_zone sampleDatabase clockChangeNoon Hnow)
    as (_ & Hdate & Hoffset & _ & Hwest).
  destruct Hwest as (Hfish & _); [split; [discriminate|reflexivity]|].
  split; [rewrite Hoffset; reflexivity|].
  split; [rewrite Hdate; reflexivity|].
  split; [rewrite Hfish; reflexivity|].
  destruct (getDailyFish_time_zone sampleDatabase (mkDate (getTime clockChangeNoon) 0)
              Hnow) as (_ & _ & _ & Heast & _).
  rewrite Heast; [reflexivity|split; [discriminate|reflexivity]].
Defined.

(** ** Symmetry of the comparison *)

Section SwapLemmas.
Import Game.

(** Listing in the adjacency table goes both ways. *)
Lemma OCEAN_GROUPS_symmetric (r r' : string) :
  includes (default [] (OCEAN_GROUPS !! r)) r'
  = includes (default [] (OCEAN_GROUPS !! r')) r.
Proof.
  assert (Hhalf : forall a b,
            includes (default [] (OCEAN_GROUPS !! a)) b = true ->
            includes (default [] (OCEAN_GROUPS !! b)) a = true).
  { intros a b H. unfold includes in *. apply bool_decide_eq_true_1 in H.
    destruct (OCEAN_GROUPS !! a) as [grp|] eqn:Ha; [|now apply elem_of_nil in H].
    simpl in H.
    destruct (OCEAN_GROUPS_rows _ _ Ha)
      as [[-> ->]|[[-> ->]|[[-> ->]|[[-> ->]|[[-> ->]|[-> ->]]]]]];
      repeat (apply elem_of_cons in H as [->|H];
              [vm_compute; reflexivity|]);
      now apply elem_of_nil in H. }
  destruct (includes (default [] (OCEAN_GROUPS !! r)) r') eqn:E1,
           (includes (default [] (OCEAN_GROUPS !! r')) r) eqn:E2;
    try reflexivity.
  - apply Hhalf in E1. congruence.
  - apply Hhalf in E2. congruence.
Qed.

End SwapLemmas.

(** X27. The comparison is symmetric where it returns. For two fish
    whose regions are not names of members that objects inherit from
    [Object.prototype], the comparison returns in both orders, and with
    the guessed and the target fish exchanged each of the four
    attributes gets the same match value, and the arrow of the size
    points the other way; this holds for all other attribute values,
    also those outside the scale and the table. A fish compared with
    itself is exact in all four, with no arrow. *)
Theorem compareAttributes_swap (guessed target : FishEntity) :
  region (attributes guessed) ∉ OBJECT_PROTOTYPE ->
  region (attributes target) ∉ OBJECT_PROTOTYPE ->
  exists c c' same,
    Game.compareAttributes guessed target = Return c /\
    Game.compareAttributes target guessed = Return c' /\
    Game.compareAttributes guessed guessed = Return same /\
    Game.match_ (Game.cmpHabitat c') = Game.match_ (Game.cmpHabitat c) /\
    Game.match_ (Game.cmpSize c') = Game.match_ (Game.cmpSize c) /\
    Game.match_ (Game.cmpFamily c') = Game.match_ (Game.cmpFamily c) /\
    Game.match_ (Game.cmpRegion c') = Game.match_ (Game.cmpRegion c) /\
    Game.direction (Game.cmpSize c') = opposite (Game.direction (Game.cmpSize c)) /\
    map Game.match_
        [Game.cmpHabitat same; Game.cmpSize same; Game.cmpFamily same;
         Game.cmpRegion same]
      = [Game.exact; Game.exact; Game.exact; Game.exact] /\
    Game.direction (Game.cmpSize same) = Game.null.
Proof.
  intros Hguessed Htarget.
  destruct (compareAttributes_returns guessed target Hguessed) as [c Hc].
  destruct (compareAttributes_returns target guessed Htarget) as [c' Hc'].
  pose proof (compareAttributes_same guessed Hguessed) as Hsame.
  eexists c, c', _.
  split; [exact Hc|]. split; [exact Hc'|]. split; [exact Hsame|].
  assert (Hsym : forall a b : string,
            bool_decide (a = b) = bool_decide (b = a))
    by (intros a b; apply bool_decide_ext; split; congruence).
  destruct (cmpOthers guessed target c Hc) as (Hh & Hf & _).
  destruct (cmpOthers target guessed c' Hc') as (Hh' & Hf' & _).
  split; [|split; [|split; [|split; [|split; [|split]]]]].
  - rewrite Hh, Hh'. cbn [Game.match_]. now rewrite Hsym.
  - rewrite (cmpSize_indices target guessed c' _ _ Hc' eq_refl eq_refl),
            (cmpSize_indices guessed target c _ _ Hc eq_refl eq_refl).
    cbn [Game.match_].
    set (a := indexOf Game.SIZE_ORDER (size (attributes guessed))).
    set (b := indexOf Game.SIZE_ORDER (size (attributes target))).
    destruct (Z.eqb_spec (b - a) 0), (Z.eqb_spec (a - b) 0); try lia; try reflexivity.
    destruct (Z.eqb_spec (Z.abs (b - a)) 1), (Z.eqb_spec (Z.abs (a - b)) 1);
      try lia; reflexivity.
  - rewrite Hf, Hf'. cbn [Game.match_]. now rewrite Hsym.
  - rewrite (cmpRegion_unfold target guessed c' Hc'),
            (cmpRegion_unfold guessed target c Hc), Hsym, OCEAN_GROUPS_symmetric.
    reflexivity.
  - rewrite (cmpSize_indices target guessed c' _ _ Hc' eq_refl eq_refl),
            (cmpSize_indices guessed target c _ _ Hc eq_refl eq_refl).
    cbn [Game.direction].
    set (a := indexOf Game.SIZE_ORDER (size (attributes guessed))).
    set (b := indexOf Game.SIZE_ORDER (size (attributes target))).
    destruct (Z.ltb_spec 0 (b - a)), (Z.ltb_spec 0 (a - b)),
             (Z.ltb_spec (b - a) 0), (Z.ltb_spec (a - b) 0);
      try lia; reflexivity.
  - reflexivity.
  - reflexivity.
Qed.

Lemma compareAttributes_swap_witness :
  (region (attributes tuna) ∉ OBJECT_PROTOTYPE) /\
  (region (attributes clownfish) ∉ OBJECT_PROTOTYPE) /\
  exists c c',
    Game.compareAttributes tuna clownfish = Return c /\
    Game.compareAttributes clownfish tuna = Return c' /\
    Game.match_ (Game.cmpSize c) = Game.wrong /\
    Game.match_ (Game.cmpSize c') = Game.wrong /\
    Game.direction (Game.cmpSize c) = Game.down /\
    Game.direction (Game.cmpSize c') = Game.up.
Proof.
  assert (Htuna : region (attributes tuna) ∉ OBJECT_PROTOTYPE).
  { unfold OBJECT_PROTOTYPE. rewrite !elem_of_cons, elem_of_nil.
    intuition discriminate. }
  assert (Hclownfish : region (attributes clownfish) ∉ OBJECT_PROTOTYPE).
  { unfold OBJECT_PROTOTYPE. rewrite !elem_of_cons, elem_of_nil.
    intuition discriminate. }
  split; [exact Htuna|]. split; [exact Hclownfish|].
  destruct (compareAttributes_swap tuna clownfish Htuna Hclownfish)
    as (c & c' & same & Hc & Hc' & _ & _ & Hsize & _ & _ & Hdir & _).
  exists c, c'. split; [exact Hc|]. split; [exact Hc'|].
  assert (Hentry : Game.match_ (Game.cmpSize c) = Game.wrong
                   /\ Game.direction (Game.cmpSize c) = Game.down).
  { vm_compute in Hc. injection Hc as <-. split; reflexivity. }
  destruct Hentry as [Hwrong Hdown].
  split; [exact Hwrong|]. split; [rewrite Hsize; exact Hwrong|].
  split; [exact Hdown|]. rewrite Hdir, Hdown. reflexivity.
Defined.

(** ** Sharing *)

Section SharingLemmas.
Import Sharing.
Variable EMOJI : Emoji.

Lemma generateGuessRow_matches (g1 g2 : Game.Guess) :
  guessMatches g1 = guessMatches g2 ->
  generateGuessRow EMOJI g1 = generateGuessRow EMOJI g2.
Proof.
  unfold guessMatches, generateGuessRow, emojiOf. cbv zeta. simpl.
  intros [= -> -> -> ->]. reflexivity.
Qed.

Lemma textRowsFrom_matches (count : nat) (won : bool) (h1 h2 : list Game.Guess) :
  map guessMatches h1 = map guessMatches h2 ->
  forall index text,
    textRowsFrom EMOJI count won index h1 text
    = textRowsFrom EMOJI count won index h2 text.
Proof.
  revert h2. induction h1 as [|g1 h1 IH]; intros [|g2 h2] H; try discriminate;
    [reflexivity|].
  change (guessMatches g1 :: map guessMatches h1
          = guessMatches g2 :: map guessMatches h2) in H.
  assert (Hg : guessMatches g1 = guessMatches g2) by congruence.
  assert (Hrest : map guessMatches h1 = map guessMatches h2) by congruence.
  intros index text. simpl.
  rewrite (generateGuessRow_matches g1 g2 Hg). apply IH. exact Hrest.
Qed.

Lemma displayRowsFrom_matches (count : nat) (won : bool) (h1 h2 : list Game.Guess) :
  map guessMatches h1 = map guessMatches h2 ->
  forall index html,
    displayRowsFrom EMOJI count won index h1 html
    = displayRowsFrom EMOJI count won index h2 html.
Proof.
  revert h2. induction h1 as [|g1 h1 IH]; intros [|g2 h2] H; try discriminate;
    [reflexivity|].
  change (guessMatches g1 :: map guessMatches h1
          = guessMatches g2 :: map guessMatches h2) in H.
  assert (Hg : guessMatches g1 = guessMatches g2) by congruence.
  assert (Hrest : map guessMatches h1 = map guessMatches h2) by congruence.
  intros index html. simpl.
  rewrite (generateGuessRow_matches g1 g2 Hg). apply IH. exact Hrest.
Qed.

End SharingLemmas.

(** X28. What is shared gives nothing away but the match values. Two
    results with the same game number, score, hint counts and outcome
    whose guesses have the same match values, guess by guess, have the
    same share text and the same share display, whatever fish were
    guessed, whatever their attribute values and whichever way the size
    arrows point. *)
Theorem share_shows_only_matches (EMOJI : Sharing.Emoji)
    (r1 r2 : Sharing.GameResult) :
  Sharing.gameNumber r1 = Sharing.gameNumber r2 ->
  Sharing.score r1 = Sharing.score r2 ->
  Sharing.hintCounts r1 = Sharing.hintCounts r2 ->
  Sharing.won r1 = Sharing.won r2 ->
  map guessMatches (Sharing.guessHistory r1)
    = map guessMatches (Sharing.guessHistory r2) ->
  Sharing.generateShareText EMOJI r1 = Sharing.generateShareText EMOJI r2 /\
  Sharing.generateShareDisplay EMOJI r1 = Sharing.generateShareDisplay EMOJI r2.
Proof.
  intros Hn Hs Hh Hw Hm.
  assert (Hlen : length (Sharing.guessHistory r1) = length (Sharing.guessHistory r2)).
  { apply (f_equal length) in Hm. now rewrite !length_map in Hm. }
  unfold Sharing.generateShareText, Sharing.generateShareDisplay. cbv zeta.
  rewrite Hn, Hs, Hh, Hw, Hlen.
  rewrite (textRowsFrom_matches EMOJI _ _ _ _ Hm).
  rewrite (displayRowsFrom_matches EMOJI _ _ _ _ Hm).
  split; reflexivity.
Qed.

Lemma share_shows_only_matches_witness :
  exists c c',
    Game.compareAttributes goldfish clownfish = Return c /\
    Game.compareAttributes clownfish goldfish = Return c' /\
    Game.cmpHabitat c <> Game.cmpHabitat c' /\
    Sharing.generateShareText (Sharing.mkEmoji "G" "Y" "W" "V" "F" "L" "C")
      (gameResultOf (Game.withGuesses [Game.mkGuess goldfish c false] sampleSession))
    = Sharing.generateShareText (Sharing.mkEmoji "G" "Y" "W" "V" "F" "L" "C")
        (gameResultOf (Game.withGuesses [Game.mkGuess clownfish c' false] sampleSession)).
Proof.
  eexists _, _.
  split; [vm_compute; reflexivity|]. split; [vm_compute; reflexivity|].
  split; [discriminate|].
  apply share_shows_only_matches; reflexivity.
Defined.

(** ** A guess the comparison fails on *)

(** X29. In a running session, the guess of a selected fish that was not
    guessed before and whose region is the name of a member that objects
    inherit from [Object.prototype], such as constructor, makes
    [submitGuess] fail with a [TypeError]: the comparison with the
    target fails before the guess is recorded. *)
Theorem submitGuess_inherited_region_fails (now : Date) (target f : FishEntity)
    (st : Game.State) :
  Game.targetFish st = Some target ->
  Game.gameOver st = false ->
  trim (Autocomplete.inputValue (Game.autocomplete st)) <> "" ->
  Game.selectedFish st = Some f ->
  id f ∉ guessedIds st ->
  region (attributes f) ∈ OBJECT_PROTOTYPE ->
  exists msg, Game.submitGuess now st = Throw (TypeError msg).
Proof.
  intros Ht Hover Hblank Hsel Hnew Hinherited.
  assert (Hdup : existsb (fun g => bool_decide (id (Game.fish g) = id f))
                         (Game.guesses st) = false).
  { destruct (existsb _ _) eqn:E; [|reflexivity].
    apply existsb_guessed in E. contradiction. }
  destruct (compareAttributes_throws f target Hinherited) as [msg Hthrow].
  exists msg. unfold Game.submitGuess.
  rewrite Hover, bool_decide_eq_false_2 by exact Hblank.
  rewrite Hsel, Hdup. unfold Game.target. rewrite Ht.
  cbn [mbind completion_bind]. rewrite Hthrow. reflexivity.
Qed.

Lemma submitGuess_inherited_region_fails_witness :
  let st := Game.withSelectedFish (Some lanternfish)
              (Game.withAutocomplete
                 (typeText "Lanternfish" (Game.autocomplete sampleSession))
                 sampleSession) in
  Game.targetFish st = Some clownfish /\
  Game.gameOver st = false /\
  trim (Autocomplete.inputValue (Game.autocomplete st)) <> "" /\
  region (attributes lanternfish) = "constructor" /\
  exists msg, Game.submitGuess newYear2024 st = Throw (TypeError msg).
Proof.
  intros st.
  assert (Hblank : trim (Autocomplete.inputValue (Game.autocomplete st)) <> "")
    by (vm_compute; discriminate).
  split; [reflexivity|]. split; [reflexivity|]. split; [exact Hblank|].
  split; [reflexivity|].
  apply (submitGuess_inherited_region_fails newYear2024 clownfish lanternfish st);
    [reflexivity|reflexivity|exact Hblank|reflexivity| |].
  - unfold guessedIds. simpl. apply not_elem_of_nil.
  - unfold OBJECT_PROTOTYPE. simpl. rewrite !elem_of_cons. tauto.
Defined.
